(** * bleump: the version propagation engine

    A shallow embedding of the version-bumping code of reliverse/bleump:
    the library module (bump modes patch/minor/major/auto/manual, a fixed
    list of files, [bumpVersion]) and the CLI implementation module (modes
    autoPatch/autoMinor/autoMajor, glob filters, [bumpVersions]).

    Strings are JavaScript strings restricted to the code units 0..255.
    Functions that throw return a [result]; the file system is an explicit
    finite map that is threaded through the functions that read and write. *)

From Stdlib Require Import String Ascii List NArith Lia Bool.
From Stdlib Require Import DecimalString DecimalN DecimalFacts.
From stdpp Require Import gmap strings.
Import ListNotations.
Open Scope string_scope.

(** Concatenation of strings computes under [simpl], as it does for lists. *)
Arguments String.append !s1 s2 : simpl nomatch.

(** ** JavaScript strings *)

Module Js.

(** The double quote, which a string literal of this file cannot hold. *)
Definition dquote : ascii := ascii_of_nat 34.
Definition squote : ascii := "'"%char.
Definition DQ : string := String dquote EmptyString.

(** [q s] is [s] between double quotes. *)
Definition q (s : string) : string := DQ ++ s ++ DQ.

(** [\s] and the characters removed by [trim], among the code units
    below 256: TAB, LF, VT, FF, CR, SPACE and NBSP. *)
Definition is_space (c : ascii) : bool :=
  let n := nat_of_ascii c in
  (((9 <=? n) && (n <=? 13)) || (n =? 32) || (n =? 160))%nat.

Definition is_digit (c : ascii) : bool :=
  let n := nat_of_ascii c in ((48 <=? n) && (n <=? 57))%nat.

Definition is_letter (c : ascii) : bool :=
  let n := nat_of_ascii c in
  (((65 <=? n) && (n <=? 90)) || ((97 <=? n) && (n <=? 122)))%nat.

Fixpoint all (p : ascii -> bool) (s : string) : bool :=
  match s with
  | EmptyString => true
  | String c r => p c && all p r
  end.

Fixpoint has (p : ascii -> bool) (s : string) : bool :=
  match s with
  | EmptyString => false
  | String c r => p c || has p r
  end.

(** [s.includes(c)] for a one-character needle. *)
Definition includes_char (s : string) (c : ascii) : bool :=
  has (Ascii.eqb c) s.

(** [s.startsWith(p)] *)
Fixpoint startsWith (s p : string) {struct p} : bool :=
  match p, s with
  | EmptyString, _ => true
  | String a p', String b s' => Ascii.eqb a b && startsWith s' p'
  | String _ _, EmptyString => false
  end.

(** [s.includes(p)] *)
Fixpoint includes (s p : string) : bool :=
  startsWith s p ||
  match s with
  | EmptyString => false
  | String _ r => includes r p
  end.

Fixpoint rev_acc (s acc : string) : string :=
  match s with
  | EmptyString => acc
  | String c r => rev_acc r (String c acc)
  end.

Definition rev (s : string) : string := rev_acc s EmptyString.

(** [s.endsWith(p)] *)
Definition endsWith (s p : string) : bool := startsWith (rev s) (rev p).

(** The longest prefix of characters satisfying [p], and the rest. *)
Fixpoint span (p : ascii -> bool) (s : string) : string * string :=
  match s with
  | EmptyString => (EmptyString, EmptyString)
  | String c r =>
      if p c then let '(a, b) := span p r in (String c a, b)
      else (EmptyString, s)
  end.

(** [stops p b]: [b] is empty or starts with a character outside [p]. *)
Definition stops (p : ascii -> bool) (b : string) : Prop :=
  match b with
  | EmptyString => True
  | String c _ => p c = false
  end.

Definition trimStart (s : string) : string := snd (span is_space s).
Definition trimEnd (s : string) : string := rev (trimStart (rev s)).
Definition trim (s : string) : string := trimEnd (trimStart s).

(** [s.split(c)] for a one-character separator: never the empty list. *)
Fixpoint split (c : ascii) (s : string) : list string :=
  match s with
  | EmptyString => [EmptyString]
  | String a r =>
      if Ascii.eqb a c then EmptyString :: split c r
      else match split c r with
           | h :: t => String a h :: t
           | [] => [String a EmptyString]
           end
  end.

(** [l.join(sep)] *)
Fixpoint join (sep : string) (l : list string) : string :=
  match l with
  | [] => EmptyString
  | [x] => x
  | x :: r => x ++ sep ++ join sep r
  end.

(** The part before the first [c], and the part after it when there is
    one. *)
Fixpoint cut (c : ascii) (s : string) : string * option string :=
  match s with
  | EmptyString => (EmptyString, None)
  | String a r =>
      if Ascii.eqb a c then (EmptyString, Some r)
      else let '(h, t) := cut c r in (String a h, t)
  end.

(** [s.substring(1)] *)
Definition substring1 (s : string) : string :=
  match s with
  | EmptyString => EmptyString
  | String _ r => r
  end.

(** JavaScript truthiness of an optional string: [undefined] and the
    empty string are falsy. *)
Definition truthy (o : option string) : bool :=
  match o with
  | Some (String _ _) => true
  | _ => false
  end.

End Js.

(** ** Results of functions that may throw *)

(** A thrown JavaScript error: its [name] (Error, TypeError, ...) and its
    [message]. *)
Record error : Type := mkError {
  err_name : string;
  err_message : string
}.

Definition Error (message : string) : error := mkError "Error" message.
Definition TypeError (message : string) : error := mkError "TypeError" message.

(** [String(error)], as a template literal renders a caught error. *)
Definition error_string (e : error) : string :=
  err_name e ++ ": " ++ err_message e.

Inductive result (A : Type) : Type :=
| Ok (a : A)
| Throw (e : error).
Arguments Ok {A} a.
Arguments Throw {A} e.

Definition is_ok {A} (r : result A) : bool :=
  match r with Ok _ => true | Throw _ => false end.

Definition to_option {A} (r : result A) : option A :=
  match r with Ok a => Some a | Throw _ => None end.

(** ** The semver package

    [semver] (node-semver 7, the dependency declared in package.json) is
    not part of the repository. The functions the repository calls are
    modelled here after the package's SemVer class in its default (strict,
    no prerelease in ranges) mode: [valid], [inc] for the release types
    major, minor and patch, [compare], [eq] and [maxSatisfying] for the
    range ["*"]. *)

Module Semver.

Definition MAX_LENGTH : nat := 256.
Definition MAX_SAFE_INTEGER : N := 9007199254740991.

(** A prerelease identifier: numeric identifiers below MAX_SAFE_INTEGER
    are held as numbers, the others as strings. *)
Inductive ident : Type :=
| Num (n : N)
| Alpha (s : string).

Record SemVer : Type := mkSemVer {
  major : N;
  minor : N;
  patch : N;
  prerelease : list ident;
  build : list string
}.

Inductive ReleaseType : Type := major_release | minor_release | patch_release.

(** [0|[1-9]\d*] *)
Definition numeric_identifier (s : string) : bool :=
  match s with
  | EmptyString => false
  | String c r =>
      Js.is_digit c && Js.all Js.is_digit r &&
      (negb (Ascii.eqb c "0") || String.eqb r EmptyString)
  end.

(** [[a-zA-Z0-9-]] *)
Definition letterdashnumber (c : ascii) : bool :=
  Js.is_digit c || Js.is_letter c || Ascii.eqb c "-".

(** [\d*[a-zA-Z-][a-zA-Z0-9-]*] *)
Definition nonnumeric_identifier (s : string) : bool :=
  Js.all letterdashnumber s && Js.has (fun c => negb (Js.is_digit c)) s.

Definition prerelease_identifier (s : string) : bool :=
  numeric_identifier s || nonnumeric_identifier s.

(** [[a-zA-Z0-9-]+] *)
Definition build_identifier (s : string) : bool :=
  Js.all letterdashnumber s && negb (String.eqb s EmptyString).

(** [+s] for a string of decimal digits. *)
Definition to_number (s : string) : N :=
  match NilEmpty.uint_of_string s with
  | Some d => N.of_uint d
  | None => 0%N
  end.

(** A number in a template literal. *)
Definition of_number (n : N) : string :=
  NilEmpty.string_of_uint (N.to_uint n).

Definition numberify (id : string) : ident :=
  if Js.all Js.is_digit id && (to_number id <? MAX_SAFE_INTEGER)%N
  then Num (to_number id) else Alpha id.

Definition strip_v (s : string) : string :=
  match s with
  | String "v" r => r
  | _ => s
  end.

(** [new SemVer(version)] *)
Definition construct (version : string) : result SemVer :=
  if (MAX_LENGTH <? String.length version)%nat
  then Throw (TypeError "version is longer than 256 characters") else
  let invalid := Throw (TypeError ("Invalid Version: " ++ version)) in
  let '(main_pre, bld) := Js.cut "+" (strip_v (Js.trim version)) in
  let '(main, pre) := Js.cut "-" main_pre in
  let pre_ids := match pre with Some p => Js.split "." p | None => [] end in
  let bld_ids := match bld with Some b => Js.split "." b | None => [] end in
  match Js.split "." main with
  | [a; b; c] =>
      if numeric_identifier a && numeric_identifier b &&
         numeric_identifier c &&
         forallb prerelease_identifier pre_ids &&
         forallb build_identifier bld_ids
      then
        if (MAX_SAFE_INTEGER <? to_number a)%N
        then Throw (TypeError "Invalid major version")
        else if (MAX_SAFE_INTEGER <? to_number b)%N
        then Throw (TypeError "Invalid minor version")
        else if (MAX_SAFE_INTEGER <? to_number c)%N
        then Throw (TypeError "Invalid patch version")
        else Ok (mkSemVer (to_number a) (to_number b) (to_number c)
                          (map numberify pre_ids) bld_ids)
      else invalid
  | _ => invalid
  end.

(** [semver.parse(version)], [None] for the package's [null]. *)
Definition parse (version : string) : option SemVer :=
  to_option (construct version).

Definition ident_string (i : ident) : string :=
  match i with
  | Num n => of_number n
  | Alpha s => s
  end.

(** The characters of a version. *)
Definition version_char (c : ascii) : bool :=
  letterdashnumber c || Ascii.eqb c "." || Ascii.eqb c "+".

Definition version_or_space (c : ascii) : bool :=
  version_char c || Js.is_space c.

(** The characters of MAJOR.MINOR.PATCH *)
Definition core_char (c : ascii) : bool :=
  Js.is_digit c || Ascii.eqb c ".".

(** MAJOR.MINOR.PATCH *)
Definition core (M m p : N) : string :=
  of_number M ++ "." ++ of_number m ++ "." ++ of_number p.

(** [SemVer.format()]: the [version] field, without the build. *)
Definition format (v : SemVer) : string :=
  core (major v) (minor v) (patch v) ++
  match prerelease v with
  | [] => EmptyString
  | ids => "-" ++ Js.join "." (map ident_string ids)
  end.

(** [semver.valid(version)] *)
Definition valid (version : string) : option string :=
  option_map format (parse version).

(** [SemVer.inc(release)] *)
Definition inc_semver (v : SemVer) (release : ReleaseType) : SemVer :=
  match release with
  | major_release =>
      let bump :=
        negb (minor v =? 0)%N || negb (patch v =? 0)%N ||
        (Nat.eqb (List.length (prerelease v)) 0) in
      mkSemVer (if bump then major v + 1 else major v)%N 0 0 [] (build v)
  | minor_release =>
      let bump :=
        negb (patch v =? 0)%N || (Nat.eqb (List.length (prerelease v)) 0) in
      mkSemVer (major v) (if bump then minor v + 1 else minor v)%N 0 []
               (build v)
  | patch_release =>
      let bump := Nat.eqb (List.length (prerelease v)) 0 in
      mkSemVer (major v) (minor v) (if bump then patch v + 1 else patch v)%N
               [] (build v)
  end.

(** [semver.inc(version, release)], [None] for the package's [null]. *)
Definition inc (version : string) (release : ReleaseType) : option string :=
  option_map (fun v => format (inc_semver v release)) (parse version).

Definition ident_numeric (i : ident) : bool :=
  match i with
  | Num _ => true
  | Alpha s => Js.all Js.is_digit s && negb (String.eqb s EmptyString)
  end.

(** The double nearest to a number, ties going to the even one: the
    value of [+s] for a string of digits. *)
Definition to_double (n : N) : N :=
  if (N.size n <=? 53)%N then n
  else
    let e := (N.size n - 53)%N in
    let q := N.shiftr n e in
    let rest := N.land n (N.ones e) in
    let half := N.shiftl 1 (e - 1) in
    let up := (half <? rest)%N || ((rest =? half)%N && N.odd q) in
    N.shiftl (if up then q + 1 else q)%N e.

Definition ident_value (i : ident) : N :=
  match i with
  | Num n => n
  | Alpha s => to_double (to_number s)
  end.

(** [compareIdentifiers(a, b)] *)
Definition compareIdentifiers (a b : ident) : comparison :=
  match ident_numeric a, ident_numeric b with
  | true, true => (ident_value a ?= ident_value b)%N
  | true, false => Lt
  | false, true => Gt
  | false, false => String.compare (ident_string a) (ident_string b)
  end.

Definition ident_eqb (a b : ident) : bool :=
  match a, b with
  | Num x, Num y => (x =? y)%N
  | Alpha x, Alpha y => String.eqb x y
  | _, _ => false
  end.

Definition lexic (c d : comparison) : comparison :=
  match c with Eq => d | _ => c end.

(** [SemVer.compareMain(other)] *)
Definition compareMain (a b : SemVer) : comparison :=
  lexic (major a ?= major b)%N
    (lexic (minor a ?= minor b)%N (patch a ?= patch b)%N).

(** The loop of [SemVer.comparePre(other)]. *)
Fixpoint comparePre_loop (a b : list ident) : comparison :=
  match a, b with
  | [], [] => Eq
  | _ :: _, [] => Gt
  | [], _ :: _ => Lt
  | x :: a', y :: b' =>
      if ident_eqb x y then comparePre_loop a' b'
      else compareIdentifiers x y
  end.

(** [SemVer.comparePre(other)] *)
Definition comparePre (a b : SemVer) : comparison :=
  match prerelease a, prerelease b with
  | _ :: _, [] => Lt
  | [], _ :: _ => Gt
  | [], [] => Eq
  | pa, pb => comparePre_loop pa pb
  end.

(** [SemVer.compare(other)] *)
Definition compare_semver (a b : SemVer) : comparison :=
  if String.eqb (format b) (format a) then Eq
  else lexic (compareMain a b) (comparePre a b).

(** [semver.compare(a, b)] *)
Definition compare (a b : string) : result comparison :=
  match construct a with
  | Throw e => Throw e
  | Ok x =>
      match construct b with
      | Throw e => Throw e
      | Ok y => Ok (compare_semver x y)
      end
  end.

(** [semver.eq(a, b)] *)
Definition eq (a b : string) : result bool :=
  match compare a b with
  | Throw e => Throw e
  | Ok c => Ok (match c with Eq => true | _ => false end)
  end.

(** [new Range("*").test(version)] : the single comparator is ANY, and
    a version with a prerelease tag is then refused. *)
Definition satisfies_any (version : string) : bool :=
  match parse version with
  | Some v => Nat.eqb (List.length (prerelease v)) 0
  | None => false
  end.

(** One round of the [forEach] of [maxSatisfying]. *)
Definition maxSatisfying_step (acc : option (string * SemVer)) (v : string)
  : option (string * SemVer) :=
  if satisfies_any v then
    match acc, parse v with
    | None, Some sv => Some (v, sv)
    | Some (max, maxSV), Some sv =>
        match compare_semver maxSV sv with
        | Lt => Some (v, sv)
        | _ => acc
        end
    | _, None => acc
    end
  else acc.

(** [semver.maxSatisfying(versions, "*")] *)
Definition maxSatisfying_any (versions : list string) : option string :=
  option_map fst (fold_left maxSatisfying_step versions None).

End Semver.

(** ** The file system

    [node:fs/promises] and [fs-extra], as far as the code uses them: a
    path holds a file with its text; reading or writing a file can fail
    with the error the node carries, and reading a path that holds nothing
    fails with ENOENT. *)

Module Fs.

Record node : Type := mkNode {
  content : string;
  read_error : option error;
  write_error : option error
}.

Definition file (text : string) : node := mkNode text None None.

Definition ENOENT (path : string) : error :=
  Error ("ENOENT: no such file or directory, open '" ++ path ++ "'").

(** [readFile(path, "utf-8")] *)
Definition readFile (fs : gmap string node) (path : string)
  : result string :=
  match fs !! path with
  | None => Throw (ENOENT path)
  | Some n =>
      match read_error n with
      | Some e => Throw e
      | None => Ok (content n)
      end
  end.

(** [writeFile(path, data, "utf-8")] *)
Definition writeFile (fs : gmap string node) (path data : string)
  : result (gmap string node) :=
  match fs !! path with
  | None => Ok (<[path := file data]> fs)
  | Some n =>
      match write_error n with
      | Some e => Throw e
      | None => Ok (<[path := mkNode data (read_error n) None]> fs)
      end
  end.

(** [fs.pathExists(path)] *)
Definition pathExists (fs : gmap string node) (path : string) : bool :=
  match fs !! path with
  | Some _ => true
  | None => false
  end.

(** The text held at a path, whether or not it can be read. *)
Definition text_at (fs : gmap string node) (path : string)
  : option string :=
  content <$> fs !! path.

End Fs.

(** ** Regular expressions

    The two literal patterns of [versionPatterns] and the string methods
    used with them. Each pattern is a sequence of steps none of which can
    match in two ways, so the backtracking matcher is a function. *)

Module Regex.

(** A match: the matched text and the capture groups of the pattern,
    [None] for a group that took no part in the match. *)
Record matched : Type := mkMatched {
  text : string;
  captures : list (option string)
}.

(** A literal at the start of [s]: the rest of [s]. *)
Fixpoint lit (l s : string) : option string :=
  match l, s with
  | EmptyString, _ => Some s
  | String a l', String b s' => if Ascii.eqb a b then lit l' s' else None
  | String _ _, EmptyString => None
  end.

(** One character of a class at the start of [s]. *)
Definition one (p : ascii -> bool) (s : string) : option (ascii * string) :=
  match s with
  | String c r => if p c then Some (c, r) else None
  | EmptyString => None
  end.

Definition is_dquote (c : ascii) : bool := Ascii.eqb c Js.dquote.
Definition is_quote (c : ascii) : bool :=
  Ascii.eqb c Js.dquote || Ascii.eqb c Js.squote.
Definition is_operator (c : ascii) : bool :=
  Ascii.eqb c "=" || Ascii.eqb c ":".
Definition is_colon (c : ascii) : bool := Ascii.eqb c ":".

Definition char (c : ascii) : string := String c EmptyString.

(** The text of a version member of a manifest, and that of a version
    declaration of a source file. *)
Definition member (w1 w2 g : string) : string :=
  Js.q "version" ++ w1 ++ ":" ++ w2 ++ Js.q g.

Definition declaration (w1 : string) (o : ascii) (w2 : string)
    (q1 : ascii) (g : string) (q2 : ascii) : string :=
  "version" ++ w1 ++ char o ++ w2 ++ char q1 ++ g ++ char q2.

Definition not_v (c : ascii) : bool := negb (Ascii.eqb c "v").
Definition not_dquote (c : ascii) : bool := negb (is_dquote c).
Definition not_quote (c : ascii) : bool := negb (is_quote c).

(** [versionPatterns.packageJson] at the start of [s]: the match and
    the text after it. With <dq> for the double quote the pattern is
    /<dq>version<dq>\s*:\s*<dq>([^<dq>]+)<dq>/. *)
Definition packageJson_at (s : string) : option (matched * string) :=
  match lit (Js.q "version") s with
  | None => None
  | Some s1 =>
      let '(w1, s2) := Js.span Js.is_space s1 in
      match one is_colon s2 with
      | None => None
      | Some (_, s3) =>
          let '(w2, s4) := Js.span Js.is_space s3 in
          match one is_dquote s4 with
          | None => None
          | Some (_, s5) =>
              let '(g, s6) := Js.span not_dquote s5 in
              match g, one is_dquote s6 with
              | String _ _, Some (_, s7) =>
                  Some (mkMatched (member w1 w2 g) [Some g], s7)
              | _, _ => None
              end
          end
      end
  end.

(** version\s*OP\s*[<dq>']([^<dq>']+)[<dq>'] at the start of [s], where
    OP is a character of the class [op]: the matched text, the group and
    the text after the match. *)
Definition declaration_at (op : ascii -> bool) (s : string)
  : option (string * string * string) :=
  match lit "version" s with
  | None => None
  | Some s1 =>
      let '(w1, s2) := Js.span Js.is_space s1 in
      match one op s2 with
      | None => None
      | Some (o, s3) =>
          let '(w2, s4) := Js.span Js.is_space s3 in
          match one is_quote s4 with
          | None => None
          | Some (q1, s5) =>
              let '(g, s6) := Js.span not_quote s5 in
              match g, one is_quote s6 with
              | String _ _, Some (q2, s7) =>
                  Some (declaration w1 o w2 q1 g q2, g, s7)
              | _, _ => None
              end
          end
      end
  end.

(** [versionPatterns.typescript] at the start of [s]:
    /version\s*[=:]\s*[<dq>']([^<dq>']+)[<dq>']|version\s*:\s*[<dq>']([^<dq>']+)[<dq>']\s*,/,
    the first alternative, and the second one where the first fails. *)
Definition typescript_at (s : string) : option (matched * string) :=
  match declaration_at is_operator s with
  | Some (t, g, r) => Some (mkMatched t [Some g; None], r)
  | None =>
      match declaration_at is_colon s with
      | None => None
      | Some (t, g, r) =>
          let '(w, r1) := Js.span Js.is_space r in
          match lit "," r1 with
          | None => None
          | Some r2 => Some (mkMatched (t ++ w ++ ",") [None; Some g], r2)
          end
      end
  end.

(** [regex.exec(s)] for a pattern without flags: the leftmost match,
    with the text before it and the text after it. *)
Fixpoint exec (at_start : string -> option (matched * string)) (s : string)
  : option (string * matched * string) :=
  match at_start s with
  | Some (m, r) => Some (EmptyString, m, r)
  | None =>
      match s with
      | EmptyString => None
      | String c s' =>
          match exec at_start s' with
          | Some (pre, m, r) => Some (String c pre, m, r)
          | None => None
          end
      end
  end.

(** [regex.test(s)] *)
Definition test (at_start : string -> option (matched * string))
    (s : string) : bool :=
  match exec at_start s with Some _ => true | None => false end.

(** Capture [n] (from 1) of a match. *)
Definition capture (m : matched) (n : nat) : option (option string) :=
  match n with
  | O => None
  | S k => nth_error (captures m) k
  end.

Definition digit_value (c : ascii) : option nat :=
  if Js.is_digit c then Some (nat_of_ascii c - 48) else None.

(** A [$n] or [$nn] reference of a replacement template, [ref] being its
    text: the capture when the pattern has that group (an unset group
    gives the empty string), the text of the reference otherwise. *)
Definition reference (m : matched) (n : nat) (ref : string) : string :=
  match capture m n with
  | Some (Some g) => g
  | Some None => EmptyString
  | None => ref
  end.

(** GetSubstitution: the expansion of a replacement template for a match
    of a pattern without named groups. *)
Fixpoint substitution (pre : string) (m : matched) (post : string)
    (template : string) : string :=
  match template with
  | EmptyString => EmptyString
  | String c0 r0 =>
      if negb (Ascii.eqb c0 "$")
      then String c0 (substitution pre m post r0)
      else
        match r0 with
        | EmptyString => "$"
        | String c r =>
            if Ascii.eqb c "$" then "$" ++ substitution pre m post r
            else if Ascii.eqb c "&" then text m ++ substitution pre m post r
            else if Ascii.eqb c "`" then pre ++ substitution pre m post r
            else if Ascii.eqb c "'" then post ++ substitution pre m post r
            else
              match digit_value c with
              | None => "$" ++ substitution pre m post r0
              | Some k1 =>
                  let one_digit :=
                    reference m k1 ("$" ++ char c) ++
                    substitution pre m post r in
                  match r with
                  | String c2 r2 =>
                      match digit_value c2 with
                      | Some k2 =>
                          match capture m (10 * k1 + k2) with
                          | Some g =>
                              reference m (10 * k1 + k2) EmptyString ++
                              substitution pre m post r2
                          | None => one_digit
                          end
                      | None => one_digit
                      end
                  | EmptyString => one_digit
                  end
              end
        end
  end.

(** [s.replace(regex, template)] for a pattern without flags. *)
Definition replace_template (at_start : string -> option (matched * string))
    (s template : string) : string :=
  match exec at_start s with
  | None => s
  | Some (pre, m, post) => pre ++ substitution pre m post template ++ post
  end.

(** [s.replace(regex, f)] for a pattern without flags and a function of
    the matched text. *)
Definition replace_function (at_start : string -> option (matched * string))
    (s : string) (f : string -> string) : string :=
  match exec at_start s with
  | None => s
  | Some (pre, m, post) => pre ++ f (text m) ++ post
  end.

(** [s.replace(/x/g, rep)] for a literal [x] and a replacement without
    [$]: every occurrence, left to right, without overlap. *)
Fixpoint replace_all_fuel (fuel : nat) (x rep s : string) : string :=
  match fuel with
  | O => s
  | S fuel' =>
      match lit x s with
      | Some r =>
          match x with
          | EmptyString => s
          | _ => rep ++ replace_all_fuel fuel' x rep r
          end
      | None =>
          match s with
          | EmptyString => EmptyString
          | String c r => String c (replace_all_fuel fuel' x rep r)
          end
      end
  end.

Definition replace_all (x rep s : string) : string :=
  replace_all_fuel (S (String.length s)) x rep s.

End Regex.

(** ** The library module

    The module whose bump modes are patch, minor, major, auto and manual.
    Messages of the verbose level are left out; everything else a function
    does is in its result. *)

Module Mod.

Inductive BumpMode : Type := patch | minor | major | auto | manual.

Inductive FileType : Type := package_json | typescript | unknown.

Record BumpOptions : Type := mkBumpOptions {
  dryRun : bool;
  customVersion : option string
}.

Record FileAnalysis : Type := mkFileAnalysis {
  file : string;
  supported : bool;
  detectedVersion : option string;
  versionMismatch : bool;
  reason : string;
  fileType : FileType
}.

Record UpdateResult : Type := mkUpdateResult {
  result_file : string;
  success : bool;
  error_text : option string
}.

(** What [JSON.parse(content)[field]] is to [getCurrentVersion]: a
    string, or anything else ([undefined] included). *)
Inductive json_value : Type :=
| json_string (s : string)
| json_other.

(** The built-ins of the host that the module calls and this file does
    not define: a field of a parsed JSON text, and the test of a regular
    expression given by its source text. *)
Class Host : Type := mkHost {
  JSON_parse_field : string -> string -> result json_value;
  RegExp_test : string -> string -> bool
}.

(** The characters of the class that [globToRegex] escapes. *)
Definition regex_char (c : ascii) : bool :=
  Js.includes_char ".+^${}()|[]\" c.

Fixpoint escape_regex_chars (s : string) : string :=
  match s with
  | EmptyString => EmptyString
  | String c r =>
      if regex_char c then String "\" (String c (escape_regex_chars r))
      else String c (escape_regex_chars r)
  end.

(** The source text of [globToRegex(pattern)]. *)
Definition globToRegex (pattern : string) : string :=
  let escaped :=
    Regex.replace_all "?" "[^/]"
      (Regex.replace_all "DOUBLESTAR" ".*"
         (Regex.replace_all "*" "[^/]*"
            (Regex.replace_all "**" "DOUBLESTAR"
               (escape_regex_chars pattern)))) in
  "^" ++ escaped ++ "$".

Definition matchesGlobs `{Host} (filePath : string) (globs : list string)
  : bool :=
  if Nat.eqb (List.length globs) 0 then true
  else existsb (fun glob => RegExp_test (globToRegex glob) filePath) globs.

Definition isValidSemver (version : string) : bool :=
  match Semver.valid version with
  | Some _ => true
  | None => false
  end.

Definition bumpType_name (b : BumpMode) : string :=
  match b with
  | patch => "patch"
  | minor => "minor"
  | major => "major"
  | auto => "auto"
  | manual => "manual"
  end.

Definition calculateNewVersion (current : string) (bumpType : BumpMode)
    (customVersion bumpSet : option string) : result string :=
  match bumpType with
  | manual =>
      if Js.truthy bumpSet then
        let bumpSet := default EmptyString bumpSet in
        if negb (isValidSemver bumpSet)
        then Throw (Error ("invalid bumpSet version: " ++ bumpSet))
        else Ok bumpSet
      else if negb (Js.truthy customVersion) then
        Throw (Error
          "either bumpSet (in reliverse.ts) or --customVersion required when bumpType is 'manual'")
      else
        let customVersion := default EmptyString customVersion in
        if negb (isValidSemver customVersion)
        then Throw (Error ("invalid custom version: " ++ customVersion))
        else Ok customVersion
  | _ =>
      let releaseType :=
        match bumpType with
        | major => Semver.major_release
        | minor => Semver.minor_release
        | _ => Semver.patch_release
        end in
      match Semver.inc current releaseType with
      | None =>
          Throw (Error ("failed to bump version " ++ current ++
                        " with type " ++ bumpType_name bumpType))
      | Some newVersion => Ok newVersion
      end
  end.

Definition detectFileType (filePath content : string) : FileType :=
  if Js.endsWith filePath "package.json" then package_json
  else if (Js.endsWith filePath ".ts" || Js.endsWith filePath ".js") &&
          Regex.test Regex.typescript_at content
  then typescript
  else unknown.

(** [a ?? b] on captures. *)
Definition nullish (a b : option string) : option string :=
  match a with Some _ => a | None => b end.

Definition group (m : Regex.matched) (n : nat) : option string :=
  match Regex.capture m n with
  | Some g => g
  | None => None
  end.

Definition extractVersion (content : string) (fileType : FileType)
  : option string :=
  match fileType with
  | package_json =>
      match Regex.exec Regex.packageJson_at content with
      | Some (_, pkgMatch, _) => group pkgMatch 1
      | None => None
      end
  | typescript =>
      match Regex.exec Regex.typescript_at content with
      | Some (_, tsMatch, _) => nullish (group tsMatch 1) (group tsMatch 2)
      | None => None
      end
  | unknown => None
  end.

(** The pieces that the replacement function of the typescript case
    takes from the matched text. *)
Definition delimiter_of (matched : string) : ascii :=
  if Js.includes_char matched Js.dquote then Js.dquote else Js.squote.

Definition operator_of (matched : string) : ascii :=
  if Js.includes_char matched "=" then "="%char else ":"%char.

Definition comma_of (matched : string) : string :=
  if Js.includes_char matched "," then "," else "".

(** The replacement function of the typescript case. *)
Definition typescript_replacement (newVersion matched : string) : string :=
  let delimiter := Regex.char (delimiter_of matched) in
  let operator := Regex.char (operator_of matched) in
  "version" ++ operator ++ " " ++ delimiter ++ newVersion ++ delimiter ++
  comma_of matched.

Definition updateVersionInContent (content newVersion : string)
    (fileType : FileType) : result string :=
  match fileType with
  | package_json =>
      Ok (Regex.replace_template Regex.packageJson_at content
            (Js.q "version" ++ ": " ++ Js.q newVersion))
  | typescript =>
      Ok (Regex.replace_function Regex.typescript_at content
            (typescript_replacement newVersion))
  | unknown => Throw (Error "unsupported file type for version update")
  end.

(** One round of the loop of [analyzeFiles]. *)
Definition analyzeFile (fs : gmap string Fs.node) (referenceVersion : string)
    (file : string) : FileAnalysis :=
  let caught (e : error) :=
    mkFileAnalysis file false None false ("read error: " ++ error_string e)
                   unknown in
  match Fs.readFile fs file with
  | Throw e => caught e
  | Ok content =>
      let fileType := detectFileType file content in
      let detectedVersion := extractVersion content fileType in
      match fileType with
      | unknown =>
          mkFileAnalysis file false detectedVersion false
                         "unsupported file type" fileType
      | _ =>
          match detectedVersion with
          | Some (String _ _ as found) =>
              match Semver.eq found referenceVersion with
              | Throw e => caught e
              | Ok false =>
                  mkFileAnalysis file true detectedVersion true
                    ("version mismatch: found " ++ found ++ ", expected " ++
                     referenceVersion) fileType
              | Ok true =>
                  mkFileAnalysis file true detectedVersion false "ok"
                                 fileType
              end
          | _ =>
              mkFileAnalysis file false detectedVersion false
                             "no version field found" fileType
          end
      end
  end.

Definition analyzeFiles (fs : gmap string Fs.node) (files : list string)
    (referenceVersion : string) : list FileAnalysis :=
  fold_left (fun results file =>
               (results ++ [analyzeFile fs referenceVersion file])%list)
            files [].

(** [getCurrentVersion()] with its default arguments, as [bumpVersion]
    calls it: the version field of package.json. *)
Definition getCurrentVersion `{Host} (fs : gmap string Fs.node)
  : result string :=
  match Fs.readFile fs "package.json" with
  | Throw e => Throw e
  | Ok content =>
      match JSON_parse_field content "version" with
      | Throw e => Throw e
      | Ok (json_string (String _ _ as value)) => Ok value
      | Ok _ => Throw (Error "field 'version' not found in package.json")
      end
  end.

(** The state of the loop of [bumpVersion]: the files, [updateResults]
    and the messages of level log. *)
Record BumpState : Type := mkBumpState {
  files_now : gmap string Fs.node;
  updateResults : list UpdateResult;
  logged : list string
}.

Definition record_result (st : BumpState) (r : UpdateResult) : BumpState :=
  mkBumpState (files_now st) (updateResults st ++ [r])%list (logged st).

Definition failed (file : string) (e : error) : UpdateResult :=
  mkUpdateResult file false (Some (err_message e)).

Definition succeeded (file : string) : UpdateResult :=
  mkUpdateResult file true None.

(** One round of the loop of [bumpVersion]. *)
Definition bumpFile (newVersion : string) (dryRun : bool) (st : BumpState)
    (file : string) : BumpState :=
  match Fs.readFile (files_now st) file with
  | Throw e => record_result st (failed file e)
  | Ok content =>
      let fileType := detectFileType file content in
      match fileType with
      | unknown => st
      | _ =>
          if negb (Js.truthy (extractVersion content fileType)) then st
          else
            match updateVersionInContent content newVersion fileType with
            | Throw e => record_result st (failed file e)
            | Ok updatedContent =>
                if dryRun then
                  mkBumpState (files_now st)
                    (updateResults st ++ [succeeded file])%list
                    (logged st ++
                     [("- [dry-run] would update " ++ file)%string])%list
                else
                  match Fs.writeFile (files_now st) file updatedContent with
                  | Throw e => record_result st (failed file e)
                  | Ok fs' =>
                      mkBumpState fs'
                        (updateResults st ++ [succeeded file])%list
                        (logged st)
                  end
            end
      end
  end.

(** What a call of [bumpVersion] leaves: the final state of its loop, and
    whether it returned or threw. *)
Record BumpRun : Type := mkBumpRun {
  final : BumpState;
  outcome : result unit
}.

Definition failure_text (r : UpdateResult) : string :=
  result_file r ++ ": " ++ default "undefined" (error_text r).

(** The check for failures that ends [bumpVersion]. *)
Definition check_failures (results : list UpdateResult) : result unit :=
  let failures := List.filter (fun r => negb (success r)) results in
  if Nat.ltb 0 (List.length failures) then
    Throw (Error ("failed to update version in files: " ++
                  Js.join ", " (map failure_text failures)))
  else Ok tt.

Definition bumpVersion `{Host} (fs : gmap string Fs.node)
    (bumpType : BumpMode) (files : list string) (options : BumpOptions)
    (globs : list string) (bumpSet : option string) : BumpRun :=
  let start := mkBumpState fs [] [] in
  match getCurrentVersion fs with
  | Throw e => mkBumpRun start (Throw e)
  | Ok currentVersion =>
      match calculateNewVersion currentVersion bumpType
              (customVersion options) bumpSet with
      | Throw e => mkBumpRun start (Throw e)
      | Ok newVersion =>
          let filteredFiles :=
            List.filter (fun file => matchesGlobs file globs) files in
          let st :=
            fold_left (bumpFile newVersion (dryRun options)) filteredFiles
                      start in
          mkBumpRun st (check_failures (updateResults st))
      end
  end.

Definition compareVersions (version1 version2 : string)
  : result comparison :=
  Semver.compare version1 version2.

Definition getLatestVersion (versions : list string) : option string :=
  let validVersions := List.filter isValidSemver versions in
  if Nat.eqb (List.length validVersions) 0 then None
  else Semver.maxSatisfying_any validVersions.

End Mod.

(** ** The implementation module of the CLI

    The module whose bump modes are autoPatch, autoMinor and autoMajor. Its
    functions read and write files and emit messages, and may throw: they
    are computations over a [World]. Messages of the verbose level are left
    out. [pMap] runs its tasks five at a time; every task works on the file
    it is given only, and the model runs them one after the other. *)

Module Impl.

Inductive BumpMode : Type := autoPatch | autoMinor | autoMajor.

Record World : Type := mkWorld {
  files : gmap string Fs.node;
  messages : list (string * string)
}.

(** A computation that reads and changes the world and returns or
    throws. *)
Definition M (A : Type) : Type := World -> result A * World.

Definition ret {A} (a : A) : M A := fun w => (Ok a, w).

Definition throw {A} (e : error) : M A := fun w => (Throw e, w).

Definition bind {A B} (m : M A) (k : A -> M B) : M B :=
  fun w =>
    match m w with
    | (Ok a, w') => k a w'
    | (Throw e, w') => (Throw e, w')
    end.

Definition try_catch {A} (m : M A) (handler : error -> M A) : M A :=
  fun w =>
    match m w with
    | (Ok a, w') => (Ok a, w')
    | (Throw e, w') => handler e w'
    end.

Declare Scope impl_scope.
Delimit Scope impl_scope with impl.
Notation "x <- m ;; k" := (bind m (fun x => k))
  (at level 100, m at next level, right associativity) : impl_scope.
Notation "m ;;; k" := (bind m (fun _ => k))
  (at level 100, right associativity) : impl_scope.
Local Open Scope impl_scope.

(** [relinka(level, message)] *)
Definition relinka (level message : string) : M unit :=
  fun w => (Ok tt, mkWorld (files w) (messages w ++ [(level, message)])%list).

Definition pathExists (path : string) : M bool :=
  fun w => (Ok (Fs.pathExists (files w) path), w).

Definition fs_readFile (path : string) : M string :=
  fun w => (Fs.readFile (files w) path, w).

Definition fs_writeFile (path data : string) : M unit :=
  fun w =>
    match Fs.writeFile (files w) path data with
    | Ok fs' => (Ok tt, mkWorld fs' (messages w))
    | Throw e => (Throw e, w)
    end.

(** What the module needs of a regular expression object. *)
Record RegExp : Type := mkRegExp {
  test : string -> bool;
  replace : string -> string -> string
}.

Record VersionPattern : Type := mkVersionPattern {
  id : string;
  pattern : string -> RegExp
}.

(** The packages the module imports and this file does not define: the
    pattern table of @reliverse/bleregex, [glob] of tinyglobby with the
    patterns, the ignore list and the files it looks at, the version
    field that [readPackageJSON] of pkg-types finds, [path.resolve] and
    [path.join] of pathe, and the directory above the module. *)
Class Host : Type := mkHost {
  VERSION_PATTERNS : list VersionPattern;
  glob : list string -> list string -> gmap string Fs.node ->
         result (list string);
  readPackageJSON_version : gmap string Fs.node -> result (option string);
  path_resolve : string -> string;
  path_join : string -> string -> string;
  PROJECT_ROOT : string
}.

Definition IGNORE_PATTERNS : list string :=
  [ "**/node_modules/**"; "**/.git/**"; "**/dist/**"; "**/build/**";
    "**/.next/**"; "**/coverage/**"; "**/.cache/**"; "**/tmp/**";
    "**/.temp/**"; "**/package-lock.json"; "**/pnpm-lock.yaml";
    "**/yarn.lock"; "**/bun.lock" ].

Definition bumpMode_name (b : BumpMode) : string :=
  match b with
  | autoPatch => "autoPatch"
  | autoMinor => "autoMinor"
  | autoMajor => "autoMajor"
  end.

Definition releaseTypeMap (b : BumpMode) : Semver.ReleaseType :=
  match b with
  | autoMajor => Semver.major_release
  | autoMinor => Semver.minor_release
  | autoPatch => Semver.patch_release
  end.

Definition autoIncrementVersion (oldVersion : string) (bumpMode : BumpMode)
  : result string :=
  match Semver.valid oldVersion with
  | None =>
      Throw (Error ("Can't auto-increment invalid version: " ++ oldVersion))
  | Some _ =>
      match Semver.inc oldVersion (releaseTypeMap bumpMode) with
      | None =>
          Throw (Error ("semver.inc failed for " ++ oldVersion ++
                        " and mode " ++ bumpMode_name bumpMode))
      | Some newVer => Ok newVer
      end
  end.

Definition readFileSafe (filePath reason : string) : M string :=
  try_catch (fs_readFile filePath)
    (fun e =>
       relinka "error" ("[example] Failed to read file: " ++ filePath ++
                        " [Reason: " ++ reason ++ "]") ;;;
       throw e).

Definition writeFileSafe (filePath content reason : string) : M unit :=
  try_catch (fs_writeFile filePath content)
    (fun e =>
       relinka "error" ("Failed to write file: " ++ filePath ++
                        " [Reason: " ++ reason ++ "]") ;;;
       throw e).

(** [/\.(json|jsonc|json5)$/.test(filePath)] *)
Definition is_json_path (filePath : string) : bool :=
  Js.endsWith filePath ".json" || Js.endsWith filePath ".jsonc" ||
  Js.endsWith filePath ".json5".

(** One round of the loop over the ts patterns. *)
Definition apply_ts_pattern (oldVersion newVersion : string)
    (acc : string * bool) (p : VersionPattern) : string * bool :=
  let '(updatedContent, changed) := acc in
  let regex := pattern p oldVersion in
  if test regex updatedContent
  then (replace regex updatedContent ("$1" ++ newVersion ++ "$2"), true)
  else (updatedContent, changed).

Definition updateVersionInContent `{Host}
    (filePath content oldVersion newVersion : string) : M bool :=
  let '(updatedContent, changed) :=
    if is_json_path filePath then
      match find (fun p => String.eqb (id p) "json-version")
                 VERSION_PATTERNS with
      | Some jsonPattern =>
          if Js.includes content
               (Js.q "version" ++ ": " ++ Js.q oldVersion)
          then (replace (pattern jsonPattern oldVersion) content
                  (Js.q "version" ++ ": " ++ Js.q newVersion), true)
          else (content, false)
      | None => (content, false)
      end
    else if Js.endsWith filePath ".ts" then
      let tsPatterns :=
        List.filter (fun p => Js.startsWith (id p) "ts-") VERSION_PATTERNS in
      fold_left (apply_ts_pattern oldVersion newVersion) tsPatterns
                (content, false)
    else (content, false) in
  if changed then
    writeFileSafe filePath updatedContent "version update" ;;;
    ret changed
  else ret changed.

(** One round of the loop that turns the filters into glob patterns. *)
Definition add_filter (filePatterns : list string) (filter : string)
  : list string :=
  let trimmed := Js.trim filter in
  if String.eqb trimmed EmptyString then filePatterns
  else if Js.includes trimmed "*" || Js.includes trimmed "?"
  then (filePatterns ++ [trimmed])%list
  else if Js.includes trimmed "/" || Js.includes trimmed "\"
  then (filePatterns ++ [("**/" ++ trimmed)%string])%list
  else if Js.includes trimmed "."
  then (filePatterns ++ [("**/" ++ trimmed)%string])%list
  else (filePatterns ++ [("**/" ++ trimmed ++ ".*")%string])%list.

(** The glob patterns that [bumpVersions] makes of [bumpFilter]. *)
Definition filePatterns (bumpFilter : list string) : list string :=
  if Nat.ltb 0 (List.length bumpFilter)
  then fold_left add_filter bumpFilter []
  else ["**/package.json"].

(** A line of .gitignore as a glob pattern. *)
Definition gitignore_pattern (pattern : string) : string :=
  if Js.startsWith pattern "/" then Js.substring1 pattern
  else if Js.endsWith pattern "/" then "**/" ++ pattern ++ "**"
  else "**/" ++ pattern.

Definition gitignore_patterns (gitignoreContent : string) : list string :=
  map gitignore_pattern
    (List.filter (fun line =>
               negb (String.eqb line EmptyString) &&
               negb (Js.startsWith line "#"))
            (map Js.trim (Js.split (ascii_of_nat 10) gitignoreContent))).

(** The ignore list of [bumpVersions]; a .gitignore that cannot be read
    adds nothing. *)
Definition ignorePatterns `{Host} : M (list string) :=
  let always := ("**/node_modules/**" :: "**/.git/**" :: IGNORE_PATTERNS) in
  try_catch
    (let gitignorePath := path_join PROJECT_ROOT ".gitignore" in
     present <- pathExists gitignorePath ;;
     if present then
       gitignoreContent <- fs_readFile gitignorePath ;;
       ret (always ++ gitignore_patterns gitignoreContent)%list
     else ret always)
    (fun _ => ret always).

(** The task that [bumpVersions] runs on a matched file; [modifiedFiles]
    is threaded through the tasks. *)
Definition bumpFile `{Host} (oldVersion newVersion : string) (dryRun : bool)
    (modifiedFiles : list string) (file : string) : M (list string) :=
  try_catch
    (present <- pathExists file ;;
     if negb present then ret modifiedFiles
     else
       content <- readFileSafe file "bumpVersions" ;;
       modified <- updateVersionInContent file content oldVersion
                     newVersion ;;
       if modified then
         (if negb dryRun then ret tt
          else relinka "log"
                 ("[dry run] Would update version in: " ++ file)) ;;;
         ret (modifiedFiles ++ [file])%list
       else ret modifiedFiles)
    (fun err =>
       relinka "error" ("Error processing file " ++ file ++ ": " ++
                        error_string err) ;;;
       ret modifiedFiles).

Fixpoint bumpFiles `{Host} (oldVersion newVersion : string) (dryRun : bool)
    (modifiedFiles : list string) (matchedFiles : list string)
  : M (list string) :=
  match matchedFiles with
  | [] => ret modifiedFiles
  | file :: rest =>
      modifiedFiles' <- bumpFile oldVersion newVersion dryRun modifiedFiles
                          file ;;
      bumpFiles oldVersion newVersion dryRun modifiedFiles' rest
  end.

Definition summary (oldVersion newVersion : string) (dryRun : bool)
    (modifiedFiles : list string) : M unit :=
  let modifiedCount := List.length modifiedFiles in
  if Nat.ltb 0 modifiedCount then
    relinka "null"
      ((if dryRun then "[dry run] Would update" else "Updated") ++
       " version from " ++ oldVersion ++ " to " ++ newVersion ++ " in " ++
       Semver.of_number (N.of_nat modifiedCount) ++ " file(s):" ++
       String (ascii_of_nat 10) (Js.join (String (ascii_of_nat 10) "")
                                         modifiedFiles))
  else
    relinka "warn"
      (if dryRun
       then "[dry run] No files would be updated with the new version"
       else "No files were updated with the new version").

Definition bumpVersions `{Host} (oldVersion newVersion : string)
    (bumpFilter : list string) (dryRun : bool) : M unit :=
  try_catch
    (ignore <- ignorePatterns ;;
     matchedFiles <-
       (fun w => (glob (filePatterns bumpFilter) ignore (files w), w)) ;;
     modifiedFiles <- bumpFiles oldVersion newVersion dryRun [] matchedFiles ;;
     summary oldVersion newVersion dryRun modifiedFiles)
    (fun e => relinka "error" "Failed to bump versions:" ;;; throw e).

(** The end of [bumpHandler]: the batch runs only for a version that
    changes. *)
Definition bump_if_changed `{Host} (oldVersion incremented : string)
    (bumpFilter : list string) (dryRun : bool) : M unit :=
  if negb (String.eqb oldVersion incremented)
  then bumpVersions oldVersion incremented bumpFilter dryRun
  else relinka "log" ("Version is already at " ++ oldVersion ++
                      ", no bump needed.").

(** [bumpHandler]; its check of the bump mode covers every value of
    [BumpMode]. *)
Definition bumpHandler `{Host} (bumpMode : BumpMode) (bumpDisable : bool)
    (bumpFilter : list string) (dryRun : bool) : M unit :=
  if bumpDisable then
    relinka "log"
      "Skipping version bump because it is either `bumpDisable: true` or `commonPubPause: true` in your dler config."
  else
    present <- pathExists (path_resolve "package.json") ;;
    if negb present then throw (Error "package.json not found")
    else
      version <- (fun w => (readPackageJSON_version (files w), w)) ;;
      if negb (Js.truthy version)
      then throw (Error "No version field found in package.json")
      else
        let oldVersion := default EmptyString version in
        match Semver.valid oldVersion with
        | None =>
            throw (Error ("Invalid existing version in package.json: " ++
                          oldVersion))
        | Some _ =>
            relinka "null"
              ("Auto-incrementing version from " ++ oldVersion ++
               " using " ++ Js.q (bumpMode_name bumpMode) ++
               (if dryRun then " [dry run]" else "")) ;;;
            match autoIncrementVersion oldVersion bumpMode with
            | Throw e => throw e
            | Ok incremented =>
                bump_if_changed oldVersion incremented bumpFilter dryRun
            end
        end.

(** *** The translation of a filter, in the words of the design *)

(** A filter with a wildcard character is used as it is; a filter with a
    path separator or a dot gets the recursive-directory prefix; a bare
    name is a stem that matches any extension. *)
Definition glob_of_filter (filter : string) : string :=
  if Js.includes_char filter "*" || Js.includes_char filter "?"
  then filter
  else if Js.includes_char filter "/" || Js.includes_char filter "\" ||
          Js.includes_char filter "."
  then "**/" ++ filter
  else "**/" ++ filter ++ ".*".

Definition blank (filter : string) : bool :=
  String.eqb (Js.trim filter) EmptyString.

End Impl.

(** ** Notions of the design *)

Module Design.

(** The versions of all the declarations of a source file, left to
    right: the typescript pattern applied again and again to what follows
    the last match. *)
Fixpoint declared_versions_fuel (fuel : nat) (content : string)
  : list string :=
  match fuel with
  | O => []
  | S fuel' =>
      match Regex.exec Regex.typescript_at content with
      | None => []
      | Some (_, m, post) =>
          match Mod.nullish (Mod.group m 1) (Mod.group m 2) with
          | Some v => v :: declared_versions_fuel fuel' post
          | None => declared_versions_fuel fuel' post
          end
      end
  end.

Definition declared_versions (content : string) : list string :=
  declared_versions_fuel (String.length content) content.

(** A character that means nothing to the patterns and to the
    replacements: no quote, no dollar, no equals sign, no comma. *)
Definition plain (c : ascii) : bool :=
  negb (Regex.is_quote c) && negb (Ascii.eqb c "$") &&
  negb (Ascii.eqb c "=") && negb (Ascii.eqb c ",").

(** The best of the versions seen so far, as [maxSatisfying] holds it:
    nothing as long as no version without prerelease tag was seen, then
    one of these that none of them is above. *)
Definition best (seen : list string)
    (acc : option (string * Semver.SemVer)) : Prop :=
  match acc with
  | None => forall v, In v seen -> Semver.satisfies_any v = false
  | Some (max, maxSV) =>
      In max seen /\ Semver.parse max = Some maxSV /\
      Semver.prerelease maxSV = [] /\
      forall v sv, In v seen -> Semver.parse v = Some sv ->
                   Semver.prerelease sv = [] ->
                   Semver.compareMain sv maxSV <> Gt
  end.

(** Two outcomes of the CLI module with the same result and the same
    files; their messages may differ. *)
Definition agree {A} (r1 r2 : result A * Impl.World) : Prop :=
  fst r1 = fst r2 /\ Impl.files (snd r1) = Impl.files (snd r2).

(** Two computations that, started on the same files, end with the same
    result and the same files. *)
Definition similar {A} (m1 m2 : Impl.M A) : Prop :=
  forall w1 w2, Impl.files w1 = Impl.files w2 -> agree (m1 w1) (m2 w2).

(** The bump modes of the two modules for a release type. *)
Definition mod_mode (release : Semver.ReleaseType) : Mod.BumpMode :=
  match release with
  | Semver.major_release => Mod.major
  | Semver.minor_release => Mod.minor
  | Semver.patch_release => Mod.patch
  end.

Definition impl_mode (release : Semver.ReleaseType) : Impl.BumpMode :=
  match release with
  | Semver.major_release => Impl.autoMajor
  | Semver.minor_release => Impl.autoMinor
  | Semver.patch_release => Impl.autoPatch
  end.

(** The three numbers of a version after an increment that changes the
    component of the release type and resets the components below it. *)
Definition incremented (a : Semver.SemVer) (release : Semver.ReleaseType)
  : N * N * N :=
  match release with
  | Semver.major_release => (Semver.major a + 1, 0, 0)
  | Semver.minor_release => (Semver.major a, Semver.minor a + 1, 0)
  | Semver.patch_release =>
      (Semver.major a, Semver.minor a, Semver.patch a + 1)
  end%N.

Definition numbers (a : Semver.SemVer) : N * N * N :=
  (Semver.major a, Semver.minor a, Semver.patch a).

(** The component that a release type names. *)
Definition component (a : Semver.SemVer) (release : Semver.ReleaseType)
  : N :=
  match release with
  | Semver.major_release => Semver.major a
  | Semver.minor_release => Semver.minor a
  | Semver.patch_release => Semver.patch a
  end.

(** Whether the components below the one of the release type are all
    zero. *)
Definition lower_zero (a : Semver.SemVer) (release : Semver.ReleaseType)
  : bool :=
  match release with
  | Semver.major_release => (Semver.minor a =? 0)%N && (Semver.patch a =? 0)%N
  | Semver.minor_release => (Semver.patch a =? 0)%N
  | Semver.patch_release => true
  end.

(** Whether an increment raises the component of the release type: it
    does, unless the version has a prerelease tag and nothing but zeros
    below that component, when it is the prerelease of the very release
    that the increment is to give. *)
Definition raises (a : Semver.SemVer) (release : Semver.ReleaseType)
  : bool :=
  match Semver.prerelease a with
  | [] => true
  | _ :: _ => negb (lower_zero a release)
  end.

(** The three numbers after an increment. *)
Definition after (a : Semver.SemVer) (release : Semver.ReleaseType)
  : N * N * N :=
  if raises a release then incremented a release else numbers a.

End Design.

(** ** Concrete hosts and file systems

    Stand-ins for the built-ins and packages, for running the functions on
    the examples below, and the files of these examples. *)

Module Scenario.

Definition LF : string := String (ascii_of_nat 10) EmptyString.

(** A stand-in for [JSON.parse(content)[field]] on a text whose only
    version member is at its top level. *)
Definition JSON_parse_field (content field : string)
  : result Mod.json_value :=
  if String.eqb field "version" then
    match Regex.exec Regex.packageJson_at content with
    | Some (_, m, _) =>
        match Mod.group m 1 with
        | Some v => Ok (Mod.json_string v)
        | None => Ok Mod.json_other
        end
    | None => Ok Mod.json_other
    end
  else Ok Mod.json_other.

Definition mod_host : Mod.Host :=
  Mod.mkHost JSON_parse_field (fun _ _ => false).

(** The first occurrence of [x] in [s] replaced by [rep]. *)
Fixpoint replace_first (x rep s : string) : string :=
  match Regex.lit x s with
  | Some r => rep ++ r
  | None =>
      match s with
      | EmptyString => EmptyString
      | String c r => String c (replace_first x rep r)
      end
  end.

(** A stand-in for the json-version pattern of the pattern table: the
    version member with one space after the colon, as a literal. *)
Definition json_version : Impl.VersionPattern :=
  Impl.mkVersionPattern "json-version"
    (fun v =>
       let x := Js.q "version" ++ ": " ++ Js.q v in
       Impl.mkRegExp (fun s => Js.includes s x)
                     (fun s template => replace_first x template s)).

Definition project_package_json : string := "/project/package.json".

(** A stand-in for the packages: [glob] finds the manifest of the
    project, whatever the patterns. *)
Definition impl_host : Impl.Host :=
  Impl.mkHost [json_version]
    (fun _ _ _ => Ok [project_package_json])
    (fun fs =>
       match Fs.readFile fs project_package_json with
       | Ok content =>
           match Regex.exec Regex.packageJson_at content with
           | Some (_, m, _) => Ok (Mod.group m 1)
           | None => Ok None
           end
       | Throw e => Throw e
       end)
    (fun p => "/project/" ++ p)
    (fun a b => a ++ "/" ++ b)
    "/project".

Definition manifest (version : string) : string :=
  "{ " ++ Js.q "name" ++ ": " ++ Js.q "demo" ++ ", " ++
  Js.q "version" ++ ": " ++ Js.q version ++ " }".

(** A manifest without a space after the colon. *)
Definition tight_manifest (version : string) : string :=
  "{" ++ Js.q "version" ++ ":" ++ Js.q version ++ "}".

Definition EACCES (path : string) : error :=
  Error ("EACCES: permission denied, open '" ++ path ++ "'").

(** The project of the CLI examples: a manifest at 1.2.3. *)
Definition project : gmap string Fs.node :=
  {[ project_package_json := Fs.file (manifest "1.2.3") ]}.


Definition start (fs : gmap string Fs.node) : Impl.World :=
  Impl.mkWorld fs [].

(** A source file with two declarations of the version. *)
Definition two_declarations (v : string) : string :=
  "export const version = " ++ Js.q v ++ ";" ++ LF ++
  "export default { name: 'demo', version: " ++ Js.q v ++ " };".

(** The files of the library examples: a manifest, a source file that
    cannot be written, and a source file. *)
Definition library_files : gmap string Fs.node :=
  {[ "package.json" := Fs.file (manifest "1.2.3");
     "src/locked.ts" :=
       Fs.mkNode "export const version = '1.2.3';" None
                 (Some (EACCES "src/locked.ts"));
     "src/info.ts" := Fs.file "export const version = '1.2.3';" ]}.

(** The files that a bump to 2.0.0 has left. *)
Definition bumped_files : gmap string Fs.node :=
  {[ "package.json" := Fs.file (manifest "2.0.0");
     "src/info.ts" := Fs.file "export const version= '2.0.0';" ]}.

Definition tight_files : gmap string Fs.node :=
  {[ "package.json" := Fs.file (tight_manifest "1.0.0") ]}.

(** A manifest whose version is not a semantic version. *)
Definition odd_files : gmap string Fs.node :=
  {[ "package.json" := Fs.file (manifest "abc") ]}.

End Scenario.

(** ** The library module: validation, analysis and sessions

    The functions of the library module that validate a configuration and
    drive [bumpVersion] from an analysis of the files. *)

Module Session.
Import Mod.

(** [parseSemver(version)] *)
Definition parseSemver (version : string) : result (N * N * N) :=
  match Semver.parse version with
  | None => Throw (Error ("invalid semver: " ++ version))
  | Some parsed =>
      Ok (Semver.major parsed, Semver.minor parsed, Semver.patch parsed)
  end.

(** [validateBumpConfig]; its first check, that the bump type is one of
    the five, holds for every value of [BumpMode]. *)
Definition validateBumpConfig (bumpType : BumpMode)
    (customVersion : option string) : result unit :=
  if (match bumpType with manual => true | _ => false end) &&
     negb (Js.truthy customVersion)
  then Throw (Error "customVersion is required when using manual bump type")
  else if Js.truthy customVersion &&
          negb (isValidSemver (default EmptyString customVersion))
  then Throw (Error ("Invalid custom version: " ++
                     default EmptyString customVersion))
  else Ok tt.

(** [bumpVersionWithAnalysis]: only the files that the analysis supports
    are given to [bumpVersion]. *)
Definition bumpVersionWithAnalysis `{Host} (fs : gmap string Fs.node)
    (bumpType : BumpMode) (files : list string) (options : BumpOptions)
    (bumpSet : option string) : BumpRun :=
  match getCurrentVersion fs with
  | Throw e => mkBumpRun (mkBumpState fs [] []) (Throw e)
  | Ok currentVersion =>
      let analysis := analyzeFiles fs files currentVersion in
      let supportedFiles := map file (List.filter supported analysis) in
      bumpVersion fs bumpType supportedFiles options [] bumpSet
  end.

Record SessionConfig : Type := mkSessionConfig {
  isCI : bool;
  isNonInteractive : bool;
  mainFile : string;
  filesToBump : list string;
  options : BumpOptions;
  bumpType : BumpMode
}.

Definition handleNonInteractiveSession `{Host} (fs : gmap string Fs.node)
    (config : SessionConfig) : BumpRun :=
  match validateBumpConfig (bumpType config)
          (customVersion (options config)) with
  | Throw e => mkBumpRun (mkBumpState fs [] []) (Throw e)
  | Ok _ =>
      let run :=
        bumpVersionWithAnalysis fs (bumpType config) (filesToBump config)
                                (options config) None in
      match outcome run with
      | Ok _ => run
      | Throw error =>
          mkBumpRun (final run)
            (Throw (Error ("Failed to bump version: " ++
                           error_string error)))
      end
  end.

(** What [handleInteractiveSession] returns. *)
Record InteractiveAnalysis : Type := mkInteractiveAnalysis {
  supportedFiles : list FileAnalysis;
  mismatchedFiles : list FileAnalysis;
  fileAnalysis : list FileAnalysis
}.

(** [handleInteractiveSession]: its result, and the messages it emits. *)
Definition handleInteractiveSession (fs : gmap string Fs.node)
    (config : SessionConfig) (projectVersion : string)
  : result InteractiveAnalysis * list (string * string) :=
  let fileAnalysis := analyzeFiles fs (filesToBump config) projectVersion in
  let supportedFiles := List.filter supported fileAnalysis in
  let unsupportedFiles :=
    List.filter (fun r => negb (supported r)) fileAnalysis in
  let mismatchedFiles := List.filter versionMismatch fileAnalysis in
  if Nat.eqb (List.length supportedFiles) 0 then
    let reasons :=
      Js.join (String (ascii_of_nat 10) "")
        (map (fun f => file f ++ ": " ++ reason f) unsupportedFiles) in
    (Throw (Error ("No files can be bumped. Analysis results:" ++
                   String (ascii_of_nat 10) reasons)), [])
  else if Nat.ltb 0 (List.length mismatchedFiles) then
    let mismatches :=
      Js.join (String (ascii_of_nat 10) "")
        (map (fun f => file f ++ ": found version " ++
                       default "null" (detectedVersion f) ++
                       " (expected " ++ projectVersion ++ ")")
             mismatchedFiles) in
    (Throw (Error "Please fix the version mismatches before continuing"),
     [("warn", "Some files have mismatched versions:");
      ("info", mismatches)])
  else (Ok (mkInteractiveAnalysis supportedFiles mismatchedFiles
                                  fileAnalysis), []).

End Session.

(** ** The library module: the configuration file

    The functions of the library module that read and rewrite reliverse.ts
    with regular expressions. [node:fs] takes a relative path from the
    working directory: in this part the file system is keyed by resolved
    paths, and every access resolves the path it is given. The messages of
    these functions are all of the verbose level. *)

Module Config.
Import Regex.

(** What the functions need of [node:path] and of the process:
    [process.cwd()] when the module is loaded, [join], and the file that
    a path names for [node:fs]. *)
Class Host : Type := mkHost {
  PROJECT_ROOT : string;
  join : string -> string -> string;
  resolve : string -> string
}.

(** name\s*[:=]\s*[<dq>']([^<dq>']+)[<dq>'] at the start of [s], for a
    name of letters: the pattern of bumpMode and of bumpSet. *)
Definition quoted_at (name : string) (s : string)
  : option (matched * string) :=
  match lit name s with
  | None => None
  | Some s1 =>
      let '(w1, s2) := Js.span Js.is_space s1 in
      match one is_operator s2 with
      | None => None
      | Some (o, s3) =>
          let '(w2, s4) := Js.span Js.is_space s3 in
          match one is_quote s4 with
          | None => None
          | Some (q1, s5) =>
              let '(g, s6) := Js.span not_quote s5 in
              match g, one is_quote s6 with
              | String _ _, Some (q2, s7) =>
                  Some (mkMatched
                          (name ++ w1 ++ char o ++ w2 ++ char q1 ++ g ++
                           char q2) [Some g], s7)
              | _, _ => None
              end
          end
      end
  end.

(** /bumpDisable\s*[:=]\s*(true|false)/ at the start of [s]. *)
Definition bumpDisable_at (s : string) : option (matched * string) :=
  match lit "bumpDisable" s with
  | None => None
  | Some s1 =>
      let '(w1, s2) := Js.span Js.is_space s1 in
      match one is_operator s2 with
      | None => None
      | Some (o, s3) =>
          let '(w2, s4) := Js.span Js.is_space s3 in
          let head := "bumpDisable" ++ w1 ++ char o ++ w2 in
          match lit "true" s4 with
          | Some r => Some (mkMatched (head ++ "true") [Some "true"], r)
          | None =>
              match lit "false" s4 with
              | Some r =>
                  Some (mkMatched (head ++ "false") [Some "false"], r)
              | None => None
              end
          end
      end
  end.

(** /bumpFilter\s*[:=]\s*\[([\s\S]*?)\]/ at the start of [s]: the group
    ends before the first closing bracket. *)
Definition bumpFilter_at (s : string) : option (matched * string) :=
  match lit "bumpFilter" s with
  | None => None
  | Some s1 =>
      let '(w1, s2) := Js.span Js.is_space s1 in
      match one is_operator s2 with
      | None => None
      | Some (o, s3) =>
          let '(w2, s4) := Js.span Js.is_space s3 in
          match lit "[" s4 with
          | None => None
          | Some s5 =>
              match Js.cut "]" s5 with
              | (g, Some r) =>
                  Some (mkMatched
                          ("bumpFilter" ++ w1 ++ char o ++ w2 ++ "[" ++ g ++
                           "]") [Some g], r)
              | (_, None) => None
              end
          end
      end
  end.

(** The characters that end the value of a setting: [,}\]] *)
Definition is_stop (c : ascii) : bool :=
  Ascii.eqb c "," || Ascii.eqb c "}" || Ascii.eqb c "]".

Definition not_stop (c : ascii) : bool := negb (is_stop c).

(** key\s*[:=]\s*([^,}\]]+) at the start of [s], for a key of letters:
    the pattern that [updateDlerConfig] makes of its key. When nothing
    but spaces comes before the end of the value, the spaces give their
    last character to the group. *)
Definition setting_at (key : string) (s : string)
  : option (matched * string) :=
  match lit key s with
  | None => None
  | Some s1 =>
      let '(w1, s2) := Js.span Js.is_space s1 in
      match one is_operator s2 with
      | None => None
      | Some (o, s3) =>
          let '(w2, s4) := Js.span Js.is_space s3 in
          let '(g, s5) := Js.span not_stop s4 in
          match g with
          | String _ _ =>
              Some (mkMatched (key ++ w1 ++ char o ++ w2 ++ g) [Some g], s5)
          | EmptyString =>
              match Js.rev w2 with
              | String c _ =>
                  Some (mkMatched (key ++ w1 ++ char o ++ w2)
                                  [Some (char c)], s4)
              | EmptyString => None
              end
          end
      end
  end.

(** The first group of a match, when there is a match. *)
Definition first_group (m : option (string * matched * string))
  : option string :=
  match m with
  | Some (_, found, _) =>
      match capture found 1 with
      | Some g => g
      | None => None
      end
  | None => None
  end.

(** [f.replace(/[<dq>']/g, <dq><dq>)]: [f] without its quotes. *)
Fixpoint remove_quotes (f : string) : string :=
  match f with
  | EmptyString => EmptyString
  | String c r =>
      if is_quote c then remove_quotes r else String c (remove_quotes r)
  end.

(** What [getConfigFromDler] returns. *)
Record ConfigFromDler : Type := mkConfigFromDler {
  files : list string;
  bumpDisable : option bool;
  bumpMode : option string;
  bumpSet : option string
}.

Definition default_files : list string := ["package.json"; "reliverse.ts"].

(** The files that are listed between the brackets of bumpFilter. *)
Definition listed_files (text : string) : list string :=
  List.filter (fun f => negb (String.eqb f EmptyString))
    (map (fun f => remove_quotes (Js.trim f)) (Js.split "," text)).

(** [getConfigFromDler]: the defaults when reliverse.ts cannot be
    accessed or read. *)
Definition getConfigFromDler `{Host} (fs : gmap string Fs.node)
  : ConfigFromDler :=
  let fallback := mkConfigFromDler default_files None None None in
  if negb (Fs.pathExists fs (resolve "reliverse.ts")) then fallback
  else
    match Fs.readFile fs (resolve "reliverse.ts") with
    | Throw _ => fallback
    | Ok content =>
        let filesMatch := first_group (exec bumpFilter_at content) in
        let bumpDisableMatch := first_group (exec bumpDisable_at content) in
        let bumpModeMatch :=
          first_group (exec (quoted_at "bumpMode") content) in
        let bumpSetMatch :=
          first_group (exec (quoted_at "bumpSet") content) in
        mkConfigFromDler
          (if Js.truthy filesMatch
           then listed_files (default EmptyString filesMatch)
           else default_files)
          (option_map (fun v => String.eqb v "true") bumpDisableMatch)
          bumpModeMatch
          bumpSetMatch
    end.

Definition getFilesFromConfigOrDefault `{Host} (fs : gmap string Fs.node)
  : list string :=
  files (getConfigFromDler fs).

Definition fileExists `{Host} (fs : gmap string Fs.node) (filePath : string)
  : bool :=
  Fs.pathExists fs (resolve filePath).

(** The values that [updateDlerConfig] writes. *)
Inductive ConfigValue : Type :=
| value_string (s : string)
| value_boolean (b : bool)
| value_array (l : list string).

Definition formattedValue (value : ConfigValue) : string :=
  match value with
  | value_array l => "[" ++ Js.join ", " (map Js.q l) ++ "]"
  | value_string s => Js.q s
  | value_boolean b => if b then "true" else "false"
  end.

(** [updateDlerConfig(key, value)] for a key of letters: the file system
    it leaves. It never throws: a file that is not there, or that cannot
    be read or written, is left as it is. *)
Definition updateDlerConfig `{Host} (fs : gmap string Fs.node)
    (key : string) (value : ConfigValue) : gmap string Fs.node :=
  let dlerCfgPath := join PROJECT_ROOT "reliverse.ts" in
  if negb (fileExists fs dlerCfgPath) then fs
  else
    match Fs.readFile fs (resolve dlerCfgPath) with
    | Throw _ => fs
    | Ok content =>
        let updatedContent :=
          replace_template (setting_at key) content
            (key ++ ": " ++ formattedValue value) in
        match Fs.writeFile fs (resolve dlerCfgPath) updatedContent with
        | Ok fs' => fs'
        | Throw _ => fs
        end
    end.

Definition setBumpDisabledValueTo `{Host} (fs : gmap string Fs.node)
    (value : bool) : gmap string Fs.node :=
  updateDlerConfig fs "bumpDisable" (value_boolean value).

Definition isBumpDisabled `{Host} (fs : gmap string Fs.node) : bool :=
  default false (bumpDisable (getConfigFromDler fs)).

(** A name that the list of bumpFilter holds as it is: not empty,
    without quotes, commas and closing brackets. *)
Definition listable (name : string) : bool :=
  negb (String.eqb name EmptyString) &&
  negb (Js.has (fun c => is_quote c || Ascii.eqb c "," || Ascii.eqb c "]")
               name).

End Config.

(** ** The command line

    The part of [run] in cli.ts that makes the list of files that
    [bumpHandler] is called with. *)

Module Cli.

(** What [args.filesToBump] holds: nothing, a string or an array. *)
Inductive Positional : Type :=
| absent
| single (f : string)
| several (l : list string).

(** [effectiveFilesToBump], once the default files have replaced an
    empty list; [defaults] is what [getDefaultFilesToBump] returns. *)
Definition effectiveFilesToBump (filesToBump : Positional)
    (defaults : list string) : list string :=
  let given :=
    match filesToBump with
    | several l => l
    | single f => if Js.truthy (Some f) then [f] else []
    | absent => []
    end in
  if Nat.eqb (List.length given) 0 then defaults else given.

(** [filesToBumpArr]: the list, sanitized. *)
Definition filesToBumpArr (effective : list string) : list string :=
  List.filter (fun f => negb (String.eqb f EmptyString))
              (map Js.trim effective).

End Cli.

(** ** Concrete hosts and files for the configuration file *)

Module Cases.

(** A stand-in for [node:path] and the process, in the directory
    /project. *)
Definition config_host : Config.Host :=
  Config.mkHost "/project"
    (fun a b => a ++ "/" ++ b)
    (fun p => if Js.startsWith p "/" then p else "/project/" ++ p).

(** A reliverse.ts with a flag and a list of two files. *)
Definition reliverse (flag : string) : string :=
  "export default { bumpDisable: " ++ flag ++ ", bumpFilter: [" ++
  Js.q "package.json" ++ ", " ++ Js.q "src/info.ts" ++ "] };".

Definition configured : gmap string Fs.node :=
  {[ "/project/reliverse.ts" := Fs.file (reliverse "false") ]}.

End Cases.

(** ** The globs of the library module, token by token *)

Module Glob.

(** The replacements of the stars in [globToRegex], and all its
    replacements after the escaping. *)
Definition starred (s : string) : string :=
  Regex.replace_all "*" "[^/]*" (Regex.replace_all "**" "DOUBLESTAR" s).

Definition replaced (s : string) : string :=
  Regex.replace_all "?" "[^/]"
    (Regex.replace_all "DOUBLESTAR" ".*" (starred s)).

(** [escaped] in [globToRegex]: the pattern after its five
    replacements. *)
Definition escaped (pattern : string) : string :=
  replaced (Mod.escape_regex_chars pattern).

(** A glob read from the left, token by token: two stars match any text,
    one star and a question mark match within a path segment, a character
    that is special in a regular expression is escaped, any other
    character stands for itself. *)
Fixpoint translate (pattern : string) : string :=
  match pattern with
  | EmptyString => EmptyString
  | String c r =>
      if Ascii.eqb c "*" then
        match r with
        | String c2 r2 =>
            if Ascii.eqb c2 "*" then ".*" ++ translate r2
            else "[^/]*" ++ translate r
        | EmptyString => "[^/]*"
        end
      else if Ascii.eqb c "?" then "[^/]" ++ translate r
      else if Mod.regex_char c then String "\" (String c (translate r))
      else String c (translate r)
  end.

End Glob.

(** * Properties *)

(** ** Strings *)

Module JsFacts.
Import Js.

Lemma app_nil_r (s : string) : s ++ "" = s.
Proof. induction s as [|c s IH]; simpl; [reflexivity | now rewrite IH]. Qed.

Lemma app_assoc (a b c : string) : (a ++ b) ++ c = a ++ b ++ c.
Proof. induction a as [|x a IH]; simpl; [reflexivity | now rewrite IH]. Qed.

Lemma app_length (a b : string) :
  String.length (a ++ b) = (String.length a + String.length b)%nat.
Proof. induction a as [|x a IH]; simpl; [reflexivity | now rewrite IH]. Qed.

Lemma app_inv_head (a b c : string) : a ++ b = a ++ c -> b = c.
Proof.
  induction a as [|x a IH]; simpl; intros H; [exact H|].
  injection H as H. now apply IH.
Qed.

Lemma app_eq_nil (a b : string) : a ++ b = "" -> a = "" /\ b = "".
Proof. destruct a; simpl; [now split | discriminate]. Qed.

Lemma all_app (p : ascii -> bool) (a b : string) :
  all p (a ++ b) = all p a && all p b.
Proof.
  induction a as [|x a IH]; simpl; [reflexivity|].
  rewrite IH. now rewrite andb_assoc.
Qed.

Lemma has_app (p : ascii -> bool) (a b : string) :
  has p (a ++ b) = has p a || has p b.
Proof.
  induction a as [|x a IH]; simpl; [reflexivity|].
  rewrite IH. now rewrite orb_assoc.
Qed.

Lemma all_impl (p r : ascii -> bool) (s : string) :
  (forall c, p c = true -> r c = true) -> all p s = true -> all r s = true.
Proof.
  intros Hpr. induction s as [|c s IH]; simpl; [reflexivity|].
  rewrite !andb_true_iff. intros [Hc Hs]. split; auto.
Qed.

Lemma has_false_all (p : ascii -> bool) (s : string) :
  has p s = false <-> all (fun c => negb (p c)) s = true.
Proof.
  induction s as [|c s IH]; simpl; [tauto|].
  rewrite orb_false_iff, andb_true_iff, negb_true_iff. tauto.
Qed.

Lemma span_spec (p : ascii -> bool) (s a b : string) :
  span p s = (a, b) -> s = a ++ b /\ all p a = true /\ stops p b.
Proof.
  revert a b. induction s as [|c s IH]; simpl; intros a b H.
  - injection H as <- <-. simpl. auto.
  - destruct (p c) eqn:Hc.
    + destruct (span p s) as [a' b'] eqn:Hs.
      injection H as <- <-.
      destruct (IH a' b' eq_refl) as (-> & Ha & Hb).
      simpl. rewrite Hc, Ha. auto.
    + injection H as <- <-. simpl. auto.
Qed.

Lemma span_stop (p : ascii -> bool) (a b : string) :
  all p a = true -> stops p b -> span p (a ++ b) = (a, b).
Proof.
  induction a as [|c a IH]; simpl; intros Ha Hb.
  - destruct b as [|c b]; simpl in *; [reflexivity | now rewrite Hb].
  - apply andb_true_iff in Ha as [Hc Ha]. rewrite Hc.
    now rewrite (IH Ha Hb).
Qed.

(** The span of a concatenation, from the span of its first part. *)
Lemma span_app (p : ascii -> bool) (a t : string) :
  span p (a ++ t) =
  match span p a with
  | (x, EmptyString) => let '(x', y') := span p t in (x ++ x', y')
  | (x, y) => (x, y ++ t)
  end.
Proof.
  induction a as [|c a IH]; simpl.
  - destruct (span p t); reflexivity.
  - destruct (p c) eqn:Hc; [|reflexivity].
    rewrite IH. destruct (span p a) as [x [|d y]].
    + destruct (span p t); reflexivity.
    + reflexivity.
Qed.

Lemma stops_cons (p : ascii -> bool) (c : ascii) (s : string) :
  p c = false -> stops p (String c s).
Proof. intros H. exact H. Qed.

Lemma rev_acc_app (s acc : string) : rev_acc s acc = rev s ++ acc.
Proof.
  unfold rev. revert acc.
  induction s as [|c s IH]; simpl; intros acc; [reflexivity|].
  rewrite (IH (String c acc)), (IH (String c "")).
  now rewrite app_assoc.
Qed.

Lemma rev_cons (c : ascii) (s : string) :
  rev (String c s) = rev s ++ String c "".
Proof. unfold rev at 1. simpl. apply rev_acc_app. Qed.

Lemma rev_app (a b : string) : rev (a ++ b) = rev b ++ rev a.
Proof.
  induction a as [|c a IH]; simpl.
  - now rewrite app_nil_r.
  - now rewrite !rev_cons, IH, app_assoc.
Qed.

Lemma rev_involutive (s : string) : rev (rev s) = s.
Proof.
  induction s as [|c s IH]; [reflexivity|].
  now rewrite rev_cons, rev_app, IH.
Qed.

Lemma all_rev (p : ascii -> bool) (s : string) : all p (rev s) = all p s.
Proof.
  induction s as [|c s IH]; [reflexivity|].
  rewrite rev_cons, all_app, IH. simpl.
  rewrite andb_true_r. apply andb_comm.
Qed.

Lemma startsWith_app (p r : string) : startsWith (p ++ r) p = true.
Proof.
  induction p as [|c p IH]; simpl; [reflexivity|].
  now rewrite Ascii.eqb_refl.
Qed.

Lemma startsWith_inv (s p : string) :
  startsWith s p = true -> exists r, s = p ++ r.
Proof.
  revert s. induction p as [|c p IH]; intros s H.
  - now exists s.
  - destruct s as [|d s]; simpl in H; [discriminate|].
    apply andb_true_iff in H as [Hc Hs].
    apply Ascii.eqb_eq in Hc as ->.
    destruct (IH s Hs) as [r ->]. now exists r.
Qed.

Lemma endsWith_app (a p : string) : endsWith (a ++ p) p = true.
Proof. unfold endsWith. rewrite rev_app. apply startsWith_app. Qed.

(** Searching a one-character string is searching the character. *)
Lemma includes_one (s : string) (c : ascii) :
  includes s (String c "") = includes_char s c.
Proof.
  unfold includes_char.
  induction s as [|d s IH]; simpl; [reflexivity|].
  rewrite IH. now rewrite andb_true_r.
Qed.

(** What [trimStart] removes is white space. *)
Lemma trimStart_spec (s : string) :
  exists w, s = w ++ trimStart s /\ all is_space w = true.
Proof.
  unfold trimStart. destruct (span is_space s) as [w r] eqn:H.
  apply span_spec in H as (-> & Hw & _). now exists w.
Qed.

Lemma trimEnd_spec (s : string) :
  exists w, s = trimEnd s ++ w /\ all is_space w = true.
Proof.
  unfold trimEnd. destruct (trimStart_spec (rev s)) as (w & Hs & Hw).
  exists (rev w). split; [|now rewrite all_rev].
  rewrite <- rev_app, <- Hs. now rewrite rev_involutive.
Qed.

Lemma trim_spec (s : string) :
  exists w1 w2,
    s = w1 ++ trim s ++ w2 /\
    all is_space w1 = true /\ all is_space w2 = true.
Proof.
  unfold trim. destruct (trimStart_spec s) as (w1 & Hs & H1).
  destruct (trimEnd_spec (trimStart s)) as (w2 & Ht & H2).
  exists w1, w2. repeat split; auto. now rewrite <- Ht.
Qed.

Lemma cut_spec (c : ascii) (s h : string) (t : option string) :
  cut c s = (h, t) ->
  has (Ascii.eqb c) h = false /\
  s = h ++ match t with Some r => String c r | None => "" end.
Proof.
  revert h t. induction s as [|a s IH]; simpl; intros h t H.
  - injection H as <- <-. auto.
  - destruct (Ascii.eqb a c) eqn:Hac.
    + injection H as <- <-. apply Ascii.eqb_eq in Hac as ->. auto.
    + destruct (cut c s) as [h' t'] eqn:Hs. injection H as <- <-.
      destruct (IH h' t' eq_refl) as [Hh ->]. simpl.
      rewrite Ascii.eqb_sym, Hac. auto.
Qed.

Lemma cut_stop (c : ascii) (h : string) :
  has (Ascii.eqb c) h = false -> cut c h = (h, None).
Proof.
  induction h as [|a h IH]; simpl; [reflexivity|].
  rewrite orb_false_iff. intros [Ha Hh].
  rewrite Ascii.eqb_sym, Ha. now rewrite (IH Hh).
Qed.

Lemma split_nonempty (c : ascii) (s : string) : split c s <> [].
Proof.
  destruct s as [|a s]; simpl; [discriminate|].
  destruct (Ascii.eqb a c); [discriminate|].
  destruct (split c s); discriminate.
Qed.

(** The pieces of a split hold every character but the separator. *)
Lemma all_split (p : ascii -> bool) (c : ascii) (s : string) :
  p c = true -> forallb (all p) (split c s) = true -> all p s = true.
Proof.
  intros Hc. induction s as [|a s IH]; simpl; [reflexivity|].
  destruct (Ascii.eqb a c) eqn:Hac.
  - apply Ascii.eqb_eq in Hac as ->. simpl. rewrite Hc. exact IH.
  - destruct (split c s) as [|h t] eqn:Hs.
    + now destruct (split_nonempty c s).
    + simpl in *. rewrite !andb_true_iff. intros [[Ha Hh] Ht].
      split; [exact Ha|]. apply IH. now rewrite Hh, Ht.
Qed.

Lemma split_stop (c : ascii) (s : string) :
  has (Ascii.eqb c) s = false -> split c s = [s].
Proof.
  induction s as [|a s IH]; simpl; [reflexivity|].
  rewrite orb_false_iff. intros [Ha Hs].
  rewrite Ascii.eqb_sym, Ha. now rewrite (IH Hs).
Qed.

Lemma split_app (c : ascii) (a b : string) :
  has (Ascii.eqb c) a = false ->
  split c (a ++ String c b) = a :: split c b.
Proof.
  induction a as [|x a IH]; simpl.
  - now rewrite Ascii.eqb_refl.
  - rewrite orb_false_iff. intros [Hx Ha].
    rewrite Ascii.eqb_sym, Hx. now rewrite (IH Ha).
Qed.

End JsFacts.

(** ** The semver package *)

Module SemverFacts.
Import Js JsFacts Semver.

(** *** Numbers and their digits *)

Lemma digits_of_uint (d : Decimal.uint) :
  all is_digit (NilEmpty.string_of_uint d) = true.
Proof. induction d; simpl; auto. Qed.

Lemma length_of_uint (d : Decimal.uint) :
  String.length (NilEmpty.string_of_uint d) = Decimal.nb_digits d.
Proof. induction d; simpl; auto. Qed.

Lemma to_uint_normal (n : N) : Decimal.unorm (N.to_uint n) = N.to_uint n.
Proof.
  rewrite <- (DecimalN.Unsigned.of_to n) at 2.
  now rewrite DecimalN.Unsigned.to_of.
Qed.

Lemma normal_D0 (l : Decimal.uint) :
  Decimal.unorm (Decimal.D0 l) = Decimal.D0 l -> l = Decimal.Nil.
Proof.
  rewrite unorm_D0. intros H.
  destruct (Decimal.uint_eq_dec l Decimal.Nil) as [E|E]; [exact E|].
  pose proof (nb_digits_unorm l E) as Hle.
  rewrite H in Hle. simpl in Hle. lia.
Qed.

Lemma normal_nonnil (d : Decimal.uint) :
  Decimal.unorm d = d -> d <> Decimal.Nil.
Proof. intros H. rewrite <- H. apply unorm_nonnil. Qed.

Lemma of_number_digits (n : N) : all is_digit (of_number n) = true.
Proof. apply digits_of_uint. Qed.

Lemma to_number_of_number (n : N) : to_number (of_number n) = n.
Proof.
  unfold to_number, of_number. rewrite NilEmpty.usu.
  apply DecimalN.Unsigned.of_to.
Qed.

Lemma of_number_inj (n m : N) : of_number n = of_number m -> n = m.
Proof.
  intros H. rewrite <- (to_number_of_number n), H.
  apply to_number_of_number.
Qed.

(** A printed number is "0" or starts with a digit that is not 0. *)
Lemma of_number_numeric (n : N) : numeric_identifier (of_number n) = true.
Proof.
  unfold of_number. pose proof (to_uint_normal n) as Hn.
  pose proof (normal_nonnil _ Hn) as Hnil.
  destruct (N.to_uint n) as [|l|l|l|l|l|l|l|l|l|l];
    try congruence; simpl; rewrite digits_of_uint; try reflexivity.
  rewrite (normal_D0 l Hn). reflexivity.
Qed.

Lemma of_number_cons (n : N) :
  exists c r, of_number n = String c r /\ is_digit c = true.
Proof.
  pose proof (of_number_numeric n) as H.
  destruct (of_number n) as [|c r]; simpl in H; [discriminate|].
  exists c, r. split; [reflexivity|].
  now apply andb_true_iff in H as [H%andb_true_iff _].
Qed.

Lemma usize_nb_digits (d : Decimal.uint) :
  DecimalPos.Unsigned.usize d = N.of_nat (Decimal.nb_digits d).
Proof. induction d; simpl; rewrite ?IHd; lia. Qed.

Lemma of_uint_acc_lower (l : Decimal.uint) (k : positive) :
  (10 ^ N.of_nat (Decimal.nb_digits l) <= N.pos (Pos.of_uint_acc l k))%N.
Proof.
  rewrite DecimalPos.Unsigned.of_uint_acc_rev, usize_nb_digits.
  assert (1 <= N.pos k)%N by lia. nia.
Qed.

(** A number below 10^16 prints in at most sixteen characters. *)
Lemma of_number_length (n : N) :
  (n < 10 ^ 16)%N -> (String.length (of_number n) <= 16)%nat.
Proof.
  intros Hn. unfold of_number. rewrite length_of_uint.
  pose proof (to_uint_normal n) as Hnorm.
  pose proof (DecimalN.Unsigned.of_to n) as Hof.
  assert (Hpow : forall l k,
             N.of_uint (N.to_uint n) = N.pos (Pos.of_uint_acc l k) ->
             (Decimal.nb_digits l < 16)%nat).
  { intros l k E. rewrite Hof in E.
    pose proof (of_uint_acc_lower l k) as Hl. rewrite <- E in Hl.
    assert (Hlt : (10 ^ N.of_nat (Decimal.nb_digits l) < 10 ^ 16)%N) by lia.
    apply N.pow_lt_mono_r_iff in Hlt; lia. }
  destruct (N.to_uint n) as [|l|l|l|l|l|l|l|l|l|l]; simpl;
    try lia;
    try (specialize (Hpow l _ eq_refl); lia).
  rewrite (normal_D0 l Hnorm). simpl. lia.
Qed.

(** *** Versions without tags *)

Lemma digit_not_space (c : ascii) : is_digit c = true -> is_space c = false.
Proof.
  destruct c as [[] [] [] [] [] [] [] []]; vm_compute; congruence.
Qed.

Lemma all_has (p : ascii -> bool) (c : ascii) (s : string) :
  p c = false -> all p s = true -> has (Ascii.eqb c) s = false.
Proof.
  intros Hc. induction s as [|a s IH]; simpl; [reflexivity|].
  rewrite andb_true_iff. intros [Ha Hs]. rewrite (IH Hs), orb_false_r.
  apply Ascii.eqb_neq. intros ->. congruence.
Qed.

Lemma digits_no (c : ascii) (s : string) :
  is_digit c = false -> all is_digit s = true ->
  has (Ascii.eqb c) s = false.
Proof. apply all_has. Qed.

Lemma core_chars (M m p : N) : all core_char (core M m p) = true.
Proof.
  unfold core. rewrite !all_app. simpl.
  assert (H : forall n, all core_char (of_number n) = true).
  { intros n. apply (all_impl is_digit); [|apply of_number_digits].
    intros c Hc. unfold core_char. now rewrite Hc. }
  now rewrite !H.
Qed.

Lemma trimStart_id (c : ascii) (r : string) :
  is_space c = false -> trimStart (String c r) = String c r.
Proof. intros H. unfold trimStart. simpl. now rewrite H. Qed.

Lemma trim_id (s : string) (c c' : ascii) (r r' : string) :
  s = String c r -> is_space c = false ->
  rev s = String c' r' -> is_space c' = false ->
  trim s = s.
Proof.
  intros Hs Hc Hr Hc'. unfold trim, trimEnd.
  rewrite Hs, (trimStart_id c r Hc), <- Hs, Hr, (trimStart_id c' r' Hc').
  rewrite <- Hr. apply rev_involutive.
Qed.

Lemma digits_rev_cons (s : string) :
  all is_digit s = true -> s <> "" ->
  exists c r, rev s = String c r /\ is_digit c = true.
Proof.
  intros Hd Hne. rewrite <- all_rev in Hd.
  destruct (rev s) as [|c r] eqn:E.
  - destruct Hne. rewrite <- (rev_involutive s), E. reflexivity.
  - simpl in Hd. apply andb_true_iff in Hd as [Hc _]. now exists c, r.
Qed.

Lemma trim_core (M m p : N) : trim (core M m p) = core M m p.
Proof.
  destruct (of_number_cons M) as (c & r & HM & Hc).
  destruct (digits_rev_cons (of_number p) (of_number_digits p))
    as (c' & r' & Hp & Hc').
  { destruct (of_number_cons p) as (x & y & E & _). rewrite E. discriminate. }
  eapply (trim_id _ c c').
  - unfold core. rewrite HM. simpl. reflexivity.
  - now apply digit_not_space.
  - unfold core. rewrite !rev_app, Hp. simpl. reflexivity.
  - now apply digit_not_space.
Qed.

Lemma strip_v_core (M m p : N) : strip_v (core M m p) = core M m p.
Proof.
  destruct (of_number_cons M) as (c & r & HM & Hc).
  unfold core. rewrite HM. simpl.
  destruct c as [[] [] [] [] [] [] [] []]; try reflexivity;
    vm_compute in Hc; discriminate.
Qed.

Lemma split_core (M m p : N) :
  split "." (core M m p) = [of_number M; of_number m; of_number p].
Proof.
  unfold core. simpl.
  rewrite split_app by (apply digits_no; [reflexivity | apply of_number_digits]).
  rewrite split_app by (apply digits_no; [reflexivity | apply of_number_digits]).
  rewrite split_stop by (apply digits_no; [reflexivity | apply of_number_digits]).
  reflexivity.
Qed.

Lemma core_length (M m p : N) :
  (M < 10 ^ 16)%N -> (m < 10 ^ 16)%N -> (p < 10 ^ 16)%N ->
  (String.length (core M m p) <= 50)%nat.
Proof.
  intros HM Hm Hp. unfold core. rewrite !app_length. simpl.
  pose proof (of_number_length M HM). pose proof (of_number_length m Hm).
  pose proof (of_number_length p Hp). lia.
Qed.

(** The constructor reads back a printed version. *)
Lemma construct_core (M m p : N) :
  (M <= MAX_SAFE_INTEGER)%N -> (m <= MAX_SAFE_INTEGER)%N ->
  (p <= MAX_SAFE_INTEGER)%N ->
  construct (core M m p) = Ok (mkSemVer M m p [] []).
Proof.
  intros HM Hm Hp. unfold MAX_SAFE_INTEGER in *. unfold construct.
  assert (Hlen : (MAX_LENGTH <? String.length (core M m p))%nat = false).
  { apply Nat.ltb_ge. unfold MAX_LENGTH.
    pose proof (core_length M m p). lia. }
  rewrite Hlen, trim_core, strip_v_core.
  rewrite (cut_stop "+") by (apply (all_has core_char); [reflexivity | apply core_chars]).
  rewrite (cut_stop "-") by (apply (all_has core_char); [reflexivity | apply core_chars]).
  rewrite split_core, !of_number_numeric, !to_number_of_number. simpl.
  unfold MAX_SAFE_INTEGER.
  destruct (N.ltb_spec 9007199254740991 M); [lia|].
  destruct (N.ltb_spec 9007199254740991 m); [lia|].
  destruct (N.ltb_spec 9007199254740991 p); [lia|].
  reflexivity.
Qed.

Lemma core_inj (M m p M' m' p' : N) :
  core M m p = core M' m' p' -> M = M' /\ m = m' /\ p = p'.
Proof.
  intros H. pose proof (split_core M m p) as E. rewrite H, split_core in E.
  injection E as E1 E2 E3.
  auto using of_number_inj.
Qed.

(** *** Comparison *)

Lemma format_plain (a : SemVer) :
  prerelease a = [] -> format a = core (major a) (minor a) (patch a).
Proof. intros H. unfold format. rewrite H. apply app_nil_r. Qed.

Lemma format_dash (a : SemVer) :
  has (Ascii.eqb "-") (format a) =
  match prerelease a with [] => false | _ => true end.
Proof.
  unfold format. rewrite has_app.
  rewrite (all_has core_char "-" _ eq_refl (core_chars _ _ _)).
  destruct (prerelease a); reflexivity.
Qed.

Lemma construct_parse (v : string) (a : SemVer) :
  parse v = Some a <-> construct v = Ok a.
Proof.
  unfold parse. destruct (construct v); simpl; split; congruence.
Qed.

Lemma compareMain_Lt (a b : SemVer) :
  compareMain a b = Lt <->
  (major a < major b \/
   major a = major b /\
   (minor a < minor b \/ minor a = minor b /\ patch a < patch b))%N.
Proof.
  unfold compareMain, lexic.
  destruct (N.compare_spec (major a) (major b));
    destruct (N.compare_spec (minor a) (minor b));
    destruct (N.compare_spec (patch a) (patch b));
    split; intros; try discriminate; try reflexivity; lia.
Qed.

Lemma compareMain_Gt (a b : SemVer) :
  compareMain a b = Gt <-> compareMain b a = Lt.
Proof.
  rewrite compareMain_Lt. unfold compareMain, lexic.
  destruct (N.compare_spec (major a) (major b));
    destruct (N.compare_spec (minor a) (minor b));
    destruct (N.compare_spec (patch a) (patch b));
    split; intros; try discriminate; try reflexivity; lia.
Qed.

Lemma compareMain_Eq (a b : SemVer) :
  compareMain a b = Eq <->
  major a = major b /\ minor a = minor b /\ patch a = patch b.
Proof.
  unfold compareMain, lexic.
  destruct (N.compare_spec (major a) (major b));
    destruct (N.compare_spec (minor a) (minor b));
    destruct (N.compare_spec (patch a) (patch b));
    split; intros; try discriminate; try reflexivity; lia.
Qed.

(** Between versions without prerelease tag the comparison is that of
    the three numbers. *)
Lemma compare_semver_plain (a b : SemVer) :
  prerelease a = [] -> prerelease b = [] ->
  compare_semver a b = compareMain a b.
Proof.
  intros Ha Hb. unfold compare_semver.
  destruct (String.eqb_spec (format b) (format a)) as [E|E].
  - rewrite !format_plain in E by assumption.
    apply core_inj in E as (E1 & E2 & E3). symmetry.
    apply compareMain_Eq. auto.
  - unfold comparePre. rewrite Ha, Hb.
    destruct (compareMain a b); reflexivity.
Qed.

(** A version without prerelease tag is above the tagged versions that
    are not above its three numbers. *)
Lemma compare_semver_release (a b : SemVer) :
  prerelease a = [] -> prerelease b <> [] ->
  compareMain a b <> Lt -> compare_semver a b = Gt.
Proof.
  intros Ha Hb Hm. unfold compare_semver.
  destruct (String.eqb_spec (format b) (format a)) as [E|E].
  - pose proof (format_dash a) as Da. pose proof (format_dash b) as Db.
    rewrite E, Da, Ha in Db. destruct (prerelease b); congruence.
  - unfold comparePre. rewrite Ha.
    destruct (prerelease b); [congruence|].
    destruct (compareMain a b); simpl; congruence.
Qed.

(** The build takes no part in a comparison. *)
Lemma compare_semver_build (x y a : SemVer) :
  major x = major y -> minor x = minor y -> patch x = patch y ->
  prerelease x = prerelease y ->
  compare_semver x a = compare_semver y a.
Proof.
  destruct x, y. simpl. intros -> -> -> ->. reflexivity.
Qed.

(** *** Increment *)

Lemma inc_semver_plain (a : SemVer) (r : ReleaseType) :
  prerelease (inc_semver a r) = [].
Proof. destruct r; reflexivity. Qed.

(** The numbers of an incremented version, when the version has no
    prerelease tag. *)
Lemma inc_semver_release (a : SemVer) (r : ReleaseType) :
  prerelease a = [] ->
  (major (inc_semver a r), minor (inc_semver a r), patch (inc_semver a r)) =
  match r with
  | major_release => (major a + 1, 0, 0)
  | minor_release => (major a, minor a + 1, 0)
  | patch_release => (major a, minor a, patch a + 1)
  end%N.
Proof.
  intros H. destruct r; simpl; rewrite H; simpl;
    rewrite ?orb_true_r; reflexivity.
Qed.

(** An incremented version is above the version. *)
Lemma inc_semver_greater (a : SemVer) (r : ReleaseType) :
  compare_semver (inc_semver a r) a = Gt.
Proof.
  destruct (prerelease a) as [|i l] eqn:Hp.
  - rewrite compare_semver_plain by auto using inc_semver_plain.
    apply compareMain_Gt, compareMain_Lt.
    destruct r; simpl; rewrite Hp; simpl; rewrite ?orb_true_r; lia.
  - apply compare_semver_release;
      [apply inc_semver_plain | congruence |].
    rewrite compareMain_Lt.
    destruct r; simpl; rewrite Hp; simpl;
      repeat match goal with |- context [if ?c then _ else _] =>
               destruct c eqn:? end;
      rewrite ?orb_false_iff, ?negb_false_iff, ?N.eqb_eq in *; lia.
Qed.

Lemma inc_spec (v : string) (a : SemVer) (r : ReleaseType) :
  parse v = Some a ->
  inc v r = Some (core (major (inc_semver a r)) (minor (inc_semver a r))
                       (patch (inc_semver a r))).
Proof.
  intros H. unfold inc. rewrite H. simpl.
  now rewrite format_plain by apply inc_semver_plain.
Qed.

(** The numbers of a version that is constructed are safe integers. *)
Lemma construct_bounds (v : string) (a : SemVer) :
  construct v = Ok a ->
  (major a <= MAX_SAFE_INTEGER /\ minor a <= MAX_SAFE_INTEGER /\
   patch a <= MAX_SAFE_INTEGER)%N.
Proof.
  unfold construct.
  destruct (MAX_LENGTH <? String.length v)%nat; [discriminate|].
  destruct (cut "+" (strip_v (trim v))) as [main_pre bld].
  destruct (cut "-" main_pre) as [main pre].
  destruct (split "." main) as [|a0 [|b0 [|c0 [|]]]]; try discriminate.
  match goal with |- context [if ?c then _ else _] => destruct c end;
    [|discriminate].
  destruct (MAX_SAFE_INTEGER <? to_number a0)%N eqn:Ha; [discriminate|].
  destruct (MAX_SAFE_INTEGER <? to_number b0)%N eqn:Hb; [discriminate|].
  destruct (MAX_SAFE_INTEGER <? to_number c0)%N eqn:Hc; [discriminate|].
  intros [= <-]. simpl.
  apply N.ltb_ge in Ha, Hb, Hc. auto.
Qed.

(** What the constructor makes of a printed MAJOR.MINOR.PATCH, when it
    accepts it. *)
Lemma construct_core_inv (M m p : N) (a : SemVer) :
  construct (core M m p) = Ok a ->
  a = mkSemVer M m p [] [] /\
  (M <= MAX_SAFE_INTEGER /\ m <= MAX_SAFE_INTEGER /\ p <= MAX_SAFE_INTEGER)%N.
Proof.
  unfold construct.
  destruct (MAX_LENGTH <? String.length (core M m p))%nat; [discriminate|].
  rewrite trim_core, strip_v_core.
  rewrite (cut_stop "+") by (apply (all_has core_char); [reflexivity | apply core_chars]).
  rewrite (cut_stop "-") by (apply (all_has core_char); [reflexivity | apply core_chars]).
  rewrite split_core, !of_number_numeric, !to_number_of_number. simpl.
  destruct (N.ltb_spec MAX_SAFE_INTEGER M); [discriminate|].
  destruct (N.ltb_spec MAX_SAFE_INTEGER m); [discriminate|].
  destruct (N.ltb_spec MAX_SAFE_INTEGER p); [discriminate|].
  intros [= <-]. auto.
Qed.

(** The numbers of an incremented version, for every version. *)
Lemma inc_semver_after (a : SemVer) (r : ReleaseType) :
  Design.numbers (inc_semver a r) = Design.after a r.
Proof.
  unfold Design.after, Design.raises, Design.lower_zero, Design.incremented,
    Design.numbers.
  destruct r; simpl; destruct (prerelease a); simpl;
    rewrite ?orb_true_r; try reflexivity;
    repeat match goal with |- context [(?x =? 0)%N] =>
             destruct (N.eqb_spec x 0) as [->|] end; reflexivity.
Qed.

(** The numbers after an increment are safe integers, unless the
    component that is raised was the greatest of them. *)
Lemma after_bounds (a : SemVer) (r : ReleaseType) (M m p : N) :
  (major a <= MAX_SAFE_INTEGER)%N -> (minor a <= MAX_SAFE_INTEGER)%N ->
  (patch a <= MAX_SAFE_INTEGER)%N ->
  (Design.raises a r = true ->
   (Design.component a r < MAX_SAFE_INTEGER)%N) ->
  Design.after a r = (M, m, p) ->
  (M <= MAX_SAFE_INTEGER /\ m <= MAX_SAFE_INTEGER /\ p <= MAX_SAFE_INTEGER)%N.
Proof.
  intros HM Hm Hp Hr. unfold Design.after.
  destruct (Design.raises a r).
  - specialize (Hr eq_refl). unfold MAX_SAFE_INTEGER in *.
    destruct r; simpl in *; intros [= <- <- <-]; lia.
  - intros [= <- <- <-]. auto.
Qed.

(** The shape of the numbers after an increment: the components above
    the one of the release type are kept, those below it are zero, and
    the component itself is one higher when it is raised. *)
Lemma after_shape (a : SemVer) (r : ReleaseType) (M m p : N) :
  Design.after a r = (M, m, p) ->
  match r with
  | major_release => m = 0 /\ p = 0
  | minor_release => M = major a /\ p = 0
  | patch_release => M = major a /\ m = minor a
  end%N /\
  Design.component (mkSemVer M m p [] []) r =
  (if Design.raises a r then Design.component a r + 1
   else Design.component a r)%N.
Proof.
  unfold Design.after, Design.raises, Design.lower_zero, Design.incremented,
    Design.numbers.
  destruct r; simpl; destruct (prerelease a); simpl;
    repeat match goal with |- context [(?x =? 0)%N] =>
             destruct (N.eqb_spec x 0) end; simpl;
    intros [= <- <- <-]; auto.
Qed.

(** The text of an incremented version. *)
Lemma inc_after (v : string) (a : SemVer) (r : ReleaseType) (M m p : N) :
  parse v = Some a -> Design.after a r = (M, m, p) ->
  inc v r = Some (core M m p).
Proof.
  intros Hv Ha. rewrite (inc_spec v a r Hv).
  pose proof (inc_semver_after a r) as E. rewrite Ha in E.
  unfold Design.numbers in E. now injection E as -> -> ->.
Qed.

(** An increment never gives back the text it was given. *)
Lemma inc_other (v : string) (r : ReleaseType) (t : string) :
  inc v r = Some t -> t <> v.
Proof.
  unfold inc. destruct (parse v) as [a|] eqn:Hv; [|discriminate].
  simpl. rewrite format_plain by apply inc_semver_plain.
  intros [= <-] E. rewrite <- E in Hv.
  apply construct_parse, construct_core_inv in Hv as [Ha _].
  pose proof (f_equal prerelease Ha) as Hpre.
  pose proof (f_equal major Ha) as HM. pose proof (f_equal minor Ha) as Hm.
  pose proof (f_equal patch Ha) as Hp. cbn [prerelease major minor patch]
    in Hpre, HM, Hm, Hp.
  pose proof (inc_semver_release a r Hpre) as Hn.
  rewrite <- HM, <- Hm, <- Hp in Hn.
  destruct r; injection Hn; lia.
Qed.

(** *** The characters of a valid version *)

Lemma forallb_impl {A} (f g : A -> bool) (l : list A) :
  (forall x, f x = true -> g x = true) ->
  forallb f l = true -> forallb g l = true.
Proof.
  intros H. induction l as [|x l IH]; simpl; [reflexivity|].
  rewrite !andb_true_iff. intros [Hx Hl]. auto.
Qed.

Lemma numeric_digits (s : string) :
  numeric_identifier s = true -> all is_digit s = true.
Proof.
  destruct s as [|c r]; simpl; [discriminate|].
  rewrite !andb_true_iff. tauto.
Qed.

Lemma digit_version_char (c : ascii) :
  is_digit c = true -> version_char c = true.
Proof. intros H. unfold version_char, letterdashnumber. now rewrite H. Qed.

Lemma ldn_version_char (c : ascii) :
  letterdashnumber c = true -> version_char c = true.
Proof. intros H. unfold version_char. now rewrite H. Qed.

Lemma numeric_chars (s : string) :
  numeric_identifier s = true -> all version_char s = true.
Proof.
  intros H. apply (all_impl is_digit); [apply digit_version_char|].
  now apply numeric_digits.
Qed.

Lemma prerelease_chars (s : string) :
  prerelease_identifier s = true -> all version_char s = true.
Proof.
  unfold prerelease_identifier, nonnumeric_identifier.
  rewrite orb_true_iff, andb_true_iff. intros [H|[H _]].
  - now apply numeric_chars.
  - now apply (all_impl letterdashnumber); [apply ldn_version_char|].
Qed.

Lemma build_chars (s : string) :
  build_identifier s = true -> all version_char s = true.
Proof.
  unfold build_identifier. rewrite andb_true_iff. intros [H _].
  now apply (all_impl letterdashnumber); [apply ldn_version_char|].
Qed.

Lemma strip_v_chars (s : string) :
  all version_char (strip_v s) = true -> all version_char s = true.
Proof.
  destruct s as [|c r]; simpl; [auto|].
  destruct (Ascii.eqb_spec c "v") as [->|Hc].
  - simpl. auto.
  - assert (E : strip_v (String c r) = String c r).
    { destruct c as [[] [] [] [] [] [] [] []]; try reflexivity.
      now destruct Hc. }
    unfold strip_v in E. rewrite E. auto.
Qed.

(** The constructor takes versions made of letters, digits, dashes, dots
    and plus signs only, between white space. *)
Lemma construct_chars (v : string) (a : SemVer) :
  construct v = Ok a -> all version_or_space v = true.
Proof.
  unfold construct.
  destruct (MAX_LENGTH <? String.length v)%nat; [discriminate|].
  destruct (cut "+" (strip_v (trim v))) as [main_pre bld] eqn:Hplus.
  destruct (cut "-" main_pre) as [main pre] eqn:Hdash.
  destruct (split "." main) as [|x [|y [|z [|? ?]]]] eqn:Hmain;
    try discriminate.
  match goal with |- (if ?c then _ else _) = _ -> _ =>
    destruct c eqn:Hcond; [|discriminate] end.
  intros _.
  repeat (apply andb_true_iff in Hcond as [Hcond ?]).
  assert (Hm : all version_char main = true).
  { apply (all_split version_char "."); [reflexivity|].
    rewrite Hmain. simpl. now rewrite !numeric_chars. }
  assert (Hmp : all version_char main_pre = true).
  { apply cut_spec in Hdash as [_ ->]. rewrite all_app, Hm.
    destruct pre as [p|]; [|reflexivity]. simpl.
    apply (all_split version_char "."); [reflexivity|].
    now apply (forallb_impl prerelease_identifier);
      [apply prerelease_chars|]. }
  assert (Ht : all version_char (trim v) = true).
  { apply strip_v_chars. apply cut_spec in Hplus as [_ ->].
    rewrite all_app, Hmp.
    destruct bld as [b|]; [|reflexivity]. simpl.
    apply (all_split version_char "."); [reflexivity|].
    now apply (forallb_impl build_identifier); [apply build_chars|]. }
  destruct (trim_spec v) as (w1 & w2 & Hv & Hw1 & Hw2).
  rewrite Hv, !all_app.
  rewrite (all_impl is_space version_or_space w1), (all_impl is_space version_or_space w2); auto.
  - rewrite (all_impl version_char version_or_space (trim v)); auto.
    intros c Hc. unfold version_or_space. now rewrite Hc.
  - intros c Hc. unfold version_or_space. rewrite Hc. apply orb_true_r.
  - intros c Hc. unfold version_or_space. rewrite Hc. apply orb_true_r.
Qed.

(** *** The greatest version *)

Lemma satisfies_any_iff (v : string) :
  satisfies_any v = true <->
  exists sv, parse v = Some sv /\ prerelease sv = [].
Proof.
  unfold satisfies_any. destruct (parse v) as [sv|].
  - destruct (prerelease sv) eqn:E; simpl; split.
    + intros _. now exists sv.
    + reflexivity.
    + discriminate.
    + intros (sv' & [= <-] & H). congruence.
  - split; [discriminate | intros (sv & H & _); discriminate].
Qed.

Lemma best_step (seen : list string) (acc : option (string * SemVer))
    (v : string) :
  Design.best seen acc ->
  Design.best (seen ++ [v]) (maxSatisfying_step acc v).
Proof.
  unfold maxSatisfying_step. intros Hb.
  assert (Hlast : In v (seen ++ [v])) by (apply in_or_app; right; apply in_eq).
  assert (Hold : forall u, In u seen -> In u (seen ++ [v]))
    by (intros; apply in_or_app; now left).
  destruct (satisfies_any v) eqn:Hs.
  - apply satisfies_any_iff in Hs as (sv & Hp & Hpre). rewrite Hp.
    destruct acc as [[mx msv]|]; simpl in *.
    + destruct Hb as (Hin & Hmx & Hmpre & Hmax).
      destruct (compare_semver msv sv) eqn:Hc;
        rewrite compare_semver_plain in Hc by assumption.
      * split; [auto|]. split; [auto|]. split; [auto|].
        intros u su [Hu|[<-|[]]]%in_app_or Hpu Hsu; [eauto|].
        rewrite Hp in Hpu. injection Hpu as <-.
        apply compareMain_Eq in Hc as (? & ? & ?).
        intros G%compareMain_Gt%compareMain_Lt. lia.
      * split; [auto|]. split; [auto|]. split; [auto|].
        intros u su [Hu|[<-|[]]]%in_app_or Hpu Hsu.
        -- specialize (Hmax u su Hu Hpu Hsu).
           apply compareMain_Lt in Hc.
           intros G%compareMain_Gt%compareMain_Lt.
           apply Hmax, compareMain_Gt, compareMain_Lt. lia.
        -- rewrite Hp in Hpu. injection Hpu as <-.
           intros G%compareMain_Gt%compareMain_Lt. lia.
      * split; [auto|]. split; [auto|]. split; [auto|].
        intros u su [Hu|[<-|[]]]%in_app_or Hpu Hsu; [eauto|].
        rewrite Hp in Hpu. injection Hpu as <-.
        apply compareMain_Gt, compareMain_Lt in Hc.
        intros G%compareMain_Gt%compareMain_Lt. lia.
    + split; [auto|]. split; [auto|]. split; [auto|].
      intros u su [Hu|[<-|[]]]%in_app_or Hpu Hsu.
      * apply Hb in Hu.
        assert (satisfies_any u = true) by (apply satisfies_any_iff; eauto).
        congruence.
      * rewrite Hp in Hpu. injection Hpu as <-.
        intros G%compareMain_Gt%compareMain_Lt. lia.
  - destruct acc as [[mx msv]|]; simpl in *.
    + destruct Hb as (Hin & Hmx & Hmpre & Hmax).
      split; [auto|]. split; [auto|]. split; [auto|].
      intros u su [Hu|[<-|[]]]%in_app_or Hpu Hsu; [eauto|].
      assert (satisfies_any v = true) by (apply satisfies_any_iff; eauto).
      congruence.
    + intros u [Hu|[<-|[]]]%in_app_or; auto.
Qed.

Lemma best_fold (vs seen : list string) (acc : option (string * SemVer)) :
  Design.best seen acc ->
  Design.best (seen ++ vs) (fold_left maxSatisfying_step vs acc).
Proof.
  revert seen acc. induction vs as [|v vs IH]; intros seen acc Hb; simpl.
  - now rewrite List.app_nil_r.
  - replace (seen ++ v :: vs)%list with ((seen ++ [v]) ++ vs)%list
      by (now rewrite <- List.app_assoc).
    apply IH, best_step, Hb.
Qed.

Lemma best_all (vs : list string) :
  Design.best vs (fold_left maxSatisfying_step vs None).
Proof. apply (best_fold vs [] None). intros v []. Qed.

End SemverFacts.

(** ** The patterns *)

Module RegexFacts.
Import Js JsFacts Regex.

Lemma lit_app (l s : string) : lit l (l ++ s) = Some s.
Proof.
  induction l as [|c l IH]; simpl; [reflexivity|].
  now rewrite Ascii.eqb_refl.
Qed.

Lemma lit_inv (l s r : string) : lit l s = Some r -> s = l ++ r.
Proof.
  revert s. induction l as [|c l IH]; simpl; intros s H.
  - now injection H as ->.
  - destruct s as [|d s]; [discriminate|].
    destruct (Ascii.eqb_spec c d) as [->|]; [|discriminate].
    now rewrite (IH s H).
Qed.

Lemma one_inv (p : ascii -> bool) (s : string) (c : ascii) (r : string) :
  one p s = Some (c, r) -> s = String c r /\ p c = true.
Proof.
  destruct s as [|d s]; simpl; [discriminate|].
  destruct (p d) eqn:Hd; [|discriminate].
  intros [= <- <-]. auto.
Qed.

Lemma one_cons (p : ascii -> bool) (c : ascii) (r : string) :
  p c = true -> one p (String c r) = Some (c, r).
Proof. intros H. simpl. now rewrite H. Qed.

(** *** The leftmost match *)

Lemma exec_inv (at_start : string -> option (matched * string))
    (s pre : string) (m : matched) (r : string) :
  exec at_start s = Some (pre, m, r) ->
  exists t,
    s = pre ++ t /\ at_start t = Some (m, r) /\
    forall a b, pre = a ++ b -> b <> "" -> at_start (b ++ t) = None.
Proof.
  revert pre. induction s as [|c s IH]; intros pre; simpl.
  - destruct (at_start "") as [[m' r']|] eqn:E; [|discriminate].
    intros [= <- <- <-]. exists "". repeat split; auto.
    intros a b Hab Hb. apply eq_sym, app_eq_nil in Hab as [_ ?].
    contradiction.
  - destruct (at_start (String c s)) as [[m' r']|] eqn:E.
    + intros [= <- <- <-]. exists (String c s). repeat split; auto.
      intros a b Hab Hb. apply eq_sym, app_eq_nil in Hab as [_ ?].
      contradiction.
    + destruct (exec at_start s) as [[[pre' m'] r']|] eqn:Es; [|discriminate].
      intros [= <- <- <-].
      destruct (IH pre' eq_refl) as (t & -> & Ht & Hno).
      exists t. repeat split; auto.
      intros a b Hab Hb. destruct a as [|x a]; simpl in Hab.
      * subst b. exact E.
      * injection Hab as _ Hab. eauto.
Qed.

Lemma exec_intro (at_start : string -> option (matched * string))
    (pre t : string) (m : matched) (r : string) :
  at_start t = Some (m, r) ->
  (forall a b, pre = a ++ b -> b <> "" -> at_start (b ++ t) = None) ->
  exec at_start (pre ++ t) = Some (pre, m, r).
Proof.
  intros Ht. induction pre as [|c pre IH]; intros Hno.
  - simpl. destruct t; simpl; now rewrite Ht.
  - pose proof (Hno "" (String c pre) eq_refl) as H0.
    simpl in *. rewrite H0 by discriminate.
    rewrite IH; [reflexivity|].
    intros a b -> Hb. apply (Hno (String c a) b eq_refl Hb).
Qed.

(** The leftmost match stays where it is when the text from the match
    on is replaced by a text that matches, and that lets no match start
    earlier than before. *)
Lemma exec_replaced (at_start : string -> option (matched * string))
    (pre t t' : string) (m m' : matched) (r r' : string) :
  exec at_start (pre ++ t) = Some (pre, m, r) ->
  at_start t' = Some (m', r') ->
  (forall b, b <> "" -> at_start (b ++ t') <> None ->
             at_start (b ++ t) <> None) ->
  exec at_start (pre ++ t') = Some (pre, m', r').
Proof.
  intros He Ht' Hshift.
  apply exec_inv in He as (t0 & E & _ & Hno).
  apply app_inv_head in E as <-.
  apply exec_intro; [exact Ht'|].
  intros a b Hab Hb.
  destruct (at_start (b ++ t')) eqn:E'; [|reflexivity].
  destruct (Hshift b Hb); [congruence | eauto].
Qed.

(** *** Texts between quotes *)

(** Two ways to read a text up to a quote: the parts before the quote
    are the same, or the first holds the second and its quote. *)
Lemma quote_split (isq : ascii -> bool) (u a Y Z : string) (c1 c2 : ascii) :
  all (fun c => negb (isq c)) u = true -> isq c1 = true ->
  a ++ String c1 Y = u ++ String c2 Z ->
  (a = u /\ c1 = c2 /\ Y = Z) \/
  (exists a', a = u ++ String c2 a' /\ a' ++ String c1 Y = Z).
Proof.
  intros Hu Hc1. revert a. induction u as [|x u IH]; intros a E.
  - destruct a as [|y a]; simpl in E; injection E as -> E.
    + left. auto.
    + right. now exists a.
  - simpl in Hu. apply andb_true_iff in Hu as [Hx Hu].
    destruct a as [|y a]; simpl in E; injection E as -> E.
    + rewrite Hc1 in Hx. discriminate.
    + destruct (IH Hu a E) as [(-> & -> & ->)|(a' & -> & <-)].
      * left. auto.
      * right. now exists a'.
Qed.

(** A text without quote after [b] that reaches a quote: the quote is
    in [b]. *)
Lemma quote_inside (isq : ascii -> bool) (V U b a' : string) (c : ascii) :
  all (fun c => negb (isq c)) V = true -> isq c = true ->
  b ++ V = U ++ String c a' ->
  exists b', b = U ++ String c b' /\ a' = b' ++ V.
Proof.
  intros HV Hc. revert b. induction U as [|x U IH]; intros b E.
  - destruct b as [|y b]; simpl in E.
    + rewrite E in HV. simpl in HV. rewrite Hc in HV. discriminate.
    + injection E as -> E. now exists b.
  - destruct b as [|y b]; simpl in E.
    + rewrite E in HV. simpl in HV. rewrite all_app in HV. simpl in HV.
      rewrite Hc in HV. simpl in HV.
      rewrite !andb_false_r in HV. discriminate.
    + injection E as -> E. destruct (IH b E) as (b' & -> & ->).
      now exists b'.
Qed.

(** *** The manifest pattern *)

Ltac flatten :=
  unfold member, declaration, q, DQ, char;
  repeat (rewrite !app_assoc || simpl).

Ltac flatten_in H :=
  unfold member, declaration, q, DQ, char in H;
  repeat (rewrite !app_assoc in H || simpl in H).

Lemma is_dquote_eq (c : ascii) : is_dquote c = true -> c = dquote.
Proof. apply Ascii.eqb_eq. Qed.

Lemma is_colon_eq (c : ascii) : is_colon c = true -> c = ":"%char.
Proof. apply Ascii.eqb_eq. Qed.

Lemma packageJson_at_inv (s : string) (m : matched) (r : string) :
  packageJson_at s = Some (m, r) ->
  exists w1 w2 g,
    m = mkMatched (member w1 w2 g) [Some g] /\
    s = member w1 w2 g ++ r /\
    all is_space w1 = true /\ all is_space w2 = true /\
    g <> "" /\ all not_dquote g = true.
Proof.
  unfold packageJson_at.
  destruct (lit (q "version") s) as [s1|] eqn:E1; [|discriminate].
  destruct (span is_space s1) as [w1 s2] eqn:E2.
  destruct (one is_colon s2) as [[o s3]|] eqn:E3; [|discriminate].
  destruct (span is_space s3) as [w2 s4] eqn:E4.
  destruct (one is_dquote s4) as [[d s5]|] eqn:E5; [|discriminate].
  destruct (span not_dquote s5) as [g s6] eqn:E6.
  destruct g as [|x g]; [discriminate|].
  destruct (one is_dquote s6) as [[d' s7]|] eqn:E7; [|discriminate].
  intros [= <- <-].
  apply lit_inv in E1 as ->.
  apply span_spec in E2 as (-> & H1 & _).
  apply one_inv in E3 as [-> ->%is_colon_eq].
  apply span_spec in E4 as (-> & H2 & _).
  apply one_inv in E5 as [-> ->%is_dquote_eq].
  apply span_spec in E6 as (-> & H3 & _).
  apply one_inv in E7 as [-> ->%is_dquote_eq].
  exists w1, w2, (String x g).
  split; [reflexivity|]. split; [flatten; reflexivity|].
  repeat split; auto; discriminate.
Qed.

Lemma packageJson_at_intro (w1 w2 g r : string) :
  all is_space w1 = true -> all is_space w2 = true ->
  g <> "" -> all not_dquote g = true ->
  packageJson_at (member w1 w2 g ++ r) =
  Some (mkMatched (member w1 w2 g) [Some g], r).
Proof.
  intros H1 H2 Hg H3. unfold packageJson_at.
  replace (member w1 w2 g ++ r)
    with (q "version" ++ w1 ++ String ":" (w2 ++ String dquote
            (g ++ String dquote r))) by (flatten; reflexivity).
  rewrite lit_app.
  rewrite (span_stop is_space w1) by (auto; reflexivity).
  rewrite one_cons by reflexivity.
  rewrite (span_stop is_space w2) by (auto; reflexivity).
  rewrite one_cons by reflexivity.
  rewrite (span_stop not_dquote g) by (auto; reflexivity).
  rewrite one_cons by reflexivity.
  destruct g; [contradiction | reflexivity].
Qed.

Lemma version_no_dquote : all not_dquote "version" = true.
Proof. reflexivity. Qed.

Lemma colon_not_dquote (w1 w2 : string) :
  all is_space w1 = true -> all is_space w2 = true ->
  all not_dquote (w1 ++ String ":" w2) = true.
Proof.
  intros H1 H2. rewrite all_app. simpl.
  assert (H : forall w, all is_space w = true -> all not_dquote w = true).
  { intros w. apply all_impl. intros c Hc.
    destruct c as [[] [] [] [] [] [] [] []]; try reflexivity;
      vm_compute in Hc; discriminate. }
  now rewrite !H.
Qed.

Lemma version_not_colon (w1 w2 : string) :
  all is_space w1 = true -> "version" <> w1 ++ String ":" w2.
Proof.
  intros H1 E. destruct w1 as [|c w1]; simpl in *; [discriminate|].
  injection E as <- _. discriminate.
Qed.

Lemma no_dquote_in (u a : string) :
  all not_dquote (u ++ String dquote a) = false.
Proof. rewrite all_app. simpl. apply andb_false_r. Qed.

(** After a text that is not empty and before a version member, a
    match does not depend on what follows the name of the member. *)
Lemma packageJson_shift (b X1 X2 : string) :
  b <> "" ->
  packageJson_at (b ++ q "version" ++ X2) <> None ->
  packageJson_at (b ++ q "version" ++ X1) <> None.
Proof.
  intros Hb H.
  destruct (packageJson_at (b ++ q "version" ++ X2)) as [[m r]|] eqn:E;
    [clear H | contradiction].
  apply packageJson_at_inv in E as (w1 & w2 & g & _ & E & H1 & H2 & Hg & H3).
  pose proof (colon_not_dquote w1 w2 H1 H2) as HW.
  destruct b as [|c b]; [contradiction|]. clear Hb.
  assert (E' : c = dquote /\
               b ++ String dquote ("version" ++ String dquote X2) =
               "version" ++ String dquote
                 ((w1 ++ String ":" w2) ++ String dquote
                    (g ++ String dquote r))).
  { flatten_in E. flatten. injection E as -> E. now rewrite E. }
  clear E. destruct E' as [-> E].
  assert (Hgoal : forall g' rest,
             g' <> "" -> all not_dquote g' = true ->
             String dquote b ++ q "version" ++ X1 =
             member w1 w2 g' ++ rest ->
             packageJson_at (String dquote b ++ q "version" ++ X1) <> None).
  { intros g' rest Hg' Hq' ->.
    rewrite packageJson_at_intro by assumption. discriminate. }
  apply (quote_split is_dquote) in E
    as [(-> & _ & E)|(b2 & -> & E)]; auto using version_no_dquote.
  - (* [b] is the name alone: the colon is missing *)
    apply (quote_split is_dquote) in E
      as [(E & _)|(a' & E & _)]; auto using version_no_dquote.
    + now apply version_not_colon in E.
    + pose proof version_no_dquote as Hv. rewrite E in Hv.
      now rewrite no_dquote_in in Hv.
  - apply (quote_split is_dquote) in E
      as [(-> & _ & E)|(b3 & -> & E)]; auto.
    + (* [b] ends before the value: the value is the next name *)
      apply (quote_split is_dquote) in E
        as [(<- & _)|(a' & E & _)]; auto using version_no_dquote.
      * apply (Hgoal "version" X1); [discriminate | reflexivity |].
        flatten. reflexivity.
      * pose proof version_no_dquote as Hv. rewrite E in Hv.
        now rewrite no_dquote_in in Hv.
    + apply (quote_split is_dquote) in E
        as [(-> & _)|(b4 & -> & _)]; auto.
      * (* [b] ends in the value *)
        apply (Hgoal g ("version" ++ String dquote X1)); auto.
        flatten. reflexivity.
      * (* the whole match is in [b] *)
        apply (Hgoal g (b4 ++ q "version" ++ X1)); auto.
        flatten. reflexivity.
Qed.

(** *** The pattern of source files *)

Lemma is_quote_not_quote (c : ascii) :
  is_quote c = true -> not_quote c = false.
Proof. unfold not_quote. now intros ->. Qed.

Lemma quote_not_space (c : ascii) : is_quote c = true -> is_space c = false.
Proof.
  destruct c as [[] [] [] [] [] [] [] []]; vm_compute; congruence.
Qed.

Lemma operator_not_space (c : ascii) :
  is_operator c = true -> is_space c = false.
Proof.
  destruct c as [[] [] [] [] [] [] [] []]; vm_compute; congruence.
Qed.

Lemma space_not_quote (c : ascii) : is_space c = true -> not_quote c = true.
Proof.
  destruct c as [[] [] [] [] [] [] [] []]; vm_compute; congruence.
Qed.

Lemma operator_not_quote (c : ascii) :
  is_operator c = true -> not_quote c = true.
Proof.
  destruct c as [[] [] [] [] [] [] [] []]; vm_compute; congruence.
Qed.

Lemma declaration_at_inv (op : ascii -> bool) (s t g r : string) :
  declaration_at op s = Some (t, g, r) ->
  exists w1 o w2 q1 q2,
    t = declaration w1 o w2 q1 g q2 /\ s = t ++ r /\
    all is_space w1 = true /\ op o = true /\ all is_space w2 = true /\
    is_quote q1 = true /\ is_quote q2 = true /\
    g <> "" /\ all not_quote g = true.
Proof.
  unfold declaration_at.
  destruct (lit "version" s) as [s1|] eqn:E1; [|discriminate].
  destruct (span is_space s1) as [w1 s2] eqn:E2.
  destruct (one op s2) as [[o s3]|] eqn:E3; [|discriminate].
  destruct (span is_space s3) as [w2 s4] eqn:E4.
  destruct (one is_quote s4) as [[q1 s5]|] eqn:E5; [|discriminate].
  destruct (span not_quote s5) as [g' s6] eqn:E6.
  destruct g' as [|x g']; [discriminate|].
  destruct (one is_quote s6) as [[q2 s7]|] eqn:E7; [|discriminate].
  intros [= <- <- <-].
  apply lit_inv in E1 as ->.
  apply span_spec in E2 as (-> & H1 & _).
  apply one_inv in E3 as [-> Ho].
  apply span_spec in E4 as (-> & H2 & _).
  apply one_inv in E5 as [-> Hq1].
  apply span_spec in E6 as (-> & H3 & _).
  apply one_inv in E7 as [-> Hq2].
  exists w1, o, w2, q1, q2.
  split; [reflexivity|]. split; [flatten; reflexivity|].
  repeat split; auto; discriminate.
Qed.

Lemma declaration_at_intro (op : ascii -> bool)
    (w1 : string) (o : ascii) (w2 : string) (q1 : ascii) (g : string)
    (q2 : ascii) (r : string) :
  all is_space w1 = true -> op o = true -> is_space o = false ->
  all is_space w2 = true -> is_quote q1 = true -> is_quote q2 = true ->
  g <> "" -> all not_quote g = true ->
  declaration_at op (declaration w1 o w2 q1 g q2 ++ r) =
  Some (declaration w1 o w2 q1 g q2, g, r).
Proof.
  intros H1 Ho Hos H2 Hq1 Hq2 Hg H3. unfold declaration_at.
  replace (declaration w1 o w2 q1 g q2 ++ r)
    with ("version" ++ w1 ++ String o (w2 ++ String q1
            (g ++ String q2 r))) by (flatten; reflexivity).
  rewrite lit_app.
  rewrite (span_stop _ _ _ H1 (stops_cons _ _ _ Hos)).
  rewrite one_cons by assumption.
  rewrite (span_stop _ _ _ H2 (stops_cons _ _ _ (quote_not_space _ Hq1))).
  rewrite one_cons by assumption.
  rewrite (span_stop _ _ _ H3 (stops_cons _ _ _ (is_quote_not_quote _ Hq2))).
  rewrite one_cons by assumption.
  destruct g; [contradiction | reflexivity].
Qed.

Lemma one_colon_operator (s : string) (x : ascii * string) :
  one is_colon s = Some x -> one is_operator s = Some x.
Proof.
  destruct s as [|c s]; simpl; [discriminate|].
  unfold is_operator. destruct (is_colon c) eqn:Hc; [|discriminate].
  unfold is_colon in Hc. now rewrite Hc, orb_true_r.
Qed.

(** The second alternative of the pattern matches where the first one
    does. *)
Lemma declaration_at_colon (s : string) (x : string * string * string) :
  declaration_at is_colon s = Some x ->
  declaration_at is_operator s = Some x.
Proof.
  unfold declaration_at.
  destruct (lit "version" s) as [s1|]; [|discriminate].
  destruct (span is_space s1) as [w1 s2].
  destruct (one is_colon s2) as [[o s3]|] eqn:E; [|discriminate].
  now rewrite (one_colon_operator _ _ E).
Qed.

(** The pattern is its first alternative. *)
Lemma typescript_at_first (s : string) :
  typescript_at s =
  match declaration_at is_operator s with
  | Some (t, g, r) => Some (mkMatched t [Some g; None], r)
  | None => None
  end.
Proof.
  unfold typescript_at.
  destruct (declaration_at is_operator s) as [[[t g] r]|] eqn:E;
    [reflexivity|].
  destruct (declaration_at is_colon s) as [x|] eqn:E'; [|reflexivity].
  apply declaration_at_colon in E'. congruence.
Qed.

Lemma space_not_v (c : ascii) : is_space c = true -> not_v c = true.
Proof.
  destruct c as [[] [] [] [] [] [] [] []]; vm_compute; congruence.
Qed.

Lemma operator_not_v (c : ascii) : is_operator c = true -> not_v c = true.
Proof.
  destruct c as [[] [] [] [] [] [] [] []]; vm_compute; congruence.
Qed.

(** The name of a declaration and what precedes its quote cannot end
    where a longer text does. *)
Lemma version_not_suffix (b o2 w1 w2 : string) (o : ascii) :
  b <> "" -> all is_space w1 = true -> is_operator o = true ->
  all is_space w2 = true ->
  b ++ "version" ++ o2 <> "version" ++ w1 ++ String o w2.
Proof.
  intros Hb H1 Ho H2 E.
  destruct b as [|c b]; [contradiction|].
  simpl in E. injection E as _ E.
  apply (f_equal (all not_v)) in E.
  rewrite all_app in E. simpl in E. rewrite all_app in E. simpl in E.
  rewrite (all_impl _ _ w1 space_not_v H1) in E.
  rewrite (all_impl _ _ w2 space_not_v H2) in E.
  rewrite (operator_not_v o Ho), andb_false_r in E. discriminate.
Qed.

Lemma head_not_quote (w1 w2 : string) (o : ascii) :
  all is_space w1 = true -> is_operator o = true ->
  all is_space w2 = true ->
  all not_quote ("version" ++ w1 ++ String o w2) = true.
Proof.
  intros H1 Ho H2. rewrite !all_app. simpl.
  rewrite (all_impl _ _ w1 space_not_quote H1).
  rewrite (all_impl _ _ w2 space_not_quote H2).
  now rewrite operator_not_quote.
Qed.

(** After a text that is not empty and before a declaration, a match
    does not depend on what follows the name of the declaration, as long
    as a quote comes next. *)
Lemma declaration_shift (b o1 o2 X1 X2 : string) (c1 c2 : ascii) :
  b <> "" ->
  all not_quote o1 = true -> all not_quote o2 = true ->
  is_quote c1 = true -> is_quote c2 = true ->
  declaration_at is_operator (b ++ "version" ++ o2 ++ String c2 X2) <> None ->
  declaration_at is_operator (b ++ "version" ++ o1 ++ String c1 X1) <> None.
Proof.
  intros Hb Ho1 Ho2 Hc1 Hc2 H.
  destruct (declaration_at is_operator (b ++ "version" ++ o2 ++ String c2 X2))
    as [[[t g] r]|] eqn:E; [clear H | contradiction].
  apply declaration_at_inv in E
    as (w1 & o & w2 & q1 & q2 & -> & E & H1 & Ho & H2 & Hq1 & Hq2 & Hg & H3).
  pose proof (head_not_quote w1 w2 o H1 Ho H2) as HU.
  assert (HV : all (fun c => negb (is_quote c)) ("version" ++ o2) = true).
  { rewrite all_app. exact Ho2. }
  assert (Hgoal : forall g' q' rest,
             g' <> "" -> all not_quote g' = true -> is_quote q' = true ->
             b ++ "version" ++ o1 ++ String c1 X1 =
             declaration w1 o w2 q1 g' q' ++ rest ->
             declaration_at is_operator
               (b ++ "version" ++ o1 ++ String c1 X1) <> None).
  { intros g' q' rest Hg' Hn' Hq' ->.
    rewrite declaration_at_intro by auto using operator_not_space.
    discriminate. }
  assert (E' : (b ++ "version" ++ o2) ++ String c2 X2 =
               ("version" ++ w1 ++ String o w2) ++
               String q1 (g ++ String q2 r)).
  { transitivity (b ++ "version" ++ o2 ++ String c2 X2);
      [now rewrite !app_assoc | rewrite E; flatten; reflexivity]. }
  clear E.
  apply (quote_split is_quote) in E' as [(E & _)|(a' & E & E')]; auto.
  - now apply version_not_suffix in E.
  - destruct (quote_inside is_quote _ _ _ _ _ HV Hq1 E) as (b' & Eb & ->).
    clear E.
    apply (quote_split is_quote) in E' as [(E & <- & _)|(a'' & E & _)]; auto.
    + (* [b] ends in the value *)
      assert (Hb' : all not_quote b' = true).
      { rewrite <- E, all_app in H3. now apply andb_true_iff in H3. }
      apply (Hgoal (b' ++ "version" ++ o1) c1 X1); auto.
      * destruct b'; discriminate.
      * rewrite !all_app, Hb', Ho1. reflexivity.
      * rewrite Eb. flatten. reflexivity.
    + (* the whole match is in [b] *)
      destruct (quote_inside is_quote _ _ _ _ _ HV Hq2 E) as (b3 & -> & _).
      apply (Hgoal g q2 (b3 ++ "version" ++ o1 ++ String c1 X1)); auto.
      rewrite Eb. flatten. reflexivity.
Qed.

End RegexFacts.

(** ** The library module *)

Module ModFacts.
Import Js JsFacts Regex RegexFacts Mod.

(** *** Valid versions *)

Lemma version_or_space_plain (c : ascii) :
  Semver.version_or_space c = true -> Design.plain c = true.
Proof.
  destruct c as [[] [] [] [] [] [] [] []]; vm_compute; congruence.
Qed.

(** A valid version is not empty and holds no quote, dollar, equals sign
    or comma. *)
Lemma valid_plain (v : string) :
  isValidSemver v = true -> all Design.plain v = true /\ v <> "".
Proof.
  unfold isValidSemver, Semver.valid, Semver.parse.
  destruct (Semver.construct v) as [a|e] eqn:E; simpl; [|discriminate].
  intros _. split.
  - apply (all_impl Semver.version_or_space);
      [apply version_or_space_plain|].
    apply (SemverFacts.construct_chars v a E).
  - intros ->. vm_compute in E. discriminate.
Qed.

Lemma plain_has (c : ascii) (s : string) :
  Design.plain c = false -> all Design.plain s = true ->
  has (Ascii.eqb c) s = false.
Proof. apply SemverFacts.all_has. Qed.

Lemma plain_not_dquote (s : string) :
  all Design.plain s = true -> all not_dquote s = true.
Proof.
  apply all_impl. intros c.
  destruct c as [[] [] [] [] [] [] [] []]; vm_compute; congruence.
Qed.

Lemma plain_not_quote (s : string) :
  all Design.plain s = true -> all not_quote s = true.
Proof.
  apply all_impl. intros c.
  destruct c as [[] [] [] [] [] [] [] []]; vm_compute; congruence.
Qed.

(** *** Replacement templates *)

Lemma substitution_plain (pre : string) (m : matched) (post t : string) :
  has (Ascii.eqb "$") t = false -> substitution pre m post t = t.
Proof.
  induction t as [|c t IH]; cbn [substitution has]; [reflexivity|].
  rewrite orb_false_iff. intros [Hc Ht].
  rewrite Ascii.eqb_sym, Hc. cbn [negb]. now rewrite IH.
Qed.

Lemma template_plain (v : string) :
  all Design.plain v = true ->
  has (Ascii.eqb "$") (q "version" ++ ": " ++ q v) = false.
Proof.
  intros Hv. unfold q, DQ. rewrite !has_app. simpl.
  rewrite (plain_has "$" v eq_refl Hv). reflexivity.
Qed.

(** *** The manifest *)

(** The update of a manifest rewrites the leftmost version member and
    nothing else, and the leftmost version member of the result is the
    rewritten one. *)
Lemma update_package_json (content pre : string) (m : matched)
    (post v : string) :
  exec packageJson_at content = Some (pre, m, post) ->
  all Design.plain v = true -> v <> "" ->
  content = pre ++ text m ++ post /\
  updateVersionInContent content v package_json =
    Ok (pre ++ member "" " " v ++ post) /\
  exec packageJson_at (pre ++ member "" " " v ++ post) =
    Some (pre, mkMatched (member "" " " v) [Some v], post).
Proof.
  intros He Hv Hne.
  pose proof He as Hi. apply exec_inv in Hi as (t & -> & Ht & _).
  pose proof Ht as Hm.
  apply packageJson_at_inv in Hm as (w1 & w2 & g & -> & -> & H1 & H2 & Hg & H3).
  assert (Hnew : packageJson_at (member "" " " v ++ post) =
                 Some (mkMatched (member "" " " v) [Some v], post)).
  { apply packageJson_at_intro; auto using plain_not_dquote. }
  split; [reflexivity|]. split.
  - unfold updateVersionInContent, replace_template. rewrite He.
    rewrite substitution_plain by now apply template_plain.
    f_equal.
  - apply (exec_replaced _ _ _ _ _ _ _ _ He Hnew).
    intros b Hb.
    replace (member "" " " v ++ post)
      with (q "version" ++ (":" ++ " " ++ q v ++ post))
      by (unfold member; now rewrite !app_assoc).
    replace (member w1 w2 g ++ post)
      with (q "version" ++ (w1 ++ ":" ++ w2 ++ q g ++ post))
      by (unfold member; now rewrite !app_assoc).
    now apply packageJson_shift.
Qed.

(** *** Source files *)

Lemma typescript_replacement_shape (v mt : string) :
  typescript_replacement v mt =
  declaration "" (operator_of mt) " " (delimiter_of mt) v (delimiter_of mt)
  ++ comma_of mt.
Proof. unfold typescript_replacement. flatten. reflexivity. Qed.

Lemma operator_of_operator (mt : string) :
  is_operator (operator_of mt) = true.
Proof. unfold operator_of. destruct (includes_char mt "="); reflexivity. Qed.

Lemma delimiter_of_quote (mt : string) : is_quote (delimiter_of mt) = true.
Proof.
  unfold delimiter_of. destruct (includes_char mt dquote); reflexivity.
Qed.

Lemma typescript_at_some (s : string) :
  typescript_at s <> None <-> declaration_at is_operator s <> None.
Proof.
  rewrite typescript_at_first.
  destruct (declaration_at is_operator s) as [[[t g] r]|];
    split; congruence.
Qed.

(** The update of a source file rewrites the leftmost declaration and
    nothing else, and the leftmost declaration of the result is the
    rewritten one. *)
Lemma update_typescript (content pre : string) (m : matched)
    (post v : string) :
  exec typescript_at content = Some (pre, m, post) ->
  all Design.plain v = true -> v <> "" ->
  let o := operator_of (text m) in
  let d := delimiter_of (text m) in
  let R := declaration "" o " " d v d in
  content = pre ++ text m ++ post /\
  updateVersionInContent content v typescript =
    Ok (pre ++ R ++ comma_of (text m) ++ post) /\
  exec typescript_at (pre ++ R ++ comma_of (text m) ++ post) =
    Some (pre, mkMatched R [Some v; None], comma_of (text m) ++ post).
Proof.
  intros He Hv Hne o d R.
  pose proof He as Hi. apply exec_inv in Hi as (t & -> & Ht & _).
  pose proof Ht as Hm. rewrite typescript_at_first in Hm.
  destruct (declaration_at is_operator t) as [[[tx g] r]|] eqn:Hd;
    [|discriminate].
  injection Hm as <- ->.
  apply declaration_at_inv in Hd
    as (w1 & o1 & w2 & q1 & q2 & -> & -> & H1 & Ho & H2 & Hq1 & Hq2 & Hg & H3).
  cbn [text] in *.
  set (mt := declaration w1 o1 w2 q1 g q2) in *.
  assert (Hnew : typescript_at (R ++ comma_of mt ++ post) =
                 Some (mkMatched R [Some v; None], comma_of mt ++ post)).
  { rewrite typescript_at_first. unfold R, o, d.
    rewrite declaration_at_intro; try reflexivity;
      auto using operator_of_operator, delimiter_of_quote,
                 operator_not_space, plain_not_quote. }
  split; [reflexivity|]. split.
  - unfold updateVersionInContent, replace_function. rewrite He.
    cbn [text]. fold mt. rewrite typescript_replacement_shape.
    fold o d R. now rewrite !app_assoc.
  - apply (exec_replaced _ _ _ _ _ _ _ _ He Hnew).
    intros b Hb. rewrite !typescript_at_some.
    replace (R ++ comma_of mt ++ post)
      with ("version" ++ String o " " ++
            String d (v ++ String d (comma_of mt ++ post)))
      by (unfold R; flatten; reflexivity).
    replace (mt ++ post)
      with ("version" ++ (w1 ++ String o1 w2) ++
            String q1 (g ++ String q2 post))
      by (unfold mt; flatten; reflexivity).
    unfold o, d.
    apply declaration_shift; auto using delimiter_of_quote.
    + rewrite all_app. simpl.
      rewrite (all_impl _ _ w1 space_not_quote H1).
      rewrite (all_impl _ _ w2 space_not_quote H2).
      now rewrite operator_not_quote.
    + simpl. now rewrite operator_not_quote by apply operator_of_operator.
Qed.

(** The pieces of a rewritten declaration are those it was made of. *)
Lemma rewritten_pieces (mt v : string) :
  all Design.plain v = true ->
  let R := declaration "" (operator_of mt) " " (delimiter_of mt) v
                       (delimiter_of mt) in
  operator_of R = operator_of mt /\ delimiter_of R = delimiter_of mt /\
  comma_of R = "".
Proof.
  intros Hv R. unfold R, operator_of, delimiter_of, comma_of, includes_char.
  unfold declaration, char.
  repeat first [rewrite has_app | progress cbn [has String.append]].
  rewrite (plain_has "=" v eq_refl Hv), (plain_has "," v eq_refl Hv).
  rewrite (plain_has dquote v eq_refl Hv).
  destruct (has (Ascii.eqb "=") mt), (has (Ascii.eqb dquote) mt);
    repeat split; reflexivity.
Qed.

(** *** Extraction after an update *)

Lemma extract_package_json (content pre : string) (m : matched)
    (post : string) :
  exec packageJson_at content = Some (pre, m, post) ->
  extractVersion content package_json = group m 1.
Proof. intros H. unfold extractVersion. now rewrite H. Qed.

Lemma extract_typescript (content pre : string) (m : matched)
    (post : string) :
  exec typescript_at content = Some (pre, m, post) ->
  extractVersion content typescript = nullish (group m 1) (group m 2).
Proof. intros H. unfold extractVersion. now rewrite H. Qed.

Lemma extract_some (content : string) (fileType : FileType) (old : string) :
  extractVersion content fileType = Some old ->
  (fileType = package_json /\
   exists pre m post, exec packageJson_at content = Some (pre, m, post)) \/
  (fileType = typescript /\
   exists pre m post, exec typescript_at content = Some (pre, m, post)).
Proof.
  destruct fileType; simpl; [| |discriminate].
  - destruct (exec packageJson_at content) as [[[pre m] post]|];
      [|discriminate]. intros _. left. eauto.
  - destruct (exec typescript_at content) as [[[pre m] post]|];
      [|discriminate]. intros _. right. eauto.
Qed.

(** Extraction after an update gives the new version. *)
Lemma extract_updated (content newVersion : string) (fileType : FileType)
    (old : string) :
  extractVersion content fileType = Some old ->
  all Design.plain newVersion = true -> newVersion <> "" ->
  exists updated,
    updateVersionInContent content newVersion fileType = Ok updated /\
    extractVersion updated fileType = Some newVersion.
Proof.
  intros Hold Hv Hne.
  destruct (extract_some _ _ _ Hold)
    as [(-> & pre & m & post & He)|(-> & pre & m & post & He)].
  - destruct (update_package_json _ _ _ _ _ He Hv Hne) as (_ & Hu & Hx).
    eexists. split; [exact Hu|].
    now rewrite (extract_package_json _ _ _ _ Hx).
  - destruct (update_typescript _ _ _ _ _ He Hv Hne) as (_ & Hu & Hx).
    eexists. split; [exact Hu|].
    now rewrite (extract_typescript _ _ _ _ Hx).
Qed.

(** An update of its own result changes nothing. *)
Lemma update_updated (content v : string) (fileType : FileType)
    (updated : string) :
  all Design.plain v = true -> v <> "" ->
  updateVersionInContent content v fileType = Ok updated ->
  updateVersionInContent updated v fileType = Ok updated.
Proof.
  intros Hv Hne Hup. destruct fileType; [| |discriminate].
  - destruct (exec packageJson_at content) as [[[pre m] post]|] eqn:He.
    + destruct (update_package_json _ _ _ _ _ He Hv Hne) as (_ & Hu & Hx).
      assert (updated = pre ++ member "" " " v ++ post) as ->
        by congruence.
      unfold updateVersionInContent, replace_template. rewrite Hx.
      rewrite substitution_plain by now apply template_plain.
      reflexivity.
    + unfold updateVersionInContent, replace_template in Hup.
      rewrite He in Hup. assert (updated = content) as -> by congruence.
      unfold updateVersionInContent, replace_template. now rewrite He.
  - destruct (exec typescript_at content) as [[[pre m] post]|] eqn:He.
    + destruct (update_typescript _ _ _ _ _ He Hv Hne) as (_ & Hu & Hx).
      rewrite Hu in Hup. clear Hu.
      unfold updateVersionInContent, replace_function.
      assert (E : forall x y : string, Ok x = Ok y -> y = x) by congruence.
      rewrite (E _ _ Hup), Hx.
      cbn [text]. rewrite typescript_replacement_shape.
      destruct (rewritten_pieces (text m) v Hv) as (-> & -> & ->).
      now rewrite app_nil_r.
    + unfold updateVersionInContent, replace_function in Hup.
      rewrite He in Hup. assert (updated = content) as -> by congruence.
      unfold updateVersionInContent, replace_function. now rewrite He.
Qed.

(** *** All the declarations of a source file *)

Lemma declaration_length (w1 : string) (o : ascii) (w2 : string)
    (q1 : ascii) (g : string) (q2 : ascii) :
  (0 < String.length (declaration w1 o w2 q1 g q2))%nat.
Proof. unfold declaration. simpl. lia. Qed.

Lemma typescript_at_inv (s : string) (m : matched) (r : string) :
  typescript_at s = Some (m, r) ->
  exists g, captures m = [Some g; None] /\ s = text m ++ r /\
            (0 < String.length (text m))%nat.
Proof.
  rewrite typescript_at_first.
  destruct (declaration_at is_operator s) as [[[t g] r']|] eqn:E;
    [|discriminate].
  intros [= <- <-].
  apply declaration_at_inv in E as (w1 & o & w2 & q1 & q2 & -> & -> & _).
  exists g. repeat split. apply declaration_length.
Qed.

Lemma exec_typescript_inv (s pre : string) (m : matched) (post : string) :
  exec typescript_at s = Some (pre, m, post) ->
  exists g, captures m = [Some g; None] /\
            (String.length post < String.length s)%nat.
Proof.
  intros (t & -> & Ht & _)%exec_inv.
  apply typescript_at_inv in Ht as (g & Hc & -> & Hl).
  exists g. split; [exact Hc|]. rewrite !app_length. lia.
Qed.

(** With enough fuel the list of the declared versions is the same. *)
Lemma declared_versions_fuel_enough (f1 f2 : nat) (s : string) :
  (String.length s <= f1)%nat -> (String.length s <= f2)%nat ->
  Design.declared_versions_fuel f1 s = Design.declared_versions_fuel f2 s.
Proof.
  revert f2 s. induction f1 as [|f1 IH]; intros f2 s H1 H2.
  - destruct s; simpl in H1; [|lia]. destruct f2; reflexivity.
  - destruct f2 as [|f2].
    + destruct s; simpl in H2; [|lia]. reflexivity.
    + simpl.
      destruct (exec typescript_at s) as [[[pre m] post]|] eqn:He;
        [|reflexivity].
      destruct (exec_typescript_inv _ _ _ _ He) as (g & _ & Hl).
      rewrite (IH f2 post) by lia. reflexivity.
Qed.

Lemma declared_versions_exec (s pre : string) (m : matched) (post g : string) :
  exec typescript_at s = Some (pre, m, post) ->
  captures m = [Some g; None] ->
  Design.declared_versions s = g :: Design.declared_versions post.
Proof.
  intros He Hc. unfold Design.declared_versions.
  destruct (exec_typescript_inv _ _ _ _ He) as (_ & _ & Hl).
  destruct (String.length s) as [|n] eqn:Hn; [lia|].
  simpl. rewrite He. unfold nullish, group, capture. rewrite Hc. simpl.
  f_equal. apply declared_versions_fuel_enough; lia.
Qed.

Lemma declared_versions_none (s : string) :
  exec typescript_at s = None -> Design.declared_versions s = [].
Proof.
  intros He. unfold Design.declared_versions.
  destruct (String.length s); simpl; [reflexivity | now rewrite He].
Qed.

(** A comma before a text declares nothing. *)
Lemma declared_versions_comma (s : string) :
  Design.declared_versions ("," ++ s) = Design.declared_versions s.
Proof.
  destruct (exec typescript_at s) as [[[pre m] post]|] eqn:He.
  - destruct (exec_typescript_inv _ _ _ _ He) as (g & Hc & _).
    rewrite (declared_versions_exec s pre m post g He Hc).
    apply (declared_versions_exec _ (String "," pre) m post g); [|exact Hc].
    simpl. now rewrite He.
  - rewrite (declared_versions_none s He).
    apply declared_versions_none. simpl. now rewrite He.
Qed.

Lemma comma_of_cases (mt : string) : comma_of mt = "" \/ comma_of mt = ",".
Proof. unfold comma_of. destruct (includes_char mt ","); auto. Qed.

(** The update of a source file gives the new version to the first
    declaration and leaves the declarations after it as they are. *)
Lemma declared_versions_updated (content v : string) :
  all Design.plain v = true -> v <> "" ->
  Design.declared_versions content <> [] ->
  exists updated,
    updateVersionInContent content v typescript = Ok updated /\
    Design.declared_versions updated =
    v :: tl (Design.declared_versions content).
Proof.
  intros Hv Hne Hd.
  destruct (exec typescript_at content) as [[[pre m] post]|] eqn:He;
    [|now rewrite declared_versions_none in Hd].
  destruct (exec_typescript_inv _ _ _ _ He) as (g & Hc & _).
  destruct (update_typescript _ _ _ _ _ He Hv Hne) as (_ & Hu & Hx).
  eexists. split; [exact Hu|].
  rewrite (declared_versions_exec _ _ _ _ v Hx eq_refl).
  rewrite (declared_versions_exec _ _ _ _ g He Hc). simpl. f_equal.
  destruct (comma_of_cases (text m)) as [->| ->]; [reflexivity|].
  apply declared_versions_comma.
Qed.

(** *** Analysis *)

Lemma fold_snoc_map {A B} (g : A -> B) (l : list A) (acc : list B) :
  fold_left (fun results x => (results ++ [g x])%list) l acc =
  (acc ++ map g l)%list.
Proof.
  revert acc. induction l as [|x l IH]; intros acc; simpl.
  - now rewrite List.app_nil_r.
  - now rewrite IH, <- List.app_assoc.
Qed.

Lemma analyzeFiles_map (fs : gmap string Fs.node) (files : list string)
    (referenceVersion : string) :
  analyzeFiles fs files referenceVersion =
  map (analyzeFile fs referenceVersion) files.
Proof. unfold analyzeFiles. now rewrite fold_snoc_map. Qed.

(** An extracted version is not empty. *)
Lemma extract_nonempty (content : string) (fileType : FileType)
    (found : string) :
  extractVersion content fileType = Some found -> found <> "".
Proof.
  intros H. destruct (extract_some _ _ _ H)
    as [(-> & pre & m & post & He)|(-> & pre & m & post & He)].
  - rewrite (extract_package_json _ _ _ _ He) in H.
    apply exec_inv in He as (t & _ & Ht & _).
    apply packageJson_at_inv in Ht as (w1 & w2 & g & -> & _ & _ & _ & Hg & _).
    injection H as <-. exact Hg.
  - rewrite (extract_typescript _ _ _ _ He) in H.
    apply exec_inv in He as (t & _ & Ht & _).
    rewrite typescript_at_first in Ht.
    destruct (declaration_at is_operator t) as [[[tx g] r]|] eqn:Hd;
      [|discriminate].
    injection Ht as <- _.
    apply declaration_at_inv in Hd
      as (w1 & o & w2 & q1 & q2 & _ & _ & _ & _ & _ & _ & _ & Hg & _).
    injection H as <-. exact Hg.
Qed.

(** *** The loop of bumpVersion *)

Lemma writeFile_other (fs fs' : gmap string Fs.node) (f data g : string) :
  Fs.writeFile fs f data = Ok fs' -> g <> f -> fs' !! g = fs !! g.
Proof.
  unfold Fs.writeFile. intros H Hg.
  destruct (fs !! f) as [n|].
  - destruct (Fs.write_error n); [discriminate|].
    injection H as <-. now rewrite lookup_insert_ne.
  - injection H as <-. now rewrite lookup_insert_ne.
Qed.

(** A round of the loop leaves the other files alone. *)
Lemma bumpFile_other (newVersion : string) (dryRun : bool) (st : BumpState)
    (f g : string) :
  g <> f ->
  files_now (bumpFile newVersion dryRun st f) !! g = files_now st !! g.
Proof.
  intros Hg. unfold bumpFile, record_result.
  destruct (Fs.readFile (files_now st) f) as [content|e]; [|reflexivity].
  destruct (detectFileType f content); try reflexivity;
    (destruct (negb (truthy (extractVersion content _))); [reflexivity|];
     destruct (updateVersionInContent content newVersion _) as [u|e];
       [|reflexivity];
     destruct dryRun; [reflexivity|];
     destruct (Fs.writeFile (files_now st) f u) as [fs'|e] eqn:Hw;
       [|reflexivity];
     simpl; now apply (writeFile_other _ _ _ _ _ Hw)).
Qed.

(** A dry round of the loop leaves all the files alone. *)
Lemma bumpFile_dry (newVersion : string) (st : BumpState) (f : string) :
  files_now (bumpFile newVersion true st f) = files_now st.
Proof.
  unfold bumpFile, record_result.
  destruct (Fs.readFile (files_now st) f) as [content|e]; [|reflexivity].
  destruct (detectFileType f content); try reflexivity;
    (destruct (negb (truthy (extractVersion content _))); [reflexivity|];
     destruct (updateVersionInContent content newVersion _) as [u|e];
       reflexivity).
Qed.

(** What a round of the loop does depends on the file it is given only:
    in two states that hold the same at [f], it adds the same results
    and leaves the same at [f]. *)
Lemma bumpFile_local (newVersion : string) (dryRun : bool)
    (st st' : BumpState) (f : string) :
  files_now st !! f = files_now st' !! f ->
  exists R,
    updateResults (bumpFile newVersion dryRun st f) =
      (updateResults st ++ R)%list /\
    updateResults (bumpFile newVersion dryRun st' f) =
      (updateResults st' ++ R)%list /\
    files_now (bumpFile newVersion dryRun st f) !! f =
      files_now (bumpFile newVersion dryRun st' f) !! f.
Proof.
  intros E. unfold bumpFile, record_result, Fs.readFile, Fs.writeFile.
  rewrite <- E.
  assert (Hnil : forall l : list UpdateResult, l = (l ++ [])%list)
    by (intros; now rewrite List.app_nil_r).
  destruct (files_now st !! f) as [n|] eqn:En.
  - destruct (Fs.read_error n) as [e|]; simpl.
    { eexists. repeat split; congruence. }
    destruct (detectFileType f (Fs.content n)).
    3: { exists []. repeat split; auto; congruence. }
    all: destruct (negb (truthy (extractVersion (Fs.content n) _)));
      [exists []; repeat split; auto; congruence|].
    all: destruct (updateVersionInContent (Fs.content n) newVersion _)
      as [u|e]; [|eexists; repeat split; simpl; congruence].
    all: destruct dryRun; [eexists; repeat split; simpl; congruence|].
    all: destruct (Fs.write_error n) as [e|];
      [eexists; repeat split; simpl; congruence|].
    all: eexists; repeat split; simpl; now rewrite ?lookup_insert_eq.
  - simpl. eexists. repeat split; congruence.
Qed.

Lemma bumpFile_alone (newVersion : string) (dryRun : bool)
    (fs : gmap string Fs.node) (st : BumpState) (f : string) :
  files_now st !! f = fs !! f ->
  let alone := bumpFile newVersion dryRun (mkBumpState fs [] []) f in
  updateResults (bumpFile newVersion dryRun st f) =
    (updateResults st ++ updateResults alone)%list /\
  files_now (bumpFile newVersion dryRun st f) !! f = files_now alone !! f.
Proof.
  intros E alone.
  destruct (bumpFile_local newVersion dryRun st (mkBumpState fs [] []) f E)
    as (R & H1 & H2 & H3).
  simpl in H2. unfold alone. now rewrite H1, H2, H3.
Qed.

(** The loop over files that are all different: every file is dealt
    with as if it were alone. *)
Lemma bumpFiles_alone (newVersion : string) (dryRun : bool)
    (fs : gmap string Fs.node) (l : list string) (st : BumpState) :
  NoDup l ->
  (forall f, In f l -> files_now st !! f = fs !! f) ->
  let alone f := bumpFile newVersion dryRun (mkBumpState fs [] []) f in
  let st' := fold_left (bumpFile newVersion dryRun) l st in
  updateResults st' =
    (updateResults st ++ flat_map (fun f => updateResults (alone f)) l)%list /\
  (forall f, In f l -> files_now st' !! f = files_now (alone f) !! f) /\
  (forall f, ~ In f l -> files_now st' !! f = files_now st !! f).
Proof.
  intros Hnd. revert st. induction Hnd as [|x l Hx Hnd IH]; intros st Hst.
  - simpl. rewrite List.app_nil_r. repeat split; auto. intros f [].
  - simpl.
    destruct (bumpFile_alone newVersion dryRun fs st x) as [Hr Hf];
      [apply Hst; now left|].
    destruct (IH (bumpFile newVersion dryRun st x)) as (IH1 & IH2 & IH3).
    { intros f Hin. rewrite bumpFile_other.
      - apply Hst. now right.
      - intros ->. apply Hx. now apply list_elem_of_In. }
    split; [|split].
    + rewrite IH1, Hr. now rewrite <- List.app_assoc.
    + intros f [<-|Hin].
      * rewrite IH3; [exact Hf|]. intros Hin. apply Hx.
        now apply list_elem_of_In.
      * now apply IH2.
    + intros f Hn. rewrite IH3 by (intros Hin; apply Hn; now right).
      apply bumpFile_other. intros ->. apply Hn. now left.
Qed.

Lemma bumpFiles_dry (newVersion : string) (l : list string) (st : BumpState) :
  files_now (fold_left (bumpFile newVersion true) l st) = files_now st.
Proof.
  revert st. induction l as [|x l IH]; intros st; simpl; [reflexivity|].
  now rewrite IH, bumpFile_dry.
Qed.

Lemma check_failures_cases (results : list UpdateResult) :
  let failures := List.filter (fun r => negb (success r)) results in
  (failures = [] -> check_failures results = Ok tt) /\
  (failures <> [] ->
   check_failures results =
   Throw (Error ("failed to update version in files: " ++
                 join ", " (map failure_text failures)))).
Proof.
  unfold check_failures.
  destruct (List.filter (fun r => negb (success r)) results); simpl; split;
    congruence.
Qed.

End ModFacts.

(** ** The implementation module of the CLI *)

Module ImplFacts.
Import Js JsFacts Impl.

(** *** Filters *)

Lemma add_filter_spec (filePatterns : list string) (filter : string) :
  add_filter filePatterns filter =
  (filePatterns ++
   if blank filter then [] else [glob_of_filter (trim filter)])%list.
Proof.
  unfold add_filter, blank, glob_of_filter. rewrite !includes_one.
  destruct (String.eqb (trim filter) ""); [now rewrite List.app_nil_r|].
  destruct (includes_char (trim filter) "*"),
           (includes_char (trim filter) "?"),
           (includes_char (trim filter) "/"),
           (includes_char (trim filter) "\"),
           (includes_char (trim filter) "."); reflexivity.
Qed.

Lemma add_filters (bumpFilter acc : list string) :
  fold_left add_filter bumpFilter acc =
  (acc ++ map (fun f => glob_of_filter (trim f))
            (List.filter (fun f => negb (blank f)) bumpFilter))%list.
Proof.
  revert acc. induction bumpFilter as [|f l IH]; intros acc; simpl.
  - now rewrite List.app_nil_r.
  - rewrite IH, add_filter_spec.
    destruct (blank f); simpl.
    + now rewrite List.app_nil_r.
    + now rewrite <- List.app_assoc.
Qed.

(** *** Failures of single files *)

Lemma relinka_returns (level message : string) (w : World) :
  relinka level message w =
  (Ok tt, mkWorld (files w) (messages w ++ [(level, message)])%list).
Proof. reflexivity. Qed.

(** The task of a file returns, whatever happens to the file. *)
Lemma bumpFile_returns `{Host} (oldVersion newVersion : string)
    (dryRun : bool) (modifiedFiles : list string) (file : string)
    (w : World) :
  exists modifiedFiles' w',
    bumpFile oldVersion newVersion dryRun modifiedFiles file w =
    (Ok modifiedFiles', w').
Proof.
  unfold bumpFile, try_catch.
  match goal with |- context [match ?m w with _ => _ end] =>
    destruct (m w) as [[l|e] w'] end.
  - now exists l, w'.
  - unfold bind, relinka, ret. simpl. eauto.
Qed.

Lemma bumpFiles_returns `{Host} (oldVersion newVersion : string)
    (dryRun : bool) (matchedFiles modifiedFiles : list string) (w : World) :
  exists modifiedFiles' w',
    bumpFiles oldVersion newVersion dryRun modifiedFiles matchedFiles w =
    (Ok modifiedFiles', w').
Proof.
  revert modifiedFiles w.
  induction matchedFiles as [|f l IH]; intros mf w; simpl.
  - unfold ret. eauto.
  - unfold bind.
    destruct (bumpFile_returns oldVersion newVersion dryRun mf f w)
      as (mf' & w' & ->).
    apply IH.
Qed.

(** Making the ignore list returns and leaves the world as it is. *)
Lemma ignorePatterns_returns `{Host} (w : World) :
  exists ignore, ignorePatterns w = (Ok ignore, w).
Proof.
  unfold ignorePatterns, try_catch, bind, pathExists, fs_readFile, ret.
  destruct (Fs.pathExists (files w) (path_join PROJECT_ROOT ".gitignore")).
  - destruct (Fs.readFile (files w) (path_join PROJECT_ROOT ".gitignore"));
      eauto.
  - eauto.
Qed.

Lemma summary_returns (oldVersion newVersion : string) (dryRun : bool)
    (modifiedFiles : list string) (w : World) :
  exists w', summary oldVersion newVersion dryRun modifiedFiles w =
             (Ok tt, w').
Proof.
  unfold summary.
  destruct (Nat.ltb 0 (List.length modifiedFiles)); rewrite relinka_returns;
    eauto.
Qed.


(** A version that is returned by [autoIncrementVersion] is not the one
    it was given. *)
Lemma autoIncrementVersion_other (oldVersion : string) (bumpMode : BumpMode)
    (incremented : string) :
  autoIncrementVersion oldVersion bumpMode = Ok incremented ->
  incremented <> oldVersion.
Proof.
  unfold autoIncrementVersion.
  destruct (Semver.valid oldVersion); [|discriminate].
  destruct (Semver.inc oldVersion (releaseTypeMap bumpMode)) as [t|] eqn:Hi;
    [|discriminate].
  intros [= <-]. exact (SemverFacts.inc_other _ _ _ Hi).
Qed.

(** *** Dry runs

    The dry-run flag reaches the messages only: a dry run and the run
    itself read and write the same files. *)

Lemma similar_ret {A} (a : A) : Design.similar (ret a) (ret a).
Proof. intros w1 w2 Hw. split; [reflexivity | exact Hw]. Qed.

Lemma similar_throw {A} (e : error) : Design.similar (@throw A e) (throw e).
Proof. intros w1 w2 Hw. split; [reflexivity | exact Hw]. Qed.

Lemma similar_bind {A B} (m1 m2 : M A) (k1 k2 : A -> M B) :
  Design.similar m1 m2 -> (forall a, Design.similar (k1 a) (k2 a)) ->
  Design.similar (bind m1 k1) (bind m2 k2).
Proof.
  intros Hm Hk w1 w2 Hw. unfold bind.
  destruct (Hm w1 w2 Hw) as [Hr Hf].
  destruct (m1 w1) as [[a1|e1] w1'], (m2 w2) as [[a2|e2] w2'];
    simpl in Hr, Hf; try discriminate.
  - injection Hr as <-. now apply Hk.
  - injection Hr as <-. split; [reflexivity | exact Hf].
Qed.

Lemma similar_try_catch {A} (m1 m2 : M A) (h1 h2 : error -> M A) :
  Design.similar m1 m2 -> (forall e, Design.similar (h1 e) (h2 e)) ->
  Design.similar (try_catch m1 h1) (try_catch m2 h2).
Proof.
  intros Hm Hh w1 w2 Hw. unfold try_catch.
  destruct (Hm w1 w2 Hw) as [Hr Hf].
  destruct (m1 w1) as [[a1|e1] w1'], (m2 w2) as [[a2|e2] w2'];
    simpl in Hr, Hf; try discriminate.
  - split; [exact Hr | exact Hf].
  - injection Hr as <-. now apply Hh.
Qed.

Lemma similar_relinka (l1 s1 l2 s2 : string) :
  Design.similar (relinka l1 s1) (relinka l2 s2).
Proof. intros w1 w2 Hw. split; [reflexivity | exact Hw]. Qed.

Lemma similar_silent (l s : string) : Design.similar (ret tt) (relinka l s).
Proof. intros w1 w2 Hw. split; [reflexivity | exact Hw]. Qed.

Lemma similar_reads {A} (f : gmap string Fs.node -> result A) :
  Design.similar (fun w => (f (files w), w)) (fun w => (f (files w), w)).
Proof. intros w1 w2 Hw. simpl. rewrite Hw. split; [reflexivity | exact Hw]. Qed.

Lemma similar_writeFile (path data : string) :
  Design.similar (fs_writeFile path data) (fs_writeFile path data).
Proof.
  intros w1 w2 Hw. unfold fs_writeFile. rewrite Hw.
  destruct (Fs.writeFile (files w2) path data); split; auto.
Qed.

Lemma similar_readFileSafe (filePath reason : string) :
  Design.similar (readFileSafe filePath reason) (readFileSafe filePath reason).
Proof.
  apply similar_try_catch.
  - apply (similar_reads (fun fs => Fs.readFile fs filePath)).
  - intros e. apply similar_bind; [apply similar_relinka|].
    intros _. apply similar_throw.
Qed.

Lemma similar_writeFileSafe (filePath content reason : string) :
  Design.similar (writeFileSafe filePath content reason)
          (writeFileSafe filePath content reason).
Proof.
  apply similar_try_catch.
  - apply similar_writeFile.
  - intros e. apply similar_bind; [apply similar_relinka|].
    intros _. apply similar_throw.
Qed.

Lemma similar_updateVersionInContent `{Host}
    (filePath content oldVersion newVersion : string) :
  Design.similar (updateVersionInContent filePath content oldVersion newVersion)
          (updateVersionInContent filePath content oldVersion newVersion).
Proof.
  unfold updateVersionInContent.
  match goal with |- context [let '(_, _) := ?p in _] =>
    destruct p as [updatedContent changed] end.
  destruct changed; [|apply similar_ret].
  apply similar_bind; [apply similar_writeFileSafe|].
  intros _. apply similar_ret.
Qed.

Lemma similar_bumpFile `{Host} (oldVersion newVersion : string)
    (modifiedFiles : list string) (file : string) :
  Design.similar (bumpFile oldVersion newVersion false modifiedFiles file)
          (bumpFile oldVersion newVersion true modifiedFiles file).
Proof.
  apply similar_try_catch.
  - apply similar_bind;
      [apply (similar_reads (fun fs => Ok (Fs.pathExists fs file)))|].
    intros present. destruct present; simpl; [|apply similar_ret].
    apply similar_bind; [apply similar_readFileSafe|]. intros content.
    apply similar_bind; [apply similar_updateVersionInContent|].
    intros modified. destruct modified; [|apply similar_ret].
    apply similar_bind; [apply similar_silent|].
    intros _. apply similar_ret.
  - intros e. apply similar_bind; [apply similar_relinka|].
    intros _. apply similar_ret.
Qed.

Lemma similar_bumpFiles `{Host} (oldVersion newVersion : string)
    (matchedFiles modifiedFiles : list string) :
  Design.similar (bumpFiles oldVersion newVersion false modifiedFiles matchedFiles)
          (bumpFiles oldVersion newVersion true modifiedFiles matchedFiles).
Proof.
  revert modifiedFiles.
  induction matchedFiles as [|file rest IH]; intros modifiedFiles; simpl.
  - apply similar_ret.
  - apply similar_bind; [apply similar_bumpFile|]. intros l. apply IH.
Qed.

Lemma similar_ignorePatterns `{Host} : Design.similar ignorePatterns ignorePatterns.
Proof.
  apply similar_try_catch; [|intros _; apply similar_ret].
  apply similar_bind;
    [apply (similar_reads (fun fs => Ok (Fs.pathExists fs _)))|].
  intros present. destruct present; [|apply similar_ret].
  apply similar_bind;
    [apply (similar_reads (fun fs => Fs.readFile fs _))|].
  intros c. apply similar_ret.
Qed.

Lemma similar_summary (oldVersion newVersion : string)
    (modifiedFiles : list string) :
  Design.similar (summary oldVersion newVersion false modifiedFiles)
          (summary oldVersion newVersion true modifiedFiles).
Proof.
  unfold summary. destruct (Nat.ltb 0 (List.length modifiedFiles));
    apply similar_relinka.
Qed.

Lemma similar_bumpVersions `{Host} (oldVersion newVersion : string)
    (bumpFilter : list string) :
  Design.similar (bumpVersions oldVersion newVersion bumpFilter false)
          (bumpVersions oldVersion newVersion bumpFilter true).
Proof.
  apply similar_try_catch.
  - apply similar_bind; [apply similar_ignorePatterns|]. intros ignore.
    apply similar_bind;
      [apply (similar_reads
                (fun fs => glob (filePatterns bumpFilter) ignore fs))|].
    intros matchedFiles.
    apply similar_bind; [apply similar_bumpFiles|]. intros l.
    apply similar_summary.
  - intros e. apply similar_bind; [apply similar_relinka|].
    intros _. apply similar_throw.
Qed.

Lemma similar_bumpHandler `{Host} (bumpMode : BumpMode) (bumpDisable : bool)
    (bumpFilter : list string) :
  Design.similar (bumpHandler bumpMode bumpDisable bumpFilter false)
          (bumpHandler bumpMode bumpDisable bumpFilter true).
Proof.
  unfold bumpHandler. destruct bumpDisable; [apply similar_relinka|].
  apply similar_bind;
    [apply (similar_reads (fun fs => Ok (Fs.pathExists fs _)))|].
  intros present. destruct present; simpl; [|apply similar_throw].
  apply similar_bind;
    [apply (similar_reads (fun fs => readPackageJSON_version fs))|].
  intros version. destruct (negb (truthy version)); [apply similar_throw|].
  destruct (Semver.valid (default "" version)); [|apply similar_throw].
  apply similar_bind; [apply similar_relinka|]. intros _.
  destruct (autoIncrementVersion (default "" version) bumpMode) as [v|e];
    [|apply similar_throw].
  unfold bump_if_changed.
  destruct (negb (String.eqb (default "" version) v));
    [apply similar_bumpVersions | apply similar_relinka].
Qed.

(** A dry run does to the files what the run itself does. *)
Lemma dry_run_same_files `{Host} (bumpMode : BumpMode) (bumpDisable : bool)
    (bumpFilter : list string) (w : World) :
  let real := bumpHandler bumpMode bumpDisable bumpFilter false w in
  let dry := bumpHandler bumpMode bumpDisable bumpFilter true w in
  fst dry = fst real /\ files (snd dry) = files (snd real).
Proof.
  intros real dry.
  destruct (similar_bumpHandler bumpMode bumpDisable bumpFilter w w eq_refl)
    as [Hr Hf].
  split; symmetry; assumption.
Qed.

End ImplFacts.

(** ** Runs of the library module *)

Module RunFacts.
Import Js JsFacts Regex RegexFacts Mod ModFacts.

(** A dry run leaves the files as they are. *)
Lemma bumpVersion_dry_run `{Host} (fs : gmap string Fs.node)
    (bumpType : BumpMode) (files : list string) (options : BumpOptions)
    (globs : list string) (bumpSet : option string) :
  dryRun options = true ->
  files_now (final (bumpVersion fs bumpType files options globs bumpSet))
  = fs.
Proof.
  intros Hdry. unfold bumpVersion.
  destruct (getCurrentVersion fs) as [currentVersion|e]; [|reflexivity].
  destruct (calculateNewVersion currentVersion bumpType
              (customVersion options) bumpSet) as [newVersion|e];
    [|reflexivity].
  simpl. rewrite Hdry. apply bumpFiles_dry.
Qed.

Lemma test_exec (at_start : string -> option (matched * string))
    (s : string) :
  test at_start s = true <->
  exists pre m post, exec at_start s = Some (pre, m, post).
Proof.
  unfold test. destruct (exec at_start s) as [[[pre m] post]|]; split.
  - eauto.
  - reflexivity.
  - discriminate.
  - intros (? & ? & ? & ?). discriminate.
Qed.

(** An update keeps the type of the file. *)
Lemma detect_updated (f content v updated : string) :
  all Design.plain v = true -> v <> "" ->
  updateVersionInContent content v (detectFileType f content) = Ok updated ->
  detectFileType f updated = detectFileType f content.
Proof.
  intros Hv Hne. unfold detectFileType.
  destruct (endsWith f "package.json"); [reflexivity|].
  destruct (endsWith f ".ts" || endsWith f ".js"); simpl;
    [|discriminate].
  destruct (test typescript_at content) eqn:Ht; [|discriminate].
  apply test_exec in Ht as (pre & m & post & He).
  destruct (update_typescript _ _ _ _ _ He Hv Hne) as (_ & Hu & Hx).
  rewrite Hu. intros Hup.
  assert (E : forall x y : string, Ok x = Ok y -> y = x) by congruence.
  rewrite (E _ _ Hup).
  assert (Ht : test typescript_at
                 (pre ++ declaration "" (operator_of (text m)) " "
                    (delimiter_of (text m)) v (delimiter_of (text m)) ++
                  comma_of (text m) ++ post) = true)
    by (apply test_exec; eauto).
  now rewrite Ht.
Qed.

Lemma writeFile_same (fs : gmap string Fs.node) (f u : string) :
  Fs.readFile fs f = Ok u ->
  Fs.writeFile fs f u = Ok fs \/ exists e, Fs.writeFile fs f u = Throw e.
Proof.
  unfold Fs.readFile, Fs.writeFile.
  destruct (fs !! f) as [n|] eqn:En; [|discriminate].
  destruct n as [c re we]. simpl.
  destruct re; [discriminate|]. intros [= ->].
  destruct we; [right; eauto|]. left. f_equal. now apply insert_id.
Qed.

Lemma core_char_plain (c : ascii) :
  Semver.core_char c = true -> Design.plain c = true.
Proof.
  destruct c as [[] [] [] [] [] [] [] []]; vm_compute; congruence.
Qed.

(** The version that [calculateNewVersion] returns is not empty and holds
    no quote, dollar, equals sign or comma. *)
Lemma calculated_plain (current : string) (bumpType : BumpMode)
    (customVersion bumpSet : option string) (v : string) :
  calculateNewVersion current bumpType customVersion bumpSet = Ok v ->
  all Design.plain v = true /\ v <> "".
Proof.
  assert (Hinc : forall r, match Semver.inc current r with
                           | Some t => Ok t
                           | None => Throw (Error ("failed to bump version "
                               ++ current ++ " with type " ++
                               bumpType_name bumpType))
                           end = Ok v ->
                 all Design.plain v = true /\ v <> "").
  { intros r. unfold Semver.inc.
    destruct (Semver.parse current) as [a|]; [|discriminate]. simpl.
    rewrite SemverFacts.format_plain by apply SemverFacts.inc_semver_plain.
    intros [= <-]. split.
    - apply (all_impl Semver.core_char); [apply core_char_plain|].
      apply SemverFacts.core_chars.
    - unfold Semver.core.
      destruct (Semver.of_number _); discriminate. }
  destruct bumpType; simpl; try apply Hinc.
  destruct (truthy bumpSet).
  - destruct (isValidSemver (default "" bumpSet)) eqn:Hv; [|discriminate].
    simpl. intros [= <-]. now apply valid_plain.
  - destruct (truthy customVersion); [|discriminate]. simpl.
    destruct (isValidSemver (default "" customVersion)) eqn:Hv;
      [|discriminate].
    simpl. intros [= <-]. now apply valid_plain.
Qed.

(** A file that a round of the loop has dealt with is left as it is by
    another round for the same version, in every state that holds the
    file as the round left it. *)
Lemma bumpFile_rests (v : string) (st st' : BumpState) (f : string) :
  all Design.plain v = true -> v <> "" ->
  files_now st' !! f = files_now (bumpFile v false st f) !! f ->
  files_now (bumpFile v false st' f) = files_now st'.
Proof.
  intros Hv Hne. unfold bumpFile at 1, record_result.
  assert (Hsame : forall u, files_now st' !! f = files_now st !! f ->
            Fs.readFile (files_now st) f = Ok u ->
            Fs.readFile (files_now st') f = Ok u /\
            forall d, (exists e, Fs.writeFile (files_now st) f d = Throw e) ->
                      exists e, Fs.writeFile (files_now st') f d = Throw e).
  { intros u E. unfold Fs.readFile, Fs.writeFile. rewrite E.
    intros Hu. split; [exact Hu|]. intros d [e He].
    destruct (files_now st !! f) as [n|]; [|discriminate].
    destruct (Fs.write_error n); [eauto | discriminate]. }
  destruct (Fs.readFile (files_now st) f) as [content|e] eqn:Hr.
  - destruct (detectFileType f content) eqn:Ht.
    1,2: destruct (negb (truthy (extractVersion content _))) eqn:Hx.
    1,3,5: intros E; cbn [files_now] in E; destruct (Hsame content E eq_refl) as [Hr' _];
      unfold bumpFile, record_result; rewrite Hr', Ht, ?Hx; reflexivity.
    all: destruct (updateVersionInContent content v _) as [u|e] eqn:Hu;
      [|discriminate].
    all: simpl; destruct (Fs.writeFile (files_now st) f u) as [fs'|e] eqn:Hw.
    2,4: intros E; cbn [files_now] in E; destruct (Hsame content E eq_refl) as [Hr' Hw'];
      destruct (Hw' u (ex_intro _ e Hw)) as [e' He'];
      unfold bumpFile, record_result; rewrite Hr', Ht, Hx, Hu; simpl;
      rewrite He'; reflexivity.
    all: intros E; cbn [files_now] in E.
    all: assert (Hn : fs' !! f = Some (Fs.mkNode u None None))
      by (revert Hr Hw; unfold Fs.readFile, Fs.writeFile;
          destruct (files_now st !! f) as [n|]; [|discriminate];
          destruct n as [c re we]; simpl; destruct re; [discriminate|];
          destruct we; [discriminate|]; intros _ [= <-];
          now rewrite lookup_insert_eq).
    all: rewrite Hn in E.
    all: assert (Hr' : Fs.readFile (files_now st') f = Ok u)
      by (unfold Fs.readFile; now rewrite E).
    all: rewrite <- Ht in Hu.
    all: pose proof (detect_updated f content v u Hv Hne Hu) as Hd.
    all: rewrite Ht in Hu, Hd.
    all: pose proof (update_updated _ _ _ _ Hv Hne Hu) as Hu'.
    all: unfold bumpFile, record_result; rewrite Hr', Hd.
    all: destruct (negb (truthy (extractVersion u _))); [reflexivity|].
    all: rewrite Hu'; simpl.
    all: unfold Fs.writeFile; rewrite E; simpl.
    all: now rewrite insert_id.
  - intros E. cbn [files_now] in E.
    assert (Hr' : exists e', Fs.readFile (files_now st') f = Throw e').
    { revert Hr. unfold Fs.readFile. rewrite E.
      destruct (files_now st !! f) as [n|]; [|eauto].
      destruct (Fs.read_error n); [eauto | discriminate]. }
    destruct Hr' as [e' Hr']. unfold bumpFile, record_result.
    now rewrite Hr'.
Qed.

(** The loop leaves alone the files that are not in its list. *)
Lemma bumpFiles_other (v : string) (dryRun : bool) (l : list string)
    (st : BumpState) (g : string) :
  ~ In g l ->
  files_now (fold_left (bumpFile v dryRun) l st) !! g = files_now st !! g.
Proof.
  revert st. induction l as [|x l IH]; intros st Hg; simpl; [reflexivity|].
  rewrite IH by (intros H; apply Hg; now right).
  apply bumpFile_other. intros ->. apply Hg. now left.
Qed.

(** After the loop, every file of its list is left as it is by another
    round for the same version. *)
Lemma bumpFiles_rest (v : string) (l : list string) (st st' : BumpState)
    (f : string) :
  all Design.plain v = true -> v <> "" -> In f l ->
  files_now st' !! f = files_now (fold_left (bumpFile v false) l st) !! f ->
  files_now (bumpFile v false st' f) = files_now st'.
Proof.
  intros Hv Hne. revert st.
  induction l as [|x l IH]; intros st Hin; [destruct Hin|]. simpl.
  destruct (in_dec string_dec f l) as [Hl|Hl]; [now apply IH|].
  destruct Hin as [->|Hin]; [|contradiction].
  rewrite bumpFiles_other by exact Hl.
  now apply bumpFile_rests.
Qed.

(** A loop over files that its rounds leave as they are changes no
    file. *)
Lemma bumpFiles_still (v : string) (dryRun : bool) (l : list string)
    (fs : gmap string Fs.node) (st : BumpState) :
  (forall f st', In f l -> files_now st' = fs ->
                 files_now (bumpFile v dryRun st' f) = fs) ->
  files_now st = fs ->
  files_now (fold_left (bumpFile v dryRun) l st) = fs.
Proof.
  revert st. induction l as [|x l IH]; intros st H Hst; simpl; [exact Hst|].
  apply IH.
  - intros f st' Hin. apply H. now right.
  - apply H; [now left | exact Hst].
Qed.

(** A second run of [bumpVersion] to the version of the first changes no
    file. *)
Lemma bumpVersion_again `{Host} (fs : gmap string Fs.node)
    (bumpType bumpType2 : BumpMode) (files : list string)
    (options : BumpOptions) (globs : list string) (bumpSet : option string)
    (c1 c2 target : string) :
  let fs1 :=
    files_now (final (bumpVersion fs bumpType files options globs bumpSet)) in
  getCurrentVersion fs = Ok c1 ->
  calculateNewVersion c1 bumpType (customVersion options) bumpSet
  = Ok target ->
  getCurrentVersion fs1 = Ok c2 ->
  calculateNewVersion c2 bumpType2 (customVersion options) bumpSet
  = Ok target ->
  files_now (final (bumpVersion fs1 bumpType2 files options globs bumpSet))
  = fs1.
Proof.
  intros fs1 Hc1 Ht1 Hc2 Ht2.
  destruct (dryRun options) eqn:Hdry; [now apply bumpVersion_dry_run|].
  destruct (calculated_plain _ _ _ _ _ Ht1) as [Hv Hne].
  unfold bumpVersion at 1. rewrite Hc2, Ht2. cbn [final]. rewrite Hdry.
  apply bumpFiles_still; [|reflexivity].
  intros f st' Hin Hst'. rewrite <- Hst'.
  apply (bumpFiles_rest target
           (List.filter (fun file => matchesGlobs file globs) files)
           (mkBumpState fs [] []) st' f Hv Hne Hin).
  rewrite Hst'. unfold fs1, bumpVersion. rewrite Hc1, Ht1. cbn [final].
  now rewrite Hdry.
Qed.

(** In manual mode the version does not depend on the current one. *)
Lemma manual_any (c1 c2 : string) (customVersion bumpSet : option string) :
  calculateNewVersion c1 manual customVersion bumpSet =
  calculateNewVersion c2 manual customVersion bumpSet.
Proof. reflexivity. Qed.

End RunFacts.

(** * The claims *)

(** C10. In manual mode a configured bumpSet goes before the customVersion
    of the caller: when bumpSet is a string that is not empty,
    calculateNewVersion returns it if it is a valid version and throws if
    it is not, whatever customVersion is; customVersion is used, and
    validated, only when bumpSet is absent; when both are absent the call
    throws the error of the missing target. *)
Theorem manual_target_precedence (current : string)
    (customVersion bumpSet : option string) :
  (Js.truthy bumpSet = true ->
   forall target, bumpSet = Some target ->
     (Mod.calculateNewVersion current Mod.manual customVersion bumpSet =
      if Mod.isValidSemver target then Ok target
      else Throw (Error ("invalid bumpSet version: " ++ target))) /\
     forall other,
       Mod.calculateNewVersion current Mod.manual other bumpSet =
       Mod.calculateNewVersion current Mod.manual customVersion bumpSet) /\
  (Js.truthy bumpSet = false -> Js.truthy customVersion = true ->
   forall target, customVersion = Some target ->
     Mod.calculateNewVersion current Mod.manual customVersion bumpSet =
     if Mod.isValidSemver target then Ok target
     else Throw (Error ("invalid custom version: " ++ target))) /\
  (Js.truthy bumpSet = false -> Js.truthy customVersion = false ->
   Mod.calculateNewVersion current Mod.manual customVersion bumpSet =
   Throw (Error
     "either bumpSet (in reliverse.ts) or --customVersion required when bumpType is 'manual'")).
Proof.
  unfold Mod.calculateNewVersion. split; [|split].
  - intros Hb target ->. rewrite Hb. simpl. split.
    + now destruct (Mod.isValidSemver target).
    + reflexivity.
  - intros Hb Hc target ->. rewrite Hb, Hc. simpl.
    now destruct (Mod.isValidSemver target).
  - intros Hb Hc. now rewrite Hb, Hc.
Qed.

Lemma manual_target_precedence_witness :
  Mod.calculateNewVersion "1.0.0" Mod.manual (Some "3.0.0") (Some "2.0.0")
  = Ok "2.0.0" /\
  Mod.calculateNewVersion "1.0.0" Mod.manual (Some "3.0.0") None
  = Ok "3.0.0" /\
  Mod.calculateNewVersion "1.0.0" Mod.manual None (Some "")
  = Throw (Error
      "either bumpSet (in reliverse.ts) or --customVersion required when bumpType is 'manual'").
Proof.
  split; [|split].
  - exact (proj1 (proj1 (manual_target_precedence "1.0.0" (Some "3.0.0")
                           (Some "2.0.0")) eq_refl "2.0.0" eq_refl)).
  - exact (proj1 (proj2 (manual_target_precedence "1.0.0" (Some "3.0.0")
                           None)) eq_refl eq_refl "3.0.0" eq_refl).
  - exact (proj2 (proj2 (manual_target_precedence "1.0.0" None (Some "")))
             eq_refl eq_refl).
Defined.

(** C9. The glob patterns that bumpVersions makes of its filters: an empty
    list of filters gives the pattern of the manifest alone; otherwise
    every filter that is not blank gives one pattern, in order, made of
    the trimmed filter: the filter itself when it holds a wildcard
    character, the filter after the recursive-directory prefix when it
    holds a path separator or a dot, and the filter between that prefix
    and the any-extension suffix when it is a bare name. Filters that come
    trimmed and not empty, as the command line passes them, are translated
    as they are. *)
Theorem filter_translation (bumpFilter : list string) :
  (bumpFilter = [] -> Impl.filePatterns bumpFilter = ["**/package.json"]) /\
  (bumpFilter <> [] ->
   Impl.filePatterns bumpFilter =
   map (fun filter => Impl.glob_of_filter (Js.trim filter))
       (List.filter (fun filter => negb (Impl.blank filter)) bumpFilter)) /\
  (bumpFilter <> [] ->
   Forall (fun filter => Js.trim filter = filter /\ filter <> EmptyString)
          bumpFilter ->
   Impl.filePatterns bumpFilter = map Impl.glob_of_filter bumpFilter).
Proof.
  assert (Hloop : bumpFilter <> [] ->
                  Impl.filePatterns bumpFilter =
                  fold_left Impl.add_filter bumpFilter []).
  { intros Hne. unfold Impl.filePatterns.
    destruct bumpFilter as [|f l]; [contradiction | reflexivity]. }
  split; [|split].
  - intros ->. reflexivity.
  - intros Hne. rewrite (Hloop Hne). apply (ImplFacts.add_filters bumpFilter []).
  - intros Hne Hall. rewrite (Hloop Hne), (ImplFacts.add_filters bumpFilter []).
    simpl. clear Hne Hloop.
    induction Hall as [|f l [Ht Hf] _ IH]; [reflexivity|].
    simpl. unfold Impl.blank at 1. rewrite Ht.
    apply String.eqb_neq in Hf. rewrite Hf. simpl. now rewrite Ht, IH.
Qed.

Lemma filter_translation_witness :
  [" src/version.ts "; "*.json"; "version"; "  "] <> [] /\
  Impl.filePatterns [" src/version.ts "; "*.json"; "version"; "  "] =
  ["**/src/version.ts"; "*.json"; "**/version.*"].
Proof.
  split; [discriminate|].
  exact (proj1 (proj2 (filter_translation
                         [" src/version.ts "; "*.json"; "version"; "  "]))
           ltac:(discriminate)).
Defined.

(** C7. Extraction after an update gives the new version: for a content
    with a version that extractVersion finds for the file type, and a new
    version that is a valid semantic version, updateVersionInContent
    returns a content from which extractVersion returns the new version. *)
Theorem extract_after_update (content newVersion : string)
    (fileType : Mod.FileType) (old : string) :
  Mod.extractVersion content fileType = Some old ->
  Mod.isValidSemver newVersion = true ->
  exists updated,
    Mod.updateVersionInContent content newVersion fileType = Ok updated /\
    Mod.extractVersion updated fileType = Some newVersion.
Proof.
  intros Hold Hvalid. destruct (ModFacts.valid_plain _ Hvalid) as [Hv Hne].
  exact (ModFacts.extract_updated content newVersion fileType old Hold Hv Hne).
Qed.

Lemma extract_after_update_witness :
  Mod.extractVersion "export const version = '1.2.3';" Mod.typescript
  = Some "1.2.3" /\
  Mod.isValidSemver "1.2.4" = true /\
  exists updated,
    Mod.updateVersionInContent "export const version = '1.2.3';" "1.2.4"
                               Mod.typescript = Ok updated /\
    Mod.extractVersion updated Mod.typescript = Some "1.2.4".
Proof.
  split; [reflexivity|]. split; [reflexivity|].
  exact (extract_after_update "export const version = '1.2.3';" "1.2.4"
           Mod.typescript "1.2.3" eq_refl eq_refl).
Defined.

(** C5, as the code has it. For a valid version and the modes patch,
    minor and major (autoPatch, autoMinor and autoMajor in the CLI
    module), the increment returns MAJOR.MINOR.PATCH without prerelease
    tag and without build. Its three numbers are those of the version with
    the component of the mode one higher and the components below it
    zero; except for a version that has a prerelease tag and nothing but
    zeros below the component of the mode, whose three numbers come back
    as they are: in every case the components above the one of the mode
    are kept and those below it are zero. Unless the component that is raised is the greatest safe
    integer, the result is a valid version that is strictly greater than
    the version; when it is, the result is not a valid version. *)
Theorem increment_of_version (v : string) (a : Semver.SemVer)
    (release : Semver.ReleaseType) (customVersion bumpSet : option string) :
  Semver.parse v = Some a ->
  exists M m p,
    Design.after a release = (M, m, p) /\
    Mod.calculateNewVersion v (Design.mod_mode release) customVersion bumpSet
    = Ok (Semver.core M m p) /\
    Impl.autoIncrementVersion v (Design.impl_mode release)
    = Ok (Semver.core M m p) /\
    (Semver.prerelease a = [] -> (M, m, p) = Design.incremented a release) /\
    match release with
    | Semver.major_release => m = 0 /\ p = 0
    | Semver.minor_release => M = Semver.major a /\ p = 0
    | Semver.patch_release => M = Semver.major a /\ m = Semver.minor a
    end%N /\
    Design.component (Semver.mkSemVer M m p [] []) release =
    (if Design.raises a release then Design.component a release + 1
     else Design.component a release)%N /\
    ((Design.raises a release = true ->
      (Design.component a release < Semver.MAX_SAFE_INTEGER)%N) ->
     Semver.parse (Semver.core M m p) = Some (Semver.mkSemVer M m p [] []) /\
     Semver.compare (Semver.core M m p) v = Ok Gt) /\
    (Design.raises a release = true ->
     Design.component a release = Semver.MAX_SAFE_INTEGER ->
     Semver.parse (Semver.core M m p) = None).
Proof.
  intros Hv.
  destruct (Design.after a release) as [[M m] p] eqn:Ha.
  exists M, m, p. split; [reflexivity|].
  pose proof (SemverFacts.inc_after v a release M m p Hv Ha) as Hinc.
  pose proof (proj1 (SemverFacts.construct_parse v a) Hv) as Hc.
  destruct (SemverFacts.construct_bounds v a Hc) as (BM & Bm & Bp).
  split; [|split; [|split; [|split; [|split; [|split]]]]].
  - destruct release; simpl; now rewrite Hinc.
  - unfold Impl.autoIncrementVersion, Semver.valid. rewrite Hv. simpl.
    destruct release; simpl; now rewrite Hinc.
  - intros Hpre. unfold Design.after, Design.raises in Ha.
    rewrite Hpre in Ha. now symmetry.
  - exact (proj1 (SemverFacts.after_shape a release M m p Ha)).
  - exact (proj2 (SemverFacts.after_shape a release M m p Ha)).
  - intros Hr.
    destruct (SemverFacts.after_bounds a release M m p BM Bm Bp Hr Ha)
      as (B1 & B2 & B3).
    pose proof (SemverFacts.construct_core M m p B1 B2 B3) as Hk.
    split; [now apply SemverFacts.construct_parse|].
    unfold Semver.compare. rewrite Hk, Hc. f_equal.
    rewrite <- (SemverFacts.inc_semver_greater a release).
    pose proof (SemverFacts.inc_semver_after a release) as E.
    rewrite Ha in E. unfold Design.numbers in E. injection E as E1 E2 E3.
    apply SemverFacts.compare_semver_build; simpl; auto.
    symmetry. apply SemverFacts.inc_semver_plain.
  - intros Hr Hmax.
    destruct (Semver.parse (Semver.core M m p)) as [b|] eqn:Hb;
      [|reflexivity].
    apply SemverFacts.construct_parse, SemverFacts.construct_core_inv
      in Hb as (_ & B1 & B2 & B3).
    unfold Design.after in Ha. rewrite Hr in Ha.
    unfold Semver.MAX_SAFE_INTEGER in *.
    destruct release; simpl in *; injection Ha as <- <- <-; lia.
Qed.

Lemma increment_of_version_witness :
  Mod.calculateNewVersion "1.2.3-alpha" Mod.minor None None = Ok "1.3.0" /\
  Impl.autoIncrementVersion "1.2.3-alpha" Impl.autoMinor = Ok "1.3.0" /\
  Semver.compare "1.3.0" "1.2.3-alpha" = Ok Gt.
Proof.
  destruct (increment_of_version "1.2.3-alpha"
              (Semver.mkSemVer 1 2 3 [Semver.Alpha "alpha"] [])
              Semver.minor_release None None eq_refl)
    as (M & m & p & Ha & H1 & H2 & _ & _ & _ & H3 & _).
  injection Ha as <- <- <-.
  split; [exact H1|]. split; [exact H2|].
  apply H3. intros _. reflexivity.
Defined.

(** A version with a prerelease tag: the patch increment of 1.2.3-alpha is
    1.2.3, whose patch number is the one of the version. *)
Lemma increment_of_prerelease :
  Mod.calculateNewVersion "1.2.3-alpha" Mod.patch None None = Ok "1.2.3" /\
  Impl.autoIncrementVersion "1.2.3-alpha" Impl.autoPatch = Ok "1.2.3" /\
  Semver.parse "1.2.3-alpha" =
    Some (Semver.mkSemVer 1 2 3 [Semver.Alpha "alpha"] []) /\
  Semver.parse "1.2.3" = Some (Semver.mkSemVer 1 2 3 [] []) /\
  Design.numbers (Semver.mkSemVer 1 2 3 [] []) <>
  Design.incremented (Semver.mkSemVer 1 2 3 [Semver.Alpha "alpha"] [])
                     Semver.patch_release.
Proof. repeat split; try reflexivity. discriminate. Qed.

(** C6, as the code has it. getLatestVersion returns null exactly when its
    list holds no valid version without prerelease tag; otherwise it
    returns a version of the list that is valid and without prerelease
    tag, and no valid version of the list without prerelease tag is
    greater. *)
Theorem latest_version_spec (versions : list string) :
  (Mod.getLatestVersion versions = None <->
   forall v, In v versions -> Semver.satisfies_any v = false) /\
  (forall latest,
     Mod.getLatestVersion versions = Some latest ->
     In latest versions /\ Semver.satisfies_any latest = true /\
     forall v, In v versions -> Semver.satisfies_any v = true ->
               Semver.compare v latest = Ok Lt \/
               Semver.compare v latest = Ok Eq).
Proof.
  assert (Hvalid : forall v, Semver.satisfies_any v = true ->
                             Mod.isValidSemver v = true).
  { intros v (sv & Hp & _)%SemverFacts.satisfies_any_iff.
    unfold Mod.isValidSemver, Semver.valid. now rewrite Hp. }
  assert (Hlatest : Mod.getLatestVersion versions =
                    Semver.maxSatisfying_any
                      (List.filter Mod.isValidSemver versions)).
  { unfold Mod.getLatestVersion.
    destruct (List.filter Mod.isValidSemver versions); reflexivity. }
  rewrite Hlatest. unfold Semver.maxSatisfying_any.
  pose proof (SemverFacts.best_all (List.filter Mod.isValidSemver versions))
    as Hb.
  destruct (fold_left Semver.maxSatisfying_step
              (List.filter Mod.isValidSemver versions) None)
    as [[mx msv]|]; simpl in *.
  - destruct Hb as (Hin & Hmx & Hpre & Hmax).
    apply filter_In in Hin as [Hin _].
    assert (Hsat : Semver.satisfies_any mx = true)
      by (apply SemverFacts.satisfies_any_iff; eauto).
    split.
    + split; [discriminate|]. intros Hnone.
      rewrite (Hnone mx Hin) in Hsat. discriminate.
    + intros latest [= <-]. split; [exact Hin|]. split; [exact Hsat|].
      intros v Hv Hs. pose proof Hs as Hs'.
      apply SemverFacts.satisfies_any_iff in Hs' as (sv & Hp & Hsp).
      assert (Hc : Semver.compare v mx = Ok (Semver.compareMain sv msv)).
      { unfold Semver.compare.
        apply SemverFacts.construct_parse in Hp, Hmx. rewrite Hp, Hmx.
        now rewrite SemverFacts.compare_semver_plain. }
      rewrite Hc.
      assert (Hle : Semver.compareMain sv msv <> Gt).
      { apply (Hmax v sv); auto. apply filter_In. auto. }
      destruct (Semver.compareMain sv msv); auto. congruence.
  - split.
    + split; [|reflexivity]. intros _ v Hv.
      destruct (Semver.satisfies_any v) eqn:Hs; [|reflexivity].
      rewrite <- Hs. apply Hb, filter_In. auto.
    + intros latest [=].
Qed.

Lemma latest_version_spec_witness :
  Mod.getLatestVersion ["1.0.0"; "v1.5.0"; "0.9.0"] = Some "v1.5.0" /\
  In "v1.5.0" ["1.0.0"; "v1.5.0"; "0.9.0"] /\
  Semver.satisfies_any "v1.5.0" = true.
Proof.
  split; [reflexivity|].
  destruct (proj2 (latest_version_spec ["1.0.0"; "v1.5.0"; "0.9.0"])
              "v1.5.0" eq_refl) as (H1 & H2 & _).
  split; assumption.
Defined.

(** Prerelease versions: a list whose only valid version has a prerelease
    tag gives null, and a prerelease version that is the greatest of the
    list is not returned. *)
Lemma latest_ignores_prerelease :
  Mod.isValidSemver "1.0.0-alpha" = true /\
  Mod.getLatestVersion ["1.0.0-alpha"] = None /\
  Mod.getLatestVersion ["1.0.0"; "2.0.0-beta"] = Some "1.0.0" /\
  Semver.compare "2.0.0-beta" "1.0.0" = Ok Gt.
Proof. repeat split; reflexivity. Qed.

(** C8, as the code has it. analyzeFiles never throws and returns one
    result per file, in the order of the files. A file that cannot be read
    is not supported, with the read error as the reason; a file of an
    unrecognized type is not supported, with the reason of the unsupported
    file type; a recognized file in which no version is found is not
    supported, with the reason that no version field was found; a file
    whose version and the reference version are valid and not equal as
    semantic versions has a version mismatch and stays supported; when one
    of the two is not a valid version the comparison throws, and the file
    is not supported, without mismatch, with a read error as the reason. *)
Theorem analyzeFiles_spec (fs : gmap string Fs.node) (files : list string)
    (referenceVersion : string) :
  Mod.analyzeFiles fs files referenceVersion =
    map (Mod.analyzeFile fs referenceVersion) files /\
  forall file,
    let r := Mod.analyzeFile fs referenceVersion file in
    Mod.file r = file /\
    (forall e, Fs.readFile fs file = Throw e ->
       Mod.supported r = false /\
       Mod.reason r = "read error: " ++ error_string e) /\
    (forall content, Fs.readFile fs file = Ok content ->
       let fileType := Mod.detectFileType file content in
       (fileType = Mod.unknown ->
        Mod.supported r = false /\ Mod.reason r = "unsupported file type") /\
       (fileType <> Mod.unknown ->
        Mod.extractVersion content fileType = None ->
        Mod.supported r = false /\ Mod.reason r = "no version field found") /\
       (forall found,
          fileType <> Mod.unknown ->
          Mod.extractVersion content fileType = Some found ->
          match Semver.eq found referenceVersion with
          | Ok false =>
              Mod.versionMismatch r = true /\ Mod.supported r = true
          | Ok true =>
              Mod.versionMismatch r = false /\ Mod.supported r = true
          | Throw e =>
              Mod.versionMismatch r = false /\ Mod.supported r = false /\
              Mod.reason r = "read error: " ++ error_string e
          end)).
Proof.
  split; [apply ModFacts.analyzeFiles_map|].
  intros file r. subst r. unfold Mod.analyzeFile.
  destruct (Fs.readFile fs file) as [content|e].
  - split.
    { destruct (Mod.detectFileType file content); simpl;
        repeat match goal with
               | |- context [match ?x with _ => _ end] => destruct x
               end; reflexivity. }
    split; [discriminate|].
    intros ? [= <-]. cbv zeta.
    destruct (Mod.detectFileType file content) eqn:Ht.
    3: { repeat split; congruence. }
    all: split; [discriminate|]; split.
    all: try (intros _ ->; split; reflexivity).
    all: intros found _ Hf; rewrite Hf;
      pose proof (ModFacts.extract_nonempty _ _ _ Hf) as Hne;
      destruct found as [|c found]; [contradiction|];
      destruct (Semver.eq (String c found) referenceVersion) as [[]|e];
      repeat split; reflexivity.
  - split; [reflexivity|]. split; [|discriminate].
    intros ? [= <-]. split; reflexivity.
Qed.

Lemma analyzeFiles_spec_witness :
  Mod.versionMismatch
    (Mod.analyzeFile Scenario.library_files "1.0.0" "package.json") = true /\
  Mod.supported
    (Mod.analyzeFile Scenario.library_files "1.0.0" "package.json") = true.
Proof.
  destruct (analyzeFiles_spec Scenario.library_files ["package.json"] "1.0.0")
    as [_ H].
  destruct (H "package.json") as (_ & _ & Hc).
  destruct (Hc (Scenario.manifest "1.2.3") eq_refl) as (_ & _ & Hf).
  exact (Hf "1.2.3" ltac:(discriminate) eq_refl).
Defined.

(** A manifest whose version is not a semantic version: the version that
    is found differs from the reference version, and the file is reported
    as not supported, without mismatch, with a read error. *)
Lemma invalid_version_is_read_error :
  Fs.readFile Scenario.odd_files "package.json" = Ok (Scenario.manifest "abc") /\
  Mod.detectFileType "package.json" (Scenario.manifest "abc")
  = Mod.package_json /\
  Mod.extractVersion (Scenario.manifest "abc") Mod.package_json = Some "abc" /\
  "abc" <> "1.0.0" /\
  Mod.analyzeFiles Scenario.odd_files ["package.json"] "1.0.0" =
  [Mod.mkFileAnalysis "package.json" false None false
     "read error: TypeError: Invalid Version: abc" Mod.unknown].
Proof. repeat split; try reflexivity. discriminate. Qed.

(** C3, as the code has it. For a source content with a version
    declaration and a valid new version, updateVersionInContent rewrites
    the leftmost declaration and nothing else: the text before it and the
    text after it are kept, the first declaration of the result carries
    the new version, and every later declaration carries the version it
    had. *)
Theorem first_declaration_rewritten (content newVersion : string) :
  Design.declared_versions content <> [] ->
  Mod.isValidSemver newVersion = true ->
  exists pre m post updated,
    Regex.exec Regex.typescript_at content = Some (pre, m, post) /\
    content = pre ++ Regex.text m ++ post /\
    Mod.updateVersionInContent content newVersion Mod.typescript
    = Ok updated /\
    updated =
      pre ++ Mod.typescript_replacement newVersion (Regex.text m) ++ post /\
    Design.declared_versions updated =
      newVersion :: tl (Design.declared_versions content).
Proof.
  intros Hd Hvalid. destruct (ModFacts.valid_plain _ Hvalid) as [Hv Hne].
  destruct (Regex.exec Regex.typescript_at content) as [[[pre m] post]|] eqn:He;
    [|now rewrite ModFacts.declared_versions_none in Hd].
  destruct (ModFacts.update_typescript _ _ _ _ _ He Hv Hne) as (Hc & Hu & _).
  destruct (ModFacts.declared_versions_updated content newVersion Hv Hne Hd)
    as (updated & Hu' & Hdv).
  exists pre, m, post, updated. repeat split; auto.
  rewrite Hu in Hu'. rewrite ModFacts.typescript_replacement_shape.
  rewrite JsFacts.app_assoc. congruence.
Qed.

Lemma first_declaration_rewritten_witness :
  Design.declared_versions (Scenario.two_declarations "1.0.0") <> [] /\
  Mod.isValidSemver "1.1.0" = true /\
  exists updated,
    Mod.updateVersionInContent (Scenario.two_declarations "1.0.0") "1.1.0"
                               Mod.typescript = Ok updated /\
    Design.declared_versions updated = ["1.1.0"; "1.0.0"].
Proof.
  split; [discriminate|]. split; [reflexivity|].
  destruct (first_declaration_rewritten (Scenario.two_declarations "1.0.0")
              "1.1.0" ltac:(discriminate) eq_refl)
    as (pre & m & post & updated & _ & _ & Hu & _ & Hd).
  exists updated. split; [exact Hu | exact Hd].
Defined.

(** A source file with two declarations at 1.0.0: after the update to
    1.1.0 the second declaration is still at 1.0.0. *)
Lemma second_declaration_left :
  exists updated,
    Mod.updateVersionInContent (Scenario.two_declarations "1.0.0") "1.1.0"
                               Mod.typescript = Ok updated /\
    Design.declared_versions (Scenario.two_declarations "1.0.0")
    = ["1.0.0"; "1.0.0"] /\
    Design.declared_versions updated = ["1.1.0"; "1.0.0"] /\
    ~ Forall (fun v => v = "1.1.0") (Design.declared_versions updated).
Proof.
  eexists. split; [vm_compute; reflexivity|].
  split; [vm_compute; reflexivity|]. split; [vm_compute; reflexivity|].
  intros H. vm_compute in H.
  apply Forall_inv_tail, Forall_inv in H. discriminate.
Qed.

(** C4, as the code has it. In the CLI module the new version is never
    the current one: for a manifest with a valid version, bumpHandler
    computes a version that differs from it and runs the batch
    bumpVersions on the files it was started on, so its branch for an
    unchanged version is never taken. In the library module bumpVersion
    has no check for an unchanged version; but a second run to the version
    of a first run, started on the files that the first run left, changes
    no file, whatever the first run did to each file (wrote it, skipped
    it, or failed on it). In manual mode, where the version is the target
    that is given, this holds for every second run with the arguments of
    the first. *)
Theorem same_version_runs `{HM : Mod.Host} `{HI : Impl.Host} :
  (forall bumpMode bumpFilter dryRun w oldVersion,
     Fs.pathExists (Impl.files w) (Impl.path_resolve "package.json") = true ->
     Impl.readPackageJSON_version (Impl.files w) = Ok (Some oldVersion) ->
     Mod.isValidSemver oldVersion = true ->
     exists incremented w',
       Impl.autoIncrementVersion oldVersion bumpMode = Ok incremented /\
       incremented <> oldVersion /\
       Impl.files w' = Impl.files w /\
       Impl.bumpHandler bumpMode false bumpFilter dryRun w =
       Impl.bumpVersions oldVersion incremented bumpFilter dryRun w') /\
  (forall fs bumpType files options globs bumpSet,
     let first := Mod.bumpVersion fs bumpType files options globs bumpSet in
     let fs1 := Mod.files_now (Mod.final first) in
     (bumpType = Mod.manual ->
      Mod.files_now
        (Mod.final (Mod.bumpVersion fs1 Mod.manual files options globs
                      bumpSet)) = fs1) /\
     (forall bumpType2 current1 current2 target,
        Mod.getCurrentVersion fs = Ok current1 ->
        Mod.calculateNewVersion current1 bumpType
          (Mod.customVersion options) bumpSet = Ok target ->
        Mod.getCurrentVersion fs1 = Ok current2 ->
        Mod.calculateNewVersion current2 bumpType2
          (Mod.customVersion options) bumpSet = Ok target ->
        Mod.files_now
          (Mod.final (Mod.bumpVersion fs1 bumpType2 files options globs
                        bumpSet)) = fs1)).
Proof.
  split.
  - intros bumpMode bumpFilter dryRun w oldVersion Hp Hr Hvalid.
    assert (Hne : oldVersion <> "")
      by (intros ->; vm_compute in Hvalid; discriminate).
    unfold Mod.isValidSemver in Hvalid.
    destruct (Semver.valid oldVersion) as [s|] eqn:Hs; [|discriminate].
    destruct (Impl.autoIncrementVersion oldVersion bumpMode)
      as [incremented|e] eqn:Hi.
    + pose proof (ImplFacts.autoIncrementVersion_other _ _ _ Hi) as Hd.
      assert (Htr : Js.truthy (Some oldVersion) = true)
        by (destruct oldVersion; [congruence | reflexivity]).
      eexists incremented, _. split; [reflexivity|]. split; [exact Hd|].
      apply and_comm. split.
      * unfold Impl.bumpHandler, Impl.bind, Impl.pathExists.
        rewrite Hp. cbn [negb]. rewrite Hr, Htr. cbn [negb].
        change (default "" (Some oldVersion)) with oldVersion.
        rewrite Hs. unfold Impl.relinka at 1. rewrite Hi.
        unfold Impl.bump_if_changed.
        destruct (String.eqb_spec oldVersion incremented); [congruence|].
        cbn [negb]. reflexivity.
      * reflexivity.
    + exfalso. revert Hi. unfold Impl.autoIncrementVersion, Semver.valid in *.
      rewrite Hs. unfold Semver.inc.
      destruct (Semver.parse oldVersion); [discriminate|discriminate].
  - intros fs bumpType files options globs bumpSet first fs1. split.
    + intros ->. subst fs1 first.
      destruct (Mod.getCurrentVersion fs) as [c1|e] eqn:Hc1.
      * destruct (Mod.calculateNewVersion c1 Mod.manual
                    (Mod.customVersion options) bumpSet) as [t|e] eqn:Ht1.
        -- set (fs1 := Mod.files_now
                         (Mod.final (Mod.bumpVersion fs Mod.manual files
                                       options globs bumpSet))).
           destruct (Mod.getCurrentVersion fs1) as [c2|e] eqn:Hc2.
           ++ apply (RunFacts.bumpVersion_again fs Mod.manual Mod.manual files
                       options globs bumpSet c1 c2 t Hc1 Ht1 Hc2).
              now rewrite (RunFacts.manual_any c2 c1).
           ++ unfold Mod.bumpVersion at 1. now rewrite Hc2.
        -- assert (E : Mod.files_now
                         (Mod.final (Mod.bumpVersion fs Mod.manual files
                                       options globs bumpSet)) = fs)
             by (unfold Mod.bumpVersion; now rewrite Hc1, Ht1).
           rewrite E. unfold Mod.bumpVersion. rewrite Hc1, Ht1. reflexivity.
      * assert (E : Mod.files_now
                      (Mod.final (Mod.bumpVersion fs Mod.manual files
                                    options globs bumpSet)) = fs)
          by (unfold Mod.bumpVersion; now rewrite Hc1).
        rewrite E. unfold Mod.bumpVersion. now rewrite Hc1.
    + intros bumpType2 c1 c2 target Hc1 Ht1 Hc2 Ht2.
      exact (RunFacts.bumpVersion_again fs bumpType bumpType2 files options
               globs bumpSet c1 c2 target Hc1 Ht1 Hc2 Ht2).
Qed.

Lemma same_version_runs_witness :
  (exists incremented w',
     Impl.autoIncrementVersion "1.2.3" Impl.autoPatch = Ok incremented /\
     incremented <> "1.2.3" /\
     Impl.files w' = Scenario.project /\
     Impl.bumpHandler (H := Scenario.impl_host) Impl.autoPatch false
       ["package.json"] false (Scenario.start Scenario.project) =
     Impl.bumpVersions (H := Scenario.impl_host) "1.2.3" incremented
       ["package.json"] false w') /\
  let files := ["package.json"; "src/locked.ts"; "src/info.ts"; "README.md"] in
  let options := Mod.mkBumpOptions false None in
  let fs1 :=
    Mod.files_now
      (Mod.final
         (Mod.bumpVersion (H := Scenario.mod_host) Scenario.library_files
            Mod.manual files options [] (Some "2.0.0"))) in
  let fs2 :=
    Mod.files_now
      (Mod.final
         (Mod.bumpVersion (H := Scenario.mod_host) Scenario.library_files
            Mod.patch files options [] (Some "1.2.4"))) in
  Mod.files_now
    (Mod.final
       (Mod.bumpVersion (H := Scenario.mod_host) fs1 Mod.manual files options
          [] (Some "2.0.0"))) = fs1 /\
  Mod.files_now
    (Mod.final
       (Mod.bumpVersion (H := Scenario.mod_host) fs2 Mod.manual files options
          [] (Some "1.2.4"))) = fs2.
Proof.
  destruct (@same_version_runs Scenario.mod_host Scenario.impl_host)
    as [HB HA].
  split; [|split].
  - exact (HB Impl.autoPatch ["package.json"] false
              (Scenario.start Scenario.project) "1.2.3"
              eq_refl eq_refl eq_refl).
  - exact (proj1 (HA Scenario.library_files Mod.manual
                    ["package.json"; "src/locked.ts"; "src/info.ts";
                     "README.md"]
                    (Mod.mkBumpOptions false None) [] (Some "2.0.0"))
             eq_refl).
  - apply (proj2 (HA Scenario.library_files Mod.patch
                    ["package.json"; "src/locked.ts"; "src/info.ts";
                     "README.md"]
                    (Mod.mkBumpOptions false None) [] (Some "1.2.4"))
             Mod.manual "1.2.3" "1.2.4" "1.2.4");
      vm_compute; reflexivity.
Defined.

(** A manifest at 1.0.0 without a space after its colon, and 1.0.0 as the
    manual target: the new version is the current one, the run succeeds,
    and the manifest is rewritten with another text. *)
Lemma same_version_rewrites_manifest :
  let run :=
    Mod.bumpVersion (H := Scenario.mod_host) Scenario.tight_files Mod.manual
      ["package.json"] (Mod.mkBumpOptions false None) [] (Some "1.0.0") in
  Mod.getCurrentVersion (H := Scenario.mod_host) Scenario.tight_files
  = Ok "1.0.0" /\
  Mod.calculateNewVersion "1.0.0" Mod.manual None (Some "1.0.0")
  = Ok "1.0.0" /\
  Mod.outcome run = Ok tt /\
  Fs.text_at Scenario.tight_files "package.json"
  = Some (Scenario.tight_manifest "1.0.0") /\
  Fs.text_at (Mod.files_now (Mod.final run)) "package.json"
  = Some ("{" ++ Js.q "version" ++ ": " ++ Js.q "1.0.0" ++ "}") /\
  Fs.text_at (Mod.files_now (Mod.final run)) "package.json" <>
  Fs.text_at Scenario.tight_files "package.json".
Proof. vm_compute. repeat split; try reflexivity. discriminate. Qed.

(** C1, where the code fails it. In the CLI module the dry-run flag
    reaches the messages only: for every project, a dry run of bumpHandler
    ends with the result and the files of the run itself. On a project
    whose manifest is at 1.2.3 the dry run returns, reports that it would
    update the manifest, and the manifest on disk is at 1.2.4. *)
Theorem dry_run_writes_manifest :
  (forall (host : Impl.Host) bumpMode bumpDisable bumpFilter w,
     let real := Impl.bumpHandler bumpMode bumpDisable bumpFilter false w in
     let dry := Impl.bumpHandler bumpMode bumpDisable bumpFilter true w in
     fst dry = fst real /\ Impl.files (snd dry) = Impl.files (snd real)) /\
  let w :=
    Impl.bumpHandler (H := Scenario.impl_host) Impl.autoPatch false
      ["package.json"] true (Scenario.start Scenario.project) in
  fst w = Ok tt /\
  In ("log", "[dry run] Would update version in: /project/package.json")
     (Impl.messages (snd w)) /\
  Fs.text_at Scenario.project Scenario.project_package_json
  = Some (Scenario.manifest "1.2.3") /\
  Fs.text_at (Impl.files (snd w)) Scenario.project_package_json
  = Some (Scenario.manifest "1.2.4").
Proof.
  split; [intros host; apply ImplFacts.dry_run_same_files|].
  vm_compute. repeat split; try reflexivity. right. left. reflexivity.
Qed.




(** * Further properties of the code *)

(** ** More on strings *)

Module StringFacts.
Import Js JsFacts.

(** The longest run of a class in a text that is followed by a character
    outside the class. *)
Lemma span_before (p : ascii -> bool) (a t : string) :
  stops p t -> t <> "" ->
  span p (a ++ t) = (fst (span p a), snd (span p a) ++ t).
Proof.
  intros Ht Hne. destruct (span p a) as [x y] eqn:E.
  apply span_spec in E as (-> & Hx & Hy). simpl.
  rewrite app_assoc. apply span_stop; [exact Hx|].
  destruct y as [|c y]; [|exact Hy]. simpl. exact Ht.
Qed.

Lemma trimStart_stops (s : string) : stops is_space (trimStart s).
Proof.
  unfold trimStart. destruct (span is_space s) as [a b] eqn:E.
  now apply span_spec in E as (_ & _ & Hb).
Qed.

Lemma trimStart_fixed (s : string) : stops is_space s -> trimStart s = s.
Proof.
  intros Hs. unfold trimStart. destruct s as [|c s]; [reflexivity|].
  simpl in *. now rewrite Hs.
Qed.

Lemma trimStart_idem (s : string) : trimStart (trimStart s) = trimStart s.
Proof. apply trimStart_fixed, trimStart_stops. Qed.

Lemma trimStart_space (c : ascii) (s : string) :
  is_space c = true -> trimStart (String c s) = trimStart s.
Proof.
  intros Hc. unfold trimStart. simpl. rewrite Hc.
  now destruct (span is_space s).
Qed.

(** A text that starts with a character that is no space still starts
    with it when the spaces at its end are taken off. *)
Lemma trimEnd_head (c : ascii) (r : string) :
  is_space c = false -> exists r', trimEnd (String c r) = String c r'.
Proof.
  intros Hc. unfold trimEnd, trimStart. rewrite rev_cons.
  rewrite span_before by (try exact Hc; discriminate).
  cbn [snd]. rewrite rev_app. simpl. eauto.
Qed.

Lemma trimEnd_idem (s : string) : trimEnd (trimEnd s) = trimEnd s.
Proof.
  unfold trimEnd. now rewrite rev_involutive, trimStart_idem.
Qed.

(** [trim] is idempotent. *)
Lemma trim_idem (s : string) : trim (trim s) = trim s.
Proof.
  unfold trim. pose proof (trimStart_stops s) as Hs.
  destruct (trimStart s) as [|c r]; [reflexivity|]. simpl in Hs.
  destruct (trimEnd_head c r Hs) as [r' E].
  rewrite <- (trimEnd_idem (String c r)) at 2. f_equal.
  rewrite E. apply trimStart_fixed. exact Hs.
Qed.

Lemma trimStart_cr (l : string) :
  trimStart (l ++ String (ascii_of_nat 13) "") =
  match trimStart l with
  | EmptyString => EmptyString
  | y => y ++ String (ascii_of_nat 13) ""
  end.
Proof.
  unfold trimStart. rewrite span_app.
  destruct (span is_space l) as [x [|c y]]; reflexivity.
Qed.

(** A carriage return at the end of a line is trimmed with the spaces
    before it. *)
Lemma trim_cr (l : string) :
  trim (l ++ String (ascii_of_nat 13) "") = trim l.
Proof.
  unfold trim. rewrite trimStart_cr.
  destruct (trimStart l) as [|c y]; [reflexivity|].
  unfold trimEnd. rewrite rev_app.
  change (rev (String (ascii_of_nat 13) ""))
    with (String (ascii_of_nat 13) "").
  change (String (ascii_of_nat 13) "" ++ rev (String c y))
    with (String (ascii_of_nat 13) (rev (String c y))).
  now rewrite trimStart_space.
Qed.

End StringFacts.
(** ** The library module: validation, analysis and sessions *)

Module SessionFacts.
Import Js JsFacts Regex RegexFacts Mod ModFacts RunFacts Session.

Lemma valid_construct (v : string) :
  isValidSemver v = true -> exists a, Semver.construct v = Ok a.
Proof.
  unfold isValidSemver, Semver.valid, Semver.parse.
  destruct (Semver.construct v); simpl; [eauto | discriminate].
Qed.

Lemma invalid_construct (v : string) :
  isValidSemver v = false -> exists e, Semver.construct v = Throw e.
Proof.
  unfold isValidSemver, Semver.valid, Semver.parse.
  destruct (Semver.construct v); simpl; [discriminate | eauto].
Qed.

(** A valid version is equal to itself. *)
Lemma eq_same (v : string) :
  isValidSemver v = true -> Semver.eq v v = Ok true.
Proof.
  intros [a Ha]%valid_construct. unfold Semver.eq, Semver.compare.
  rewrite Ha. unfold Semver.compare_semver. now rewrite String.eqb_refl.
Qed.

(** The comparison with a reference that is not a version throws. *)
Lemma eq_invalid (found ref : string) :
  isValidSemver ref = false -> exists e, Semver.eq found ref = Throw e.
Proof.
  intros [e He]%invalid_construct. unfold Semver.eq, Semver.compare.
  rewrite He. destruct (Semver.construct found); eauto.
Qed.

Lemma analyzeFile_file (fs : gmap string Fs.node) (ref f : string) :
  file (analyzeFile fs ref f) = f.
Proof.
  unfold analyzeFile. destruct (Fs.readFile fs f) as [content|e];
    [|reflexivity].
  destruct (detectFileType f content); simpl;
    repeat match goal with
           | |- context [match ?x with _ => _ end] => destruct x
           end; reflexivity.
Qed.

Lemma analyzeFile_invalid (fs : gmap string Fs.node) (ref f : string) :
  isValidSemver ref = false -> supported (analyzeFile fs ref f) = false.
Proof.
  intros Hr. unfold analyzeFile.
  destruct (Fs.readFile fs f) as [content|e]; [|reflexivity].
  destruct (detectFileType f content); cbv beta iota zeta; try reflexivity.
  all: match goal with
       | |- context [extractVersion ?x ?t] =>
           destruct (extractVersion x t) as [[|c found]|]
       end; try reflexivity.
  all: destruct (eq_invalid (String c found) ref Hr) as [e ->]; reflexivity.
Qed.

(** A file that is taken for a source file has a version. *)
Lemma typescript_has_version (path content : string) :
  detectFileType path content = typescript ->
  exists v, extractVersion content typescript = Some v /\ v <> "".
Proof.
  unfold detectFileType.
  destruct (endsWith path "package.json"); [discriminate|].
  destruct (endsWith path ".ts" || endsWith path ".js"); simpl;
    [|discriminate].
  destruct (test typescript_at content) eqn:Ht; [|discriminate].
  intros _. apply test_exec in Ht as (pre & m & post & He).
  pose proof (extract_typescript _ _ _ _ He) as Hx.
  destruct (exec_typescript_inv _ _ _ _ He) as (g & Hc & _).
  assert (Hg : extractVersion content typescript = Some g).
  { rewrite Hx. unfold group, capture. rewrite Hc. reflexivity. }
  exists g. split; [exact Hg|]. exact (extract_nonempty _ _ _ Hg).
Qed.

Lemma detect_manifest (path content : string) :
  detectFileType path content = package_json ->
  endsWith path "package.json" = true.
Proof.
  unfold detectFileType. destruct (endsWith path "package.json");
    [reflexivity|].
  destruct ((endsWith path ".ts" || endsWith path ".js") &&
            test typescript_at content); discriminate.
Qed.

(** What makes a file supported. *)
Lemma supported_inv (fs : gmap string Fs.node) (ref f : string) :
  supported (analyzeFile fs ref f) = true ->
  exists content,
    Fs.readFile fs f = Ok content /\
    detectFileType f content <> unknown /\
    truthy (extractVersion content (detectFileType f content)) = true.
Proof.
  unfold analyzeFile.
  destruct (Fs.readFile fs f) as [content|e]; [|discriminate].
  intros Hs. exists content. split; [reflexivity|].
  destruct (detectFileType f content); cbv beta iota zeta in *;
    try discriminate.
  all: split; [discriminate|].
  all: match goal with
       | H : context [extractVersion ?x ?t] |- _ =>
           destruct (extractVersion x t) as [[|c found]|]
       end; try discriminate; reflexivity.
Qed.

(** The analysis of a file looks at this file only. *)
Lemma analyzeFile_local (fs fs' : gmap string Fs.node) (ref f : string) :
  fs !! f = fs' !! f -> analyzeFile fs ref f = analyzeFile fs' ref f.
Proof.
  intros E. unfold analyzeFile, Fs.readFile. now rewrite E.
Qed.

End SessionFacts.

Module LibraryFacts.
Import Js JsFacts Regex RegexFacts Mod ModFacts RunFacts Session SessionFacts.

(** A content without declaration is not changed by an update. *)
Lemma update_absent (content v : string) (fileType : FileType)
    (updated : string) :
  extractVersion content fileType = None ->
  updateVersionInContent content v fileType = Ok updated ->
  updated = content.
Proof.
  destruct fileType; simpl; [| |discriminate].
  - unfold replace_template.
    destruct (exec packageJson_at content) as [[[pre m] post]|] eqn:He.
    + apply exec_inv in He as (t & _ & Ht & _).
      apply packageJson_at_inv in Ht as (w1 & w2 & g & -> & _).
      discriminate.
    + intros _ [= <-]. reflexivity.
  - unfold replace_function.
    destruct (exec typescript_at content) as [[[pre m] post]|] eqn:He.
    + destruct (exec_typescript_inv _ _ _ _ He) as (g & Hc & _).
      unfold group, capture. rewrite Hc. discriminate.
    + intros _ [= <-]. reflexivity.
Qed.

End LibraryFacts.

(** X1. parseSemver throws the error of the invalid version exactly for
    the strings that isValidSemver refuses, and returns three numbers for
    every other string. The numbers are safe integers, and they are those
    of the version as semver.valid writes it: MAJOR.MINOR.PATCH, followed
    by the prerelease tag when there is one. It gives back the three
    numbers of a version that is written from them. *)
Theorem parseSemver_spec (version : string) :
  (Mod.isValidSemver version = false <->
   Session.parseSemver version =
   Throw (Error ("invalid semver: " ++ version))) /\
  (Mod.isValidSemver version = true <->
   exists M m p, Session.parseSemver version = Ok (M, m, p)) /\
  (forall M m p, Session.parseSemver version = Ok (M, m, p) ->
     (M <= Semver.MAX_SAFE_INTEGER /\ m <= Semver.MAX_SAFE_INTEGER /\
      p <= Semver.MAX_SAFE_INTEGER)%N /\
     exists tag,
       Semver.valid version =
       Some (Semver.format (Semver.mkSemVer M m p tag []))) /\
  (forall M m p,
     (M <= Semver.MAX_SAFE_INTEGER)%N -> (m <= Semver.MAX_SAFE_INTEGER)%N ->
     (p <= Semver.MAX_SAFE_INTEGER)%N ->
     version = Semver.format (Semver.mkSemVer M m p [] []) ->
     Session.parseSemver version = Ok (M, m, p)).
Proof.
  unfold Session.parseSemver, Mod.isValidSemver, Semver.valid.
  split; [|split; [|split]].
  - destruct (Semver.parse version); simpl; split; try discriminate;
      reflexivity.
  - destruct (Semver.parse version) as [a|]; simpl; split.
    + intros _. eauto.
    + reflexivity.
    + discriminate.
    + intros (M & m & p & H). discriminate.
  - intros M m p.
    destruct (Semver.parse version) as [a|] eqn:Hp; [|discriminate].
    intros [= <- <- <-]. split.
    + apply SemverFacts.construct_parse in Hp.
      exact (SemverFacts.construct_bounds _ _ Hp).
    + exists (Semver.prerelease a). reflexivity.
  - intros M m p HM Hm Hp ->. unfold Semver.format. simpl.
    rewrite JsFacts.app_nil_r.
    assert (H : Semver.parse (Semver.core M m p) =
                Some (Semver.mkSemVer M m p [] [])).
    { apply SemverFacts.construct_parse.
      now apply SemverFacts.construct_core. }
    rewrite H. reflexivity.
Qed.

Lemma parseSemver_spec_witness :
  Session.parseSemver "1.22.333" = Ok (1, 22, 333)%N /\
  exists M m p, Session.parseSemver "1.2.3-alpha" = Ok (M, m, p).
Proof.
  split.
  - exact (proj2 (proj2 (proj2 (parseSemver_spec "1.22.333"))) 1%N 22%N 333%N
             ltac:(vm_compute; discriminate) ltac:(vm_compute; discriminate)
             ltac:(vm_compute; discriminate) eq_refl).
  - exact (proj1 (proj1 (proj2 (parseSemver_spec "1.2.3-alpha"))) eq_refl).
Defined.

(** X2. validateBumpConfig refuses a custom version that is not a valid
    version whatever the bump type, also for the types that do not use
    it; and when it accepts a configuration of the manual type, the
    custom version is there and calculateNewVersion returns it. *)
Theorem validateBumpConfig_spec (bumpType : Mod.BumpMode)
    (customVersion : option string) :
  (forall v, customVersion = Some v -> v <> "" ->
     Mod.isValidSemver v = false ->
     Session.validateBumpConfig bumpType customVersion =
     Throw (Error ("Invalid custom version: " ++ v))) /\
  (Session.validateBumpConfig bumpType customVersion = Ok tt ->
   bumpType = Mod.manual ->
   exists v, customVersion = Some v /\ Mod.isValidSemver v = true /\
     forall current,
       Mod.calculateNewVersion current Mod.manual customVersion None = Ok v).
Proof.
  unfold Session.validateBumpConfig. split.
  - intros v -> Hne Hv. destruct v as [|c v]; [contradiction|]. simpl.
    rewrite andb_false_r, Hv. reflexivity.
  - intros H ->. simpl in H.
    destruct customVersion as [[|c v]|]; try discriminate. simpl in H.
    destruct (Mod.isValidSemver (String c v)) eqn:Hv; [|discriminate].
    exists (String c v). split; [reflexivity|]. split; [exact Hv|].
    intros current. simpl. rewrite Hv. reflexivity.
Qed.

Lemma validateBumpConfig_spec_witness :
  Session.validateBumpConfig Mod.patch (Some "next") =
  Throw (Error "Invalid custom version: next") /\
  Mod.calculateNewVersion "1.0.0" Mod.manual (Some "2.0.0") None = Ok "2.0.0".
Proof.
  split.
  - exact (proj1 (validateBumpConfig_spec Mod.patch (Some "next")) "next"
             eq_refl ltac:(discriminate) eq_refl).
  - destruct (proj2 (validateBumpConfig_spec Mod.manual (Some "2.0.0"))
                eq_refl eq_refl) as (v & Hv & _ & Hc).
    injection Hv as <-. exact (Hc "1.0.0").
Defined.

(** X3. A file that detectFileType takes for a source file always has a
    version that extractVersion finds; so the analysis gives the reason
    that no version field was found to manifests only. *)
Theorem source_file_has_version :
  (forall path content,
     Mod.detectFileType path content = Mod.typescript ->
     exists v, Mod.extractVersion content Mod.typescript = Some v /\
               v <> "") /\
  (forall fs referenceVersion file,
     Mod.reason (Mod.analyzeFile fs referenceVersion file) =
     "no version field found" ->
     Js.endsWith file "package.json" = true).
Proof.
  split; [exact SessionFacts.typescript_has_version|].
  intros fs ref f. unfold Mod.analyzeFile.
  destruct (Fs.readFile fs f) as [content|e]; [|discriminate].
  destruct (Mod.detectFileType f content) eqn:Ht; cbv beta iota zeta.
  - intros _. exact (SessionFacts.detect_manifest _ _ Ht).
  - destruct (SessionFacts.typescript_has_version _ _ Ht) as (v & -> & Hv).
    destruct v as [|c v]; [contradiction|].
    destruct (Semver.eq (String c v) ref) as [[]|e]; discriminate.
  - discriminate.
Qed.

(** X4. An update of a manifest rewrites its first version member and
    nothing else: the text before it and the text after it are kept, and
    the member is written with one space after its colon, whatever its
    spacing was. *)
Theorem manifest_member_rewritten (content newVersion old : string) :
  Mod.extractVersion content Mod.package_json = Some old ->
  Mod.isValidSemver newVersion = true ->
  exists pre w1 w2 post,
    content = pre ++ Regex.member w1 w2 old ++ post /\
    Js.all Js.is_space w1 = true /\ Js.all Js.is_space w2 = true /\
    Mod.updateVersionInContent content newVersion Mod.package_json =
    Ok (pre ++ (Js.q "version" ++ ": " ++ Js.q newVersion) ++ post).
Proof.
  intros Hold Hvalid. destruct (ModFacts.valid_plain _ Hvalid) as [Hv Hne].
  simpl in Hold.
  destruct (Regex.exec Regex.packageJson_at content) as [[[pre m] post]|] eqn:He;
    [|discriminate].
  destruct (ModFacts.update_package_json _ _ _ _ newVersion He Hv Hne)
    as (Hc & Hu & _).
  apply RegexFacts.exec_inv in He as (t & _ & Ht & _).
  apply RegexFacts.packageJson_at_inv in Ht
    as (w1 & w2 & g & -> & _ & H1 & H2 & _).
  injection Hold as ->.
  exists pre, w1, w2, post.
  split; [exact Hc|]. split; [exact H1|]. split; [exact H2|]. exact Hu.
Qed.

Lemma manifest_member_rewritten_witness :
  exists pre w1 w2 post,
    Scenario.tight_manifest "1.0.0" = pre ++ Regex.member w1 w2 "1.0.0" ++ post /\
    Js.all Js.is_space w1 = true /\ Js.all Js.is_space w2 = true /\
    Mod.updateVersionInContent (Scenario.tight_manifest "1.0.0") "1.1.0"
                               Mod.package_json =
    Ok (pre ++ (Js.q "version" ++ ": " ++ Js.q "1.1.0") ++ post).
Proof.
  exact (manifest_member_rewritten (Scenario.tight_manifest "1.0.0") "1.1.0"
           "1.0.0" eq_refl eq_refl).
Defined.

(** X5. updateVersionInContent is idempotent for a valid version: an
    update of its own result changes nothing; and a content in which
    extractVersion finds no version is returned as it is. *)
Theorem update_idempotent (content newVersion : string)
    (fileType : Mod.FileType) (updated : string) :
  Mod.isValidSemver newVersion = true ->
  Mod.updateVersionInContent content newVersion fileType = Ok updated ->
  Mod.updateVersionInContent updated newVersion fileType = Ok updated /\
  (Mod.extractVersion content fileType = None -> updated = content).
Proof.
  intros Hvalid Hu. destruct (ModFacts.valid_plain _ Hvalid) as [Hv Hne].
  split.
  - exact (ModFacts.update_updated _ _ _ _ Hv Hne Hu).
  - intros Hx. exact (LibraryFacts.update_absent _ _ _ _ Hx Hu).
Qed.

Lemma update_idempotent_witness :
  Mod.updateVersionInContent "export const version= '2.0.0';" "2.0.0"
                             Mod.typescript =
  Ok "export const version= '2.0.0';".
Proof.
  exact (proj1 (update_idempotent "export const version = '1.2.3';" "2.0.0"
                  Mod.typescript "export const version= '2.0.0';"
                  eq_refl eq_refl)).
Defined.

(** ** Runs of the library module and the analysis *)

Module LoopFacts.
Import Js JsFacts Regex RegexFacts Mod ModFacts RunFacts Session SessionFacts.

Lemma check_failures_ok (results : list UpdateResult) :
  check_failures results = Ok tt <-> List.filter (fun r => negb (success r)) results = [].
Proof.
  destruct (check_failures_cases results) as [H1 H2]. split.
  - intros Hok. destruct (List.filter (fun r => negb (success r)) results) eqn:E; [reflexivity|].
    rewrite H2 in Hok by discriminate. discriminate.
  - exact H1.
Qed.

(** *** Dry runs *)

Lemma dry_round (v : string) (st : BumpState) (f : string) :
  let st' := bumpFile v true st f in
  files_now st' = files_now st /\
  (List.filter (fun r => negb (success r)) (updateResults st') = [] <->
   List.filter (fun r => negb (success r)) (updateResults st) = [] /\
   is_ok (Fs.readFile (files_now st) f) = true).
Proof.
  unfold bumpFile, record_result. cbv zeta.
  destruct (Fs.readFile (files_now st) f) as [content|e].
  - assert (Hkeep : files_now st = files_now st /\
               (List.filter (fun r => negb (success r)) (updateResults st)
                = [] <->
                List.filter (fun r => negb (success r)) (updateResults st)
                = [] /\ is_ok (Ok content) = true)).
    { split; [reflexivity|]. simpl. intuition. }
    assert (Hdone : forall lg,
               files_now (mkBumpState (files_now st)
                            (updateResults st ++ [succeeded f]) lg) =
               files_now st /\
               (List.filter (fun r => negb (success r))
                  (updateResults
                     (mkBumpState (files_now st)
                        (updateResults st ++ [succeeded f]) lg)) = [] <->
                List.filter (fun r => negb (success r)) (updateResults st)
                = [] /\ is_ok (Ok content) = true)).
    { intros lg. split; [reflexivity|]. simpl. rewrite List.filter_app.
      simpl. rewrite List.app_nil_r. intuition. }
    destruct (detectFileType f content); cbv beta iota.
    + destruct (negb (truthy (extractVersion content package_json)));
        [exact Hkeep|].
      destruct (updateVersionInContent content v package_json) eqn:Hu;
        [apply Hdone | discriminate].
    + destruct (negb (truthy (extractVersion content typescript)));
        [exact Hkeep|].
      destruct (updateVersionInContent content v typescript) eqn:Hu;
        [apply Hdone | discriminate].
    + exact Hkeep.
  - split; [reflexivity|]. simpl. rewrite List.filter_app. simpl. split.
    + intros [_ E]%List.app_eq_nil. discriminate.
    + intros [_ E]. discriminate.
Qed.

Lemma dry_fold (v : string) (fs : gmap string Fs.node) (l : list string)
    (st : BumpState) :
  files_now st = fs ->
  let st' := fold_left (bumpFile v true) l st in
  files_now st' = fs /\
  (List.filter (fun r => negb (success r)) (updateResults st') = [] <->
   List.filter (fun r => negb (success r)) (updateResults st) = [] /\
   forall f, In f l -> is_ok (Fs.readFile fs f) = true).
Proof.
  revert st. induction l as [|x l IH]; intros st Hst; simpl.
  - split; [exact Hst|]. split; [intros E; split; [exact E | intros f []]|].
    now intros [E _].
  - destruct (dry_round v st x) as [Hf Hr]. rewrite Hst in Hf, Hr.
    destruct (IH (bumpFile v true st x) Hf) as [Hf' Hr'].
    split; [exact Hf'|]. rewrite Hr', Hr. split.
    + intros [[E Hx] Hl]. split; [exact E|].
      intros f [<-|Hin]; auto.
    + intros [E Hl]. split; [split|]; auto.
Qed.

(** *** A file of the list, alone *)

Lemma readFile_node (fs : gmap string Fs.node) (f content : string) :
  Fs.readFile fs f = Ok content ->
  exists node, fs !! f = Some node /\ Fs.content node = content /\
               Fs.read_error node = None.
Proof.
  unfold Fs.readFile. destruct (fs !! f) as [n|]; [|discriminate].
  destruct (Fs.read_error n) eqn:E; [discriminate|].
  intros [= <-]. eauto.
Qed.

Lemma writeFile_read (fs fs' : gmap string Fs.node) (f content u : string) :
  Fs.readFile fs f = Ok content -> Fs.writeFile fs f u = Ok fs' ->
  Fs.readFile fs' f = Ok u.
Proof.
  intros (n & Hn & _ & Hr)%readFile_node. unfold Fs.writeFile, Fs.readFile.
  rewrite Hn. destruct (Fs.write_error n); [discriminate|].
  intros [= <-]. rewrite lookup_insert_eq. simpl. now rewrite Hr.
Qed.

(** The update of a file of a known type returns. *)
Lemma update_known (content v : string) (t : FileType) :
  t <> unknown -> exists u, updateVersionInContent content v t = Ok u.
Proof. destruct t; simpl; eauto. contradiction. Qed.

(** The analysis of a file that was updated to a valid version. *)
Lemma analyzeFile_updated (fs : gmap string Fs.node)
    (f content v u : string) :
  isValidSemver v = true ->
  detectFileType f content <> unknown ->
  truthy (extractVersion content (detectFileType f content)) = true ->
  updateVersionInContent content v (detectFileType f content) = Ok u ->
  Fs.readFile fs f = Ok u ->
  analyzeFile fs v f =
  mkFileAnalysis f true (Some v) false "ok" (detectFileType f content).
Proof.
  intros Hvalid Ht Hx Hu Hr. destruct (valid_plain _ Hvalid) as [Hv Hne].
  unfold analyzeFile. rewrite Hr.
  rewrite (detect_updated f content v u Hv Hne Hu).
  destruct (extractVersion content (detectFileType f content))
    as [[|c old]|] eqn:Hold; try discriminate.
  destruct (extract_updated _ v _ _ Hold Hv Hne) as (u' & Hu' & Hx').
  rewrite Hu in Hu'. injection Hu' as <-. rewrite Hx'.
  rewrite (eq_same v Hvalid).
  destruct v as [|c' v]; [contradiction|].
  destruct (detectFileType f content); try reflexivity. contradiction.
Qed.

(** What a round does to a file that the analysis supports. *)
Lemma alone_supported (fs : gmap string Fs.node) (ref v f : string) :
  supported (analyzeFile fs ref f) = true ->
  exists node,
    fs !! f = Some node /\
    updateResults (bumpFile v false (mkBumpState fs [] []) f) =
    [mkUpdateResult f
       (match Fs.write_error node with None => true | Some _ => false end)
       (err_message <$> Fs.write_error node)].
Proof.
  intros (content & Hr & Ht & Hx)%supported_inv.
  destruct (readFile_node _ _ _ Hr) as (node & Hn & _ & _).
  exists node. split; [exact Hn|].
  unfold bumpFile. simpl. rewrite Hr.
  destruct (update_known content v _ Ht) as [u Hu].
  rewrite Hx, Hu. simpl.
  unfold Fs.writeFile. rewrite Hn.
  destruct (detectFileType f content); try contradiction;
    destruct (Fs.write_error node); reflexivity.
Qed.

Lemma supported_files (fs : gmap string Fs.node) (ref : string)
    (files : list string) :
  map file (List.filter supported (analyzeFiles fs files ref)) =
  List.filter (fun f => supported (analyzeFile fs ref f)) files.
Proof.
  rewrite analyzeFiles_map.
  induction files as [|f l IH]; [reflexivity|]. simpl.
  destruct (supported (analyzeFile fs ref f)); simpl;
    [rewrite analyzeFile_file|]; now rewrite IH.
Qed.

Lemma filter_all {A} (p : A -> bool) (l : list A) :
  (forall x, In x l -> p x = true) -> List.filter p l = l.
Proof.
  induction l as [|x l IH]; intros H; [reflexivity|]. simpl.
  rewrite (H x) by now left. f_equal. apply IH. intros y Hy. apply H.
  now right.
Qed.

Lemma filter_none {A} (p : A -> bool) (l : list A) :
  (forall x, In x l -> p x = false) -> List.filter p l = [].
Proof.
  induction l as [|x l IH]; intros H; [reflexivity|]. simpl.
  rewrite (H x) by now left. apply IH. intros y Hy. apply H. now right.
Qed.

Lemma NoDup_filter_bool {A} (p : A -> bool) (l : list A) :
  NoDup l -> NoDup (List.filter p l).
Proof.
  induction 1 as [|x l Hx Hl IH]; simpl; [constructor|].
  destruct (p x); [|exact IH]. constructor; [|exact IH].
  rewrite list_elem_of_In, filter_In. intros [Hin _]. apply Hx.
  now apply list_elem_of_In.
Qed.

End LoopFacts.

(** X6. A dry run of the bumpVersion of the library module writes
    nothing, and it throws exactly when one of the files it is given (and
    that the globs let through) cannot be read. *)
Theorem library_dry_run `{HM : Mod.Host} (fs : gmap string Fs.node)
    (bumpType : Mod.BumpMode) (files : list string)
    (options : Mod.BumpOptions) (globs : list string)
    (bumpSet : option string) (currentVersion newVersion : string) :
  Mod.dryRun options = true ->
  Mod.getCurrentVersion fs = Ok currentVersion ->
  Mod.calculateNewVersion currentVersion bumpType
    (Mod.customVersion options) bumpSet = Ok newVersion ->
  let run := Mod.bumpVersion fs bumpType files options globs bumpSet in
  Mod.files_now (Mod.final run) = fs /\
  (Mod.outcome run = Ok tt <->
   forall file, In file files -> Mod.matchesGlobs file globs = true ->
                is_ok (Fs.readFile fs file) = true).
Proof.
  intros Hdry Hcur Hnew run. subst run. unfold Mod.bumpVersion.
  rewrite Hcur, Hnew, Hdry. cbn [Mod.final Mod.outcome].
  destruct (LoopFacts.dry_fold newVersion fs
              (List.filter (fun file => Mod.matchesGlobs file globs) files)
              (Mod.mkBumpState fs [] []) eq_refl) as [Hf Hr].
  split; [exact Hf|].
  rewrite LoopFacts.check_failures_ok, Hr. simpl. split.
  - intros [_ Hall] file Hin Hg. apply Hall, filter_In. auto.
  - intros Hall. split; [reflexivity|].
    intros f [Hin Hg]%filter_In. auto.
Qed.

Lemma library_dry_run_witness :
  let run :=
    Mod.bumpVersion (H := Scenario.mod_host) Scenario.library_files Mod.patch
      ["package.json"; "src/locked.ts"; "src/info.ts"]
      (Mod.mkBumpOptions true None) [] None in
  Mod.files_now (Mod.final run) = Scenario.library_files /\
  Mod.outcome run = Ok tt.
Proof.
  destruct (@library_dry_run Scenario.mod_host Scenario.library_files
              Mod.patch ["package.json"; "src/locked.ts"; "src/info.ts"]
              (Mod.mkBumpOptions true None) [] None "1.2.3" "1.2.4"
              eq_refl eq_refl eq_refl) as [Hf Ho].
  split; [exact Hf|]. apply Ho.
  intros file [<-|[<-|[<-|[]]]] _; reflexivity.
Defined.

(** X7. After a run of bumpVersion that wrote (no dry run) and returned,
    for a valid new version and a list of files that are all different,
    the analysis of a file of the list against the new version finds no
    mismatch, and a file that it supports is at the new version. *)
Theorem analysis_after_bump `{HM : Mod.Host} (fs : gmap string Fs.node)
    (bumpType : Mod.BumpMode) (files : list string)
    (options : Mod.BumpOptions) (globs : list string)
    (bumpSet : option string) (currentVersion newVersion : string) :
  Mod.dryRun options = false ->
  Mod.getCurrentVersion fs = Ok currentVersion ->
  Mod.calculateNewVersion currentVersion bumpType
    (Mod.customVersion options) bumpSet = Ok newVersion ->
  Mod.isValidSemver newVersion = true ->
  NoDup (List.filter (fun file => Mod.matchesGlobs file globs) files) ->
  let run := Mod.bumpVersion fs bumpType files options globs bumpSet in
  Mod.outcome run = Ok tt ->
  forall file, In file files -> Mod.matchesGlobs file globs = true ->
    let a := Mod.analyzeFile (Mod.files_now (Mod.final run)) newVersion
                             file in
    Mod.versionMismatch a = false /\
    (Mod.supported a = true ->
     Mod.detectedVersion a = Some newVersion /\ Mod.reason a = "ok").
Proof.
  intros Hdry Hcur Hnew Hvalid Hnd run Hok file Hin Hg a.
  subst a run. revert Hok. unfold Mod.bumpVersion.
  rewrite Hcur, Hnew, Hdry. cbn [Mod.final Mod.outcome].
  set (filtered := List.filter (fun file => Mod.matchesGlobs file globs) files)
    in *.
  destruct (ModFacts.bumpFiles_alone newVersion false fs filtered
              (Mod.mkBumpState fs [] []) Hnd) as (H1 & H2 & _);
    [reflexivity|].
  assert (Hf : In file filtered) by (apply filter_In; auto).
  rewrite LoopFacts.check_failures_ok, H1. simpl. intros Hnone.
  rewrite (SessionFacts.analyzeFile_local _ _ newVersion file
             (H2 file Hf)).
  assert (Hr : forall r,
             In r (Mod.updateResults
                     (Mod.bumpFile newVersion false
                        (Mod.mkBumpState fs [] []) file)) ->
             Mod.success r = true).
  { intros r Hr. destruct (Mod.success r) eqn:Hs; [reflexivity|].
    assert (Hin' : In r (List.filter (fun r => negb (Mod.success r))
                           (flat_map
                              (fun f => Mod.updateResults
                                 (Mod.bumpFile newVersion false
                                    (Mod.mkBumpState fs [] []) f))
                              filtered))).
    { apply filter_In. split; [|now rewrite Hs].
      apply in_flat_map. eauto. }
    rewrite Hnone in Hin'. destruct Hin'. }
  clear Hnone H1 H2. revert Hr.
  unfold Mod.bumpFile, Mod.record_result. cbn [Mod.files_now Mod.updateResults].
  destruct (Fs.readFile fs file) as [content|e] eqn:Hread.
  2: { intros Hr. specialize (Hr _ (or_introl eq_refl)). discriminate. }
  assert (Hsame : forall t,
             Mod.detectFileType file content = t ->
             (t = Mod.unknown \/
              Js.truthy (Mod.extractVersion content t) = false) ->
             Mod.versionMismatch (Mod.analyzeFile fs newVersion file)
             = false /\
             (Mod.supported (Mod.analyzeFile fs newVersion file) = true ->
              Mod.detectedVersion (Mod.analyzeFile fs newVersion file)
              = Some newVersion /\
              Mod.reason (Mod.analyzeFile fs newVersion file) = "ok")).
  { intros t Ht Hcase. unfold Mod.analyzeFile. rewrite Hread, Ht.
    destruct Hcase as [-> | Hx]; [split; [reflexivity | discriminate]|].
    destruct t; cbv beta iota zeta;
      [| |split; [reflexivity | discriminate]].
    all: match goal with
         | |- context [Mod.extractVersion ?x ?t] =>
             destruct (Mod.extractVersion x t) as [[|c v]|]
         end; try discriminate; split; try reflexivity; discriminate. }
  destruct (Mod.detectFileType file content) eqn:Ht; cbv beta iota.
  3: { intros _. apply (Hsame Mod.unknown); auto. }
  all: match goal with
       | |- context [Mod.extractVersion ?x ?t] =>
           destruct (Js.truthy (Mod.extractVersion x t)) eqn:Hx
       end; cbn [negb];
    [|intros _; eapply Hsame; eauto].
  all: match goal with
       | |- context [Mod.updateVersionInContent ?x ?y ?t] =>
           destruct (Mod.updateVersionInContent x y t) as [u|e] eqn:Hu
       end;
    [|intros Hr; specialize (Hr _ (or_introl eq_refl)); discriminate].
  all: destruct (Fs.writeFile fs file u) as [fs'|e] eqn:Hw;
    [|intros Hr; specialize (Hr _ (or_introl eq_refl)); discriminate].
  all: intros _; cbn [Mod.files_now];
    rewrite <- Ht in Hx, Hu;
    rewrite (LoopFacts.analyzeFile_updated fs' file content newVersion u
               Hvalid ltac:(rewrite Ht; discriminate) Hx Hu
               (LoopFacts.writeFile_read _ _ _ _ _ Hread Hw));
    split; [reflexivity | intros _; split; reflexivity].
Qed.

Lemma analysis_after_bump_witness :
  let run :=
    Mod.bumpVersion (H := Scenario.mod_host) Scenario.bumped_files Mod.minor
      ["package.json"; "src/info.ts"] (Mod.mkBumpOptions false None) []
      None in
  Mod.outcome run = Ok tt /\
  Mod.detectedVersion
    (Mod.analyzeFile (Mod.files_now (Mod.final run)) "2.1.0" "src/info.ts")
  = Some "2.1.0".
Proof.
  assert (Hnd : NoDup (List.filter
                         (fun file => Mod.matchesGlobs (H := Scenario.mod_host)
                                        file [])
                         ["package.json"; "src/info.ts"])).
  { apply (bool_decide_unpack _). vm_compute. exact I. }
  split; [reflexivity|].
  apply (@analysis_after_bump Scenario.mod_host Scenario.bumped_files
           Mod.minor ["package.json"; "src/info.ts"]
           (Mod.mkBumpOptions false None) [] None "2.0.0" "2.1.0"
           eq_refl eq_refl eq_refl eq_refl Hnd eq_refl "src/info.ts"
           ltac:(right; left; reflexivity) eq_refl).
  vm_compute. reflexivity.
Defined.

Module AnalysisFacts.
Import Mod Session.

(** With a current version that is not valid, the analysis supports no
    file, and [bumpVersion] is given no file. *)
Lemma invalid_current_run `{Host} (fs : gmap string Fs.node)
    (bumpType : BumpMode) (files : list string) (options : BumpOptions)
    (bumpSet : option string) (currentVersion : string) :
  getCurrentVersion fs = Ok currentVersion ->
  isValidSemver currentVersion = false ->
  let run := bumpVersionWithAnalysis fs bumpType files options bumpSet in
  files_now (final run) = fs /\
  updateResults (final run) = [] /\
  outcome run =
    match calculateNewVersion currentVersion bumpType
            (customVersion options) bumpSet with
    | Ok _ => Ok tt
    | Throw e => Throw e
    end.
Proof.
  intros Hcur Hinv run.
  assert (Hrun : run = bumpVersion fs bumpType [] options [] bumpSet).
  { subst run. unfold bumpVersionWithAnalysis. rewrite Hcur.
    cbv zeta. rewrite LoopFacts.supported_files.
    rewrite LoopFacts.filter_none; [reflexivity|].
    intros f _. now apply SessionFacts.analyzeFile_invalid. }
  rewrite Hrun. unfold bumpVersion. rewrite Hcur.
  destruct (calculateNewVersion currentVersion bumpType
              (customVersion options) bumpSet); repeat split; reflexivity.
Qed.

(** The reason that the analysis gives for a file when the reference is
    not a version. *)
Lemma analyzeFile_invalid_reason (fs : gmap string Fs.node) (ref f : string) :
  isValidSemver ref = false ->
  (exists e, reason (analyzeFile fs ref f) = "read error: " ++ error_string e)
  \/ reason (analyzeFile fs ref f) = "unsupported file type"
  \/ reason (analyzeFile fs ref f) = "no version field found".
Proof.
  intros Hr. unfold analyzeFile.
  destruct (Fs.readFile fs f) as [content|e]; [|left; eauto].
  destruct (detectFileType f content); cbv beta iota zeta; auto.
  all: match goal with
       | |- context [extractVersion ?x ?t] =>
           destruct (extractVersion x t) as [[|c found]|]
       end; auto.
  all: destruct (SessionFacts.eq_invalid (String c found) ref Hr) as [e ->]; left; eauto.
Qed.

(** The lines of the error of a session without supported file. *)
Lemma reasons_lines (fs : gmap string Fs.node) (ref : string)
    (files : list string) :
  (forall f, In f files -> supported (analyzeFile fs ref f) = false) ->
  map (fun f => file f ++ ": " ++ reason f)
      (List.filter (fun r => negb (supported r))
                   (map (analyzeFile fs ref) files)) =
  map (fun f => f ++ ": " ++ reason (analyzeFile fs ref f)) files.
Proof.
  intros H. rewrite LoopFacts.filter_all.
  - rewrite map_map. apply map_ext. intros f.
    now rewrite SessionFacts.analyzeFile_file.
  - intros a (f & <- & Hf)%in_map_iff. now rewrite (H f Hf).
Qed.

End AnalysisFacts.

(** X8. When the version of the manifest is not a valid semantic
    version, bumpVersionWithAnalysis bumps nothing: the analysis supports
    no file, so no file is written and no result is recorded, and the
    call ends as the calculation of the new version does; in manual mode
    with a valid target it returns normally. *)
Theorem analysis_with_invalid_current `{HM : Mod.Host}
    (fs : gmap string Fs.node) (bumpType : Mod.BumpMode)
    (files : list string) (options : Mod.BumpOptions)
    (bumpSet : option string) (currentVersion : string) :
  Mod.getCurrentVersion fs = Ok currentVersion ->
  Mod.isValidSemver currentVersion = false ->
  let run :=
    Session.bumpVersionWithAnalysis fs bumpType files options bumpSet in
  Mod.files_now (Mod.final run) = fs /\
  Mod.updateResults (Mod.final run) = [] /\
  Mod.outcome run =
    match Mod.calculateNewVersion currentVersion bumpType
            (Mod.customVersion options) bumpSet with
    | Ok _ => Ok tt
    | Throw e => Throw e
    end /\
  (forall target,
     bumpType = Mod.manual -> bumpSet = Some target ->
     Mod.isValidSemver target = true -> Mod.outcome run = Ok tt).
Proof.
  intros Hcur Hinv run.
  destruct (AnalysisFacts.invalid_current_run fs bumpType files options
              bumpSet currentVersion Hcur Hinv) as (Hf & Hr & Ho).
  fold run in Hf, Hr, Ho.
  split; [exact Hf|]. split; [exact Hr|]. split; [exact Ho|].
  intros target -> -> Hv. rewrite Ho.
  destruct target as [|c target]; [discriminate|].
  simpl. rewrite Hv. reflexivity.
Qed.

Lemma analysis_with_invalid_current_witness :
  let run :=
    Session.bumpVersionWithAnalysis (H := Scenario.mod_host)
      Scenario.odd_files Mod.manual ["package.json"]
      (Mod.mkBumpOptions false None) (Some "1.0.0") in
  Mod.files_now (Mod.final run) = Scenario.odd_files /\
  Mod.outcome run = Ok tt.
Proof.
  destruct (@analysis_with_invalid_current Scenario.mod_host
              Scenario.odd_files Mod.manual ["package.json"]
              (Mod.mkBumpOptions false None) (Some "1.0.0") "abc"
              eq_refl eq_refl) as (Hf & _ & _ & Hm).
  split; [exact Hf|]. exact (Hm "1.0.0" eq_refl eq_refl eq_refl).
Defined.

(** X9. With an analysis before it, a run that writes records one result
    for each file that the analysis supports, in the order of the list
    (the files being all different); the result of a file is a failure
    exactly when the file cannot be written, with the message of the
    write error; a file that the analysis does not support is neither
    written nor reported, even when it cannot be read. *)
Theorem analysis_bump_results `{HM : Mod.Host} (fs : gmap string Fs.node)
    (bumpType : Mod.BumpMode) (files : list string)
    (options : Mod.BumpOptions) (bumpSet : option string)
    (currentVersion newVersion : string) :
  Mod.dryRun options = false ->
  Mod.getCurrentVersion fs = Ok currentVersion ->
  Mod.calculateNewVersion currentVersion bumpType
    (Mod.customVersion options) bumpSet = Ok newVersion ->
  NoDup files ->
  let run :=
    Session.bumpVersionWithAnalysis fs bumpType files options bumpSet in
  let supportedFiles :=
    List.filter
      (fun file => Mod.supported (Mod.analyzeFile fs currentVersion file))
      files in
  map Mod.result_file (Mod.updateResults (Mod.final run)) = supportedFiles /\
  (forall r, In r (Mod.updateResults (Mod.final run)) ->
     exists node,
       fs !! Mod.result_file r = Some node /\
       Mod.success r =
         match Fs.write_error node with None => true | Some _ => false end /\
       Mod.error_text r = err_message <$> Fs.write_error node) /\
  (forall file, ~ In file supportedFiles ->
     Mod.files_now (Mod.final run) !! file = fs !! file).
Proof.
  intros Hdry Hcur Hnew Hnd run supportedFiles.
  assert (Hrun : run =
            Mod.bumpVersion fs bumpType supportedFiles options [] bumpSet).
  { subst run supportedFiles. unfold Session.bumpVersionWithAnalysis.
    rewrite Hcur. cbv zeta. now rewrite LoopFacts.supported_files. }
  rewrite Hrun. unfold Mod.bumpVersion. rewrite Hcur, Hnew, Hdry.
  cbn [Mod.final Mod.outcome].
  rewrite (LoopFacts.filter_all (fun file => Mod.matchesGlobs file []))
    by reflexivity.
  assert (Hnd' : NoDup supportedFiles)
    by now apply LoopFacts.NoDup_filter_bool.
  destruct (ModFacts.bumpFiles_alone newVersion false fs supportedFiles
              (Mod.mkBumpState fs [] []) Hnd') as (H1 & _ & H3);
    [reflexivity|].
  assert (Hsup : forall f, In f supportedFiles ->
                   Mod.supported (Mod.analyzeFile fs currentVersion f) = true).
  { intros f [_ Hs]%filter_In. exact Hs. }
  rewrite H1. simpl. clear H1 Hrun Hnd Hnd'.
  split; [|split; [|exact H3]]; clear H3.
  - induction supportedFiles as [|f l IH]; [reflexivity|]. simpl.
    rewrite map_app, IH by (intros g Hg; apply Hsup; now right).
    destruct (LoopFacts.alone_supported fs currentVersion newVersion f
                (Hsup f (or_introl eq_refl))) as (node & _ & ->).
    reflexivity.
  - intros r (f & Hf & Hr)%in_flat_map.
    destruct (LoopFacts.alone_supported fs currentVersion newVersion f
                (Hsup f Hf)) as (node & Hn & E).
    rewrite E in Hr. destruct Hr as [<-|[]]. exists node. simpl. auto.
Qed.

Lemma analysis_bump_results_witness :
  let run :=
    Session.bumpVersionWithAnalysis (H := Scenario.mod_host)
      Scenario.library_files Mod.patch
      ["README.md"; "src/locked.ts"; "src/info.ts"]
      (Mod.mkBumpOptions false None) None in
  map Mod.result_file (Mod.updateResults (Mod.final run)) =
  ["src/locked.ts"; "src/info.ts"] /\
  Mod.files_now (Mod.final run) !! "README.md" = None.
Proof.
  assert (Hnd : NoDup ["README.md"; "src/locked.ts"; "src/info.ts"]).
  { apply (bool_decide_unpack _). vm_compute. exact I. }
  destruct (@analysis_bump_results Scenario.mod_host Scenario.library_files
              Mod.patch ["README.md"; "src/locked.ts"; "src/info.ts"]
              (Mod.mkBumpOptions false None) None "1.2.3" "1.2.4"
              eq_refl eq_refl eq_refl Hnd) as (H1 & _ & H3).
  split.
  - rewrite H1. vm_compute. reflexivity.
  - rewrite (H3 "README.md"); [reflexivity|].
    vm_compute. intros [E|[E|[]]]; discriminate.
Defined.

(** X10. handleInteractiveSession returns only when at least one file is
    supported and no file has a version mismatch; every file it then
    reports as supported holds a version that is equal, as a semantic
    version, to the project version. When the analysis supports no file
    of the list it throws the error that no files can be bumped, whose
    text ends with one line for each file of the list, in order: the file,
    a colon and the reason of its analysis. This is so for an empty list
    and for a project version that is not a valid version, where the
    reason of a file is a read error, the unsupported file type or the
    missing version field. *)
Theorem interactive_session_result (fs : gmap string Fs.node)
    (config : Session.SessionConfig) (projectVersion : string) :
  (forall r,
     fst (Session.handleInteractiveSession fs config projectVersion) = Ok r ->
     Session.supportedFiles r <> [] /\ Session.mismatchedFiles r = [] /\
     Session.fileAnalysis r =
       Mod.analyzeFiles fs (Session.filesToBump config) projectVersion /\
     forall a, In a (Session.supportedFiles r) ->
       In (Mod.file a) (Session.filesToBump config) /\
       Mod.reason a = "ok" /\
       exists found, Mod.detectedVersion a = Some found /\
                     Semver.eq found projectVersion = Ok true) /\
  ((forall file, In file (Session.filesToBump config) ->
      Mod.supported (Mod.analyzeFile fs projectVersion file) = false) ->
   fst (Session.handleInteractiveSession fs config projectVersion) =
   Throw (Error ("No files can be bumped. Analysis results:" ++
                 String (ascii_of_nat 10)
                   (Js.join (String (ascii_of_nat 10) "")
                      (map (fun file =>
                              file ++ ": " ++
                              Mod.reason
                                (Mod.analyzeFile fs projectVersion file))
                           (Session.filesToBump config)))))) /\
  (Session.filesToBump config = [] \/
   Mod.isValidSemver projectVersion = false ->
   forall file, In file (Session.filesToBump config) ->
     let a := Mod.analyzeFile fs projectVersion file in
     Mod.supported a = false /\
     ((exists e, Mod.reason a = "read error: " ++ error_string e) \/
      Mod.reason a = "unsupported file type" \/
      Mod.reason a = "no version field found")).
Proof.
  split; [|split].
  - unfold Session.handleInteractiveSession. cbv zeta.
    rewrite ModFacts.analyzeFiles_map.
    set (analysis := map (Mod.analyzeFile fs projectVersion)
                         (Session.filesToBump config)).
    intros r.
    destruct (List.filter Mod.supported analysis) as [|a0 sup] eqn:Hsup;
      [discriminate|].
    cbn [List.length Nat.eqb].
    destruct (List.filter Mod.versionMismatch analysis) as [|m0 mis] eqn:Hmis;
      [|discriminate].
    cbn [List.length Nat.ltb Nat.leb fst]. intros [= <-].
    cbn [Session.supportedFiles Session.mismatchedFiles Session.fileAnalysis].
    split; [discriminate|]. split; [reflexivity|]. split; [reflexivity|].
    intros a Ha. rewrite <- Hsup in Ha.
    apply filter_In in Ha as [Ha Hs].
    assert (Hm : Mod.versionMismatch a = false).
    { destruct (Mod.versionMismatch a) eqn:Hm; [|reflexivity].
      assert (Hin : In a (List.filter Mod.versionMismatch analysis))
        by (apply filter_In; auto).
      rewrite Hmis in Hin. destruct Hin. }
    apply in_map_iff in Ha as (f & <- & Hf).
    rewrite SessionFacts.analyzeFile_file. split; [exact Hf|].
    revert Hs Hm. unfold Mod.analyzeFile.
    destruct (Fs.readFile fs f) as [content|e]; [|discriminate].
    destruct (Mod.detectFileType f content); cbv beta iota zeta;
      try discriminate.
    all: match goal with
         | |- context [Mod.extractVersion ?x ?t] =>
             destruct (Mod.extractVersion x t) as [[|c found]|]
         end; try discriminate.
    all: destruct (Semver.eq (String c found) projectVersion) as [[]|e] eqn:He;
      try discriminate; intros _ _; split; [reflexivity|]; eauto.
  - intros Hnone.
    unfold Session.handleInteractiveSession. cbv zeta.
    rewrite ModFacts.analyzeFiles_map.
    rewrite (LoopFacts.filter_none Mod.supported).
    + cbn [List.length Nat.eqb fst].
      now rewrite AnalysisFacts.reasons_lines.
    + intros a (f & <- & Hf)%in_map_iff. now apply Hnone.
  - intros Hcase file Hin a. subst a.
    destruct Hcase as [E|Hinv]; [rewrite E in Hin; destruct Hin|].
    split.
    + now apply SessionFacts.analyzeFile_invalid.
    + now apply AnalysisFacts.analyzeFile_invalid_reason.
Qed.

Lemma interactive_session_result_witness :
  fst (Session.handleInteractiveSession Scenario.library_files
         (Session.mkSessionConfig false false "package.json"
            ["package.json"; "README.md"]
            (Mod.mkBumpOptions false None) Mod.patch) "next") =
  Throw (Error ("No files can be bumped. Analysis results:" ++
                Scenario.LF ++
                "package.json: read error: TypeError: Invalid Version: next"
                ++ Scenario.LF ++
                "README.md: read error: Error: ENOENT: no such file or directory, open 'README.md'")).
Proof.
  pose proof (interactive_session_result Scenario.library_files
                (Session.mkSessionConfig false false "package.json"
                   ["package.json"; "README.md"]
                   (Mod.mkBumpOptions false None) Mod.patch) "next")
    as (_ & Hthrow & Hcase).
  rewrite Hthrow; [reflexivity|].
  intros file Hin. exact (proj1 (Hcase (or_intror eq_refl) file Hin)).
Defined.

(** ** The configuration file *)

Module ConfigFacts.
Import Js JsFacts StringFacts Regex RegexFacts Config.

(** The leftmost match of a pattern stays where the leftmost match of
    another pattern was, when the text from there on is replaced by a
    text that it matches, and when it matches earlier only where the
    other pattern did. *)
Lemma exec_swap (A B : string -> option (matched * string))
    (pre t t' : string) (m m' : matched) (r r' : string) :
  exec A (pre ++ t) = Some (pre, m, r) ->
  B t' = Some (m', r') ->
  (forall b, b <> "" -> B (b ++ t') <> None -> A (b ++ t) <> None) ->
  exec B (pre ++ t') = Some (pre, m', r').
Proof.
  intros He Ht' Hshift.
  apply exec_inv in He as (t0 & E & _ & Hno).
  apply app_inv_head in E as <-.
  apply exec_intro; [exact Ht'|].
  intros a b Hab Hb.
  destruct (B (b ++ t')) eqn:E'; [|reflexivity].
  destruct (Hshift b Hb); [congruence | eauto].
Qed.

(** A pattern that matches only where another one does finds nothing
    where the other finds nothing. *)
Lemma exec_none (A B : string -> option (matched * string)) (s : string) :
  (forall t, B t <> None -> A t <> None) ->
  exec A s = None -> exec B s = None.
Proof.
  intros HAB. induction s as [|c s IH]; simpl.
  - destruct (A "") as [[m r]|] eqn:EA; [discriminate|]. intros _.
    destruct (B "") as [[m r]|] eqn:EB; [|reflexivity].
    destruct (HAB ""); congruence.
  - destruct (A (String c s)) as [[m r]|] eqn:EA; [discriminate|].
    destruct (exec A s) as [[[pre m] r]|]; [discriminate|]. intros _.
    rewrite IH by reflexivity.
    destruct (B (String c s)) as [[m r]|] eqn:EB; [|reflexivity].
    destruct (HAB (String c s)); congruence.
Qed.

Ltac border_step H b :=
  let c := fresh "c" in
  let E := fresh "E" in
  destruct b as [|c b];
  [ vm_compute in H; discriminate
  | cbn [lit String.append] in H;
    match type of H with
    | context [Ascii.eqb ?a c] =>
        destruct (Ascii.eqb a c) eqn:E;
        [apply Ascii.eqb_eq in E; subst c | discriminate]
    end ].

(** A text that starts with the name and holds the name later starts
    with the name before that: the name does not overlap itself. *)
Lemma bumpDisable_border (b X r : string) :
  lit "bumpDisable" (b ++ "bumpDisable" ++ X) = Some r ->
  b = "" \/ exists b', b = "bumpDisable" ++ b'.
Proof.
  intros H. destruct b as [|c b]; [now left|]. right.
  cbn [lit String.append] in H.
  destruct (Ascii.eqb "b" c) eqn:E; [|discriminate].
  apply Ascii.eqb_eq in E. subst c.
  do 10 border_step H b.
  exists b. reflexivity.
Qed.

Lemma bumpFilter_border (b X r : string) :
  lit "bumpFilter" (b ++ "bumpFilter" ++ X) = Some r ->
  b = "" \/ exists b', b = "bumpFilter" ++ b'.
Proof.
  intros H. destruct b as [|c b]; [now left|]. right.
  cbn [lit String.append] in H.
  destruct (Ascii.eqb "b" c) eqn:E; [|discriminate].
  apply Ascii.eqb_eq in E. subst c.
  do 9 border_step H b.
  exists b. reflexivity.
Qed.

(** Where the pattern that reads the flag matches, the pattern that
    rewrites it matches. *)
Lemma reader_writer (t : string) :
  bumpDisable_at t <> None -> setting_at "bumpDisable" t <> None.
Proof.
  unfold bumpDisable_at, setting_at.
  destruct (lit "bumpDisable" t) as [s1|]; [|auto].
  destruct (span is_space s1) as [w1 s2].
  destruct (one is_operator s2) as [[o s3]|]; [|auto].
  destruct (span is_space s3) as [w2 s4]. intros H.
  assert (Hs4 : exists d rest, s4 = String d rest /\ not_stop d = true).
  { destruct (lit "true" s4) eqn:E1.
    - apply lit_inv in E1 as ->. simpl. eauto.
    - destruct (lit "false" s4) eqn:E2; [|contradiction].
      apply lit_inv in E2 as ->. simpl. eauto. }
  destruct Hs4 as (d & rest & -> & Hd). simpl. rewrite Hd.
  destruct (span not_stop rest). discriminate.
Qed.

(** After a text that is not empty and before the name of the flag, the
    reading pattern matches only where the rewriting pattern matches,
    whatever follows the name. *)
Lemma bumpDisable_shift (b X X' : string) :
  b <> "" ->
  bumpDisable_at (b ++ "bumpDisable" ++ X') <> None ->
  setting_at "bumpDisable" (b ++ "bumpDisable" ++ X) <> None.
Proof.
  intros Hb H.
  assert (Hb' : exists b', b = "bumpDisable" ++ b').
  { destruct (lit "bumpDisable" (b ++ "bumpDisable" ++ X')) eqn:El.
    - apply bumpDisable_border in El as [->|?]; [contradiction | auto].
    - unfold bumpDisable_at in H. rewrite El in H. contradiction. }
  destruct Hb' as [b' ->]. clear Hb. revert H.
  unfold bumpDisable_at, setting_at.
  rewrite !(app_assoc "bumpDisable" b'), !lit_app.
  rewrite !span_before by (try reflexivity; discriminate).
  destruct (span is_space b') as [x y]. cbn [fst snd].
  destruct y as [|c y]; [simpl; auto|].
  cbn [one String.append].
  destruct (is_operator c); [|auto].
  rewrite !span_before by (try reflexivity; discriminate).
  destruct (span is_space y) as [x2 z]. cbn [fst snd].
  destruct z as [|d z]; [simpl; auto|].
  cbn [lit String.append].
  assert (Hd : Ascii.eqb "t" d = true \/ Ascii.eqb "f" d = true ->
               not_stop d = true).
  { intros [E|E]; apply Ascii.eqb_eq in E; subst d; reflexivity. }
  intros H.
  assert (Hns : not_stop d = true).
  { apply Hd. destruct (Ascii.eqb "t" d); [now left|].
    destruct (Ascii.eqb "f" d); [now right | contradiction]. }
  cbn [span]. rewrite Hns.
  match goal with
  | |- context [span not_stop ?s] => destruct (span not_stop s)
  end.
  discriminate.
Qed.

End ConfigFacts.

Module ConfigRuns.
Import Js JsFacts Regex RegexFacts Config ConfigFacts.

Lemma readFile_exists (fs : gmap string Fs.node) (p content : string) :
  Fs.readFile fs p = Ok content -> Fs.pathExists fs p = true.
Proof.
  unfold Fs.readFile, Fs.pathExists. destruct (fs !! p); [reflexivity|].
  discriminate.
Qed.

(** The flag that is read from a text in which the flag was rewritten. *)
Lemma flag_rewritten (content : string) (value : bool) :
  test (setting_at "bumpDisable") content = true ->
  first_group
    (exec bumpDisable_at
       (replace_template (setting_at "bumpDisable") content
          ("bumpDisable: " ++ formattedValue (value_boolean value)))) =
  Some (if value then "true" else "false").
Proof.
  unfold test, replace_template.
  destruct (exec (setting_at "bumpDisable") content) as [[[pre m] post]|] eqn:He;
    [|discriminate].
  intros _.
  rewrite ModFacts.substitution_plain by (destruct value; reflexivity).
  pose proof He as Hi. apply exec_inv in Hi as (t & Hc & Ht & _).
  assert (Hl : exists X, t = "bumpDisable" ++ X).
  { unfold setting_at in Ht.
    destruct (lit "bumpDisable" t) as [s1|] eqn:El; [|discriminate].
    apply lit_inv in El. eauto. }
  destruct Hl as [X ->]. rewrite Hc in He.
  assert (Hnew : forall v X',
             bumpDisable_at ("bumpDisable" ++ X') = Some (v, post) ->
             exec bumpDisable_at (pre ++ "bumpDisable" ++ X') =
             Some (pre, v, post)).
  { intros v X' Hv. apply (exec_swap _ _ _ _ _ _ _ _ _ He Hv).
    intros b Hb. apply bumpDisable_shift. exact Hb. }
  destruct value.
  - transitivity
      (first_group
         (Some (pre, mkMatched "bumpDisable: true" [Some "true"], post)));
      [f_equal | reflexivity].
    exact (Hnew (mkMatched "bumpDisable: true" [Some "true"])
                (": true" ++ post) eq_refl).
  - transitivity
      (first_group
         (Some (pre, mkMatched "bumpDisable: false" [Some "false"], post)));
      [f_equal | reflexivity].
    exact (Hnew (mkMatched "bumpDisable: false" [Some "false"])
                (": false" ++ post) eq_refl).
Qed.

(** No flag is read from a text in which there is no setting to
    rewrite. *)
Lemma flag_absent (content : string) :
  test (setting_at "bumpDisable") content = false ->
  first_group (exec bumpDisable_at content) = None.
Proof.
  unfold test.
  destruct (exec (setting_at "bumpDisable") content) eqn:He; [discriminate|].
  intros _. rewrite (exec_none _ bumpDisable_at _ reader_writer He).
  reflexivity.
Qed.

End ConfigRuns.

(** X11. Setting the flag and reading it back: when reliverse.ts can be
    read and written and holds a bumpDisable setting, isBumpDisabled
    returns, after setBumpDisabledValueTo, the value that was set. *)
Theorem bumpDisable_round_trip `{HC : Config.Host}
    (fs : gmap string Fs.node) (value : bool) (content : string) :
  Config.resolve (Config.join Config.PROJECT_ROOT "reliverse.ts") =
  Config.resolve "reliverse.ts" ->
  Fs.readFile fs (Config.resolve "reliverse.ts") = Ok content ->
  is_ok (Fs.writeFile fs (Config.resolve "reliverse.ts") content) = true ->
  Regex.test (Config.setting_at "bumpDisable") content = true ->
  Config.isBumpDisabled (Config.setBumpDisabledValueTo fs value) = value.
Proof.
  intros Hpath Hread Hwrite Hset.
  unfold Config.setBumpDisabledValueTo, Config.updateDlerConfig,
    Config.fileExists.
  rewrite Hpath, (ConfigRuns.readFile_exists _ _ _ Hread), Hread.
  cbn [negb]. cbv zeta.
  destruct (Fs.writeFile fs (Config.resolve "reliverse.ts")
              (Regex.replace_template (Config.setting_at "bumpDisable")
                 content
                 ("bumpDisable" ++ ": " ++
                  Config.formattedValue (Config.value_boolean value))))
    as [fs'|e] eqn:Hw.
  - pose proof (LoopFacts.writeFile_read _ _ _ _ _ Hread Hw) as Hread'.
    unfold Config.isBumpDisabled, Config.getConfigFromDler.
    rewrite (ConfigRuns.readFile_exists _ _ _ Hread'), Hread'.
    cbn [negb Config.bumpDisable].
    change ("bumpDisable" ++ ": " ++
            Config.formattedValue (Config.value_boolean value))
      with ("bumpDisable: " ++
            Config.formattedValue (Config.value_boolean value)).
    rewrite (ConfigRuns.flag_rewritten content value Hset).
    destruct value; reflexivity.
  - exfalso. revert Hwrite Hw. unfold Fs.writeFile.
    destruct (fs !! Config.resolve "reliverse.ts") as [n|]; [|discriminate].
    destruct (Fs.write_error n); discriminate.
Qed.

Lemma bumpDisable_round_trip_witness :
  Config.isBumpDisabled (H := Cases.config_host)
    (Config.setBumpDisabledValueTo (H := Cases.config_host)
       Cases.configured true) = true.
Proof.
  exact (@bumpDisable_round_trip Cases.config_host Cases.configured true
           (Cases.reliverse "false") eq_refl eq_refl eq_refl eq_refl).
Defined.

(** X12. setBumpDisabledValueTo never adds the setting: unless
    reliverse.ts can be read and holds a bumpDisable setting, the call
    leaves every file as it is, and isBumpDisabled is false before and
    after it. *)
Theorem bumpDisable_not_inserted `{HC : Config.Host}
    (fs : gmap string Fs.node) (value : bool) :
  Config.resolve (Config.join Config.PROJECT_ROOT "reliverse.ts") =
  Config.resolve "reliverse.ts" ->
  (forall content,
     Fs.readFile fs (Config.resolve "reliverse.ts") = Ok content ->
     Regex.test (Config.setting_at "bumpDisable") content = false) ->
  Config.setBumpDisabledValueTo fs value = fs /\
  Config.isBumpDisabled fs = false.
Proof.
  intros Hpath Hno.
  unfold Config.setBumpDisabledValueTo, Config.updateDlerConfig,
    Config.fileExists, Config.isBumpDisabled, Config.getConfigFromDler.
  rewrite Hpath.
  destruct (Fs.readFile fs (Config.resolve "reliverse.ts"))
    as [content|e] eqn:Hread.
  - specialize (Hno content eq_refl).
    rewrite (ConfigRuns.readFile_exists _ _ _ Hread). cbn [negb]. cbv zeta.
    split.
    + unfold Regex.replace_template. unfold Regex.test in Hno.
      destruct (Regex.exec (Config.setting_at "bumpDisable") content);
        [discriminate|].
      destruct (RunFacts.writeFile_same _ _ _ Hread) as [-> | [e ->]];
        reflexivity.
    + cbn [Config.bumpDisable].
      now rewrite (ConfigRuns.flag_absent content Hno).
  - destruct (negb (Fs.pathExists fs (Config.resolve "reliverse.ts")));
      split; reflexivity.
Qed.

Lemma bumpDisable_not_inserted_witness :
  Config.setBumpDisabledValueTo (H := Cases.config_host) ∅ true = ∅ /\
  Config.isBumpDisabled (H := Cases.config_host) ∅ = false.
Proof.
  apply (@bumpDisable_not_inserted Cases.config_host ∅ true eq_refl).
  intros content H. vm_compute in H. discriminate.
Defined.

Module ListFacts.
Import Js JsFacts Regex RegexFacts Config ConfigFacts.

Lemma cut_app (c : ascii) (h r : string) :
  has (Ascii.eqb c) h = false -> cut c (h ++ String c r) = (h, Some r).
Proof.
  induction h as [|a h IH]; simpl.
  - now rewrite Ascii.eqb_refl.
  - intros [Ha Hh]%orb_false_iff. rewrite Ascii.eqb_sym, Ha.
    now rewrite IH.
Qed.

Lemma includes_middle (a p b : string) : includes (a ++ p ++ b) p = true.
Proof.
  induction a as [|c a IH].
  - simpl. destruct (p ++ b) eqn:E; simpl; rewrite <- ?E;
      now rewrite startsWith_app.
  - change (String c a ++ p ++ b) with (String c (a ++ p ++ b)).
    cbn [includes]. rewrite IH. apply orb_true_r.
Qed.

Lemma remove_quotes_app (a b : string) :
  remove_quotes (a ++ b) = remove_quotes a ++ remove_quotes b.
Proof.
  induction a as [|c a IH]; [reflexivity|]. simpl.
  destruct (is_quote c); simpl; now rewrite IH.
Qed.

Lemma remove_quotes_id (n : string) :
  has is_quote n = false -> remove_quotes n = n.
Proof.
  induction n as [|c n IH]; [reflexivity|]. simpl.
  intros [Hc Hn]%orb_false_iff. rewrite Hc. now rewrite IH.
Qed.

Lemma remove_quotes_q (n : string) :
  has is_quote n = false -> remove_quotes (q n) = n.
Proof.
  intros Hn. unfold q, DQ.
  rewrite !remove_quotes_app, (remove_quotes_id n Hn).
  simpl. apply app_nil_r.
Qed.

Lemma trim_q (n : string) : trim (q n) = q n.
Proof.
  apply (SemverFacts.trim_id (q n) dquote dquote (n ++ DQ) (rev n ++ DQ)).
  - reflexivity.
  - reflexivity.
  - unfold q, DQ. rewrite rev_app. simpl. rewrite rev_app. reflexivity.
  - reflexivity.
Qed.

Lemma trim_space (s : string) : trim (String " " s) = trim s.
Proof.
  unfold trim, trimStart. simpl. now destruct (span is_space s).
Qed.

Lemma has_app_false (p : ascii -> bool) (a b : string) :
  has p a = false -> has p b = false -> has p (a ++ b) = false.
Proof. intros Ha Hb. now rewrite has_app, Ha, Hb. Qed.

Lemma has_weaken (p r : ascii -> bool) (s : string) :
  (forall c, r c = true -> p c = true) ->
  has p s = false -> has r s = false.
Proof.
  intros Hpr. induction s as [|c s IH]; [reflexivity|]. simpl.
  intros [Hc Hs]%orb_false_iff. rewrite IH by exact Hs.
  destruct (r c) eqn:E; [|reflexivity]. now rewrite (Hpr c E) in Hc.
Qed.

Lemma listable_inv (n : string) :
  listable n = true ->
  n <> "" /\ has is_quote n = false /\ has (Ascii.eqb ",") n = false /\
  has (Ascii.eqb "]") n = false.
Proof.
  unfold listable. intros [Hne Hh]%andb_true_iff.
  apply negb_true_iff in Hh. split.
  - intros ->. discriminate.
  - repeat split.
    + apply (has_weaken _ is_quote n) in Hh; [exact Hh|].
      intros c H. now rewrite H.
    + apply (has_weaken _ (Ascii.eqb ",") n) in Hh; [exact Hh|].
      intros c H. apply Ascii.eqb_eq in H. subst c. reflexivity.
    + apply (has_weaken _ (Ascii.eqb "]") n) in Hh; [exact Hh|].
      intros c H. apply Ascii.eqb_eq in H. subst c. reflexivity.
Qed.

Lemma q_without (c : ascii) (n : string) :
  is_quote c = false -> has (Ascii.eqb c) n = false ->
  has (Ascii.eqb c) (q n) = false.
Proof.
  intros Hc Hn. unfold q, DQ. rewrite !has_app, Hn. simpl.
  assert (E : Ascii.eqb c dquote = false).
  { destruct (Ascii.eqb c dquote) eqn:E; [|reflexivity].
    apply Ascii.eqb_eq in E. subst c. discriminate. }
  now rewrite E.
Qed.

(** The elements of a list that is written as by [formattedValue]. *)
Lemma split_list (n : string) (ns : list string) :
  Forall (fun m => listable m = true) (n :: ns) ->
  split "," (Js.join ", " (map q (n :: ns))) =
  q n :: map (fun m => " " ++ q m) ns.
Proof.
  revert n. induction ns as [|m ns IH]; intros n Hall.
  - change (Js.join ", " (map q [n])) with (q n). apply split_stop.
    apply Forall_inv in Hall. apply listable_inv in Hall as (_ & _ & H & _).
    now apply q_without.
  - pose proof (Forall_inv Hall) as Hn.
    apply listable_inv in Hn as (_ & _ & Hn & _).
    change (Js.join ", " (map q (n :: m :: ns)))
      with (q n ++ String "," (String " " (Js.join ", " (map q (m :: ns))))).
    rewrite split_app by now apply q_without.
    f_equal. cbn [split]. change (Ascii.eqb " " ",") with false. cbv iota.
    rewrite (IH m (Forall_inv_tail Hall)). reflexivity.
Qed.

Lemma list_no_bracket (names : list string) :
  Forall (fun m => listable m = true) names ->
  has (Ascii.eqb "]") (Js.join ", " (map q names)) = false.
Proof.
  induction names as [|n ns IH]; intros Hall; [reflexivity|].
  pose proof (Forall_inv Hall) as Hn.
  apply listable_inv in Hn as (_ & _ & _ & Hn).
  destruct ns as [|m ns]; [now apply q_without|].
  change (Js.join ", " (map q (n :: m :: ns)))
    with (q n ++ ", " ++ Js.join ", " (map q (m :: ns))).
  rewrite !has_app, (q_without "]" n eq_refl Hn).
  rewrite (IH (Forall_inv_tail Hall)). reflexivity.
Qed.

(** The files that are read from a list that is written as by
    [formattedValue]. *)
Lemma listed_written (n : string) (ns : list string) :
  Forall (fun m => listable m = true) (n :: ns) ->
  listed_files (Js.join ", " (map q (n :: ns))) = n :: ns.
Proof.
  intros Hall. unfold listed_files. rewrite (split_list n ns Hall).
  assert (Hone : forall m, listable m = true ->
                   negb (String.eqb (remove_quotes (trim (q m))) "") = true /\
                   remove_quotes (trim (q m)) = m).
  { intros m (Hne & Hq & _)%listable_inv.
    rewrite trim_q, (remove_quotes_q m Hq). split; [|reflexivity].
    destruct m; [contradiction | reflexivity]. }
  cbn [map List.filter].
  destruct (Hone n (Forall_inv Hall)) as [-> ->]. f_equal.
  apply Forall_inv_tail in Hall. clear n Hone.
  induction ns as [|m ns IH]; [reflexivity|]. cbn [map List.filter].
  change (" " ++ q m) with (String " " (q m)). rewrite trim_space.
  pose proof (Forall_inv Hall) as (Hne & Hq & _)%listable_inv.
  rewrite trim_q, (remove_quotes_q m Hq).
  destruct m as [|c m]; [contradiction|]. cbn [String.eqb negb].
  f_equal. apply IH. exact (Forall_inv_tail Hall).
Qed.

(** The pattern of bumpFilter matches nowhere in a text that does not
    hold the name, whatever follows the text. *)
Lemma bumpFilter_not_before (pre a b X : string) :
  includes pre "bumpFilter" = false -> pre = a ++ b -> b <> "" ->
  bumpFilter_at (b ++ "bumpFilter" ++ X) = None.
Proof.
  intros Hinc -> Hb. unfold bumpFilter_at.
  destruct (lit "bumpFilter" (b ++ "bumpFilter" ++ X)) eqn:El; [|reflexivity].
  apply bumpFilter_border in El as [->|[b' ->]]; [contradiction|].
  now rewrite includes_middle in Hinc.
Qed.

End ListFacts.

Module ListRuns.
Import Js JsFacts Regex RegexFacts Config ConfigFacts ListFacts.

Lemma bumpFilter_at_list (rest : string) :
  bumpFilter_at ("bumpFilter: [" ++ rest) =
  match cut "]" rest with
  | (g, Some r) =>
      Some (mkMatched ("bumpFilter: [" ++ g ++ "]") [Some g], r)
  | (_, None) => None
  end.
Proof. reflexivity. Qed.

Lemma bumpFilter_written (body post : string) :
  has (Ascii.eqb "]") body = false ->
  exists m,
    bumpFilter_at ("bumpFilter: " ++ ("[" ++ body ++ "]") ++ post) =
    Some (m, post) /\
    captures m = [Some body].
Proof.
  intros Hb.
  assert (E : "bumpFilter: " ++ ("[" ++ body ++ "]") ++ post =
              "bumpFilter: [" ++ body ++ String "]" post).
  { cbn [String.append]. now rewrite app_assoc. }
  rewrite E, bumpFilter_at_list, (cut_app "]" body post Hb). eauto.
Qed.

Lemma listed_first_group (pre body post : string) :
  includes pre "bumpFilter" = false ->
  has (Ascii.eqb "]") body = false ->
  first_group
    (exec bumpFilter_at
       (pre ++ "bumpFilter: " ++ ("[" ++ body ++ "]") ++ post)) =
  Some body.
Proof.
  intros Hpre Hb.
  destruct (bumpFilter_written body post Hb) as (m & Hm & Hc).
  rewrite (exec_intro bumpFilter_at pre _ m post Hm).
  - unfold first_group, capture. rewrite Hc. reflexivity.
  - intros a b Hab Hne.
    exact (bumpFilter_not_before pre a b
             (": " ++ ("[" ++ body ++ "]") ++ post) Hpre Hab Hne).
Qed.

End ListRuns.

(** X13. The files that getFilesFromConfigOrDefault reads. Without a
    reliverse.ts that can be read they are the two default files. From a
    reliverse.ts whose first mention of bumpFilter is a list written as
    updateDlerConfig formats one, of names that are not empty and hold no
    quote, comma or closing bracket, the names come back as they are and
    in order; and an empty list gives the two default files. *)
Theorem listed_files_read `{HC : Config.Host} (fs : gmap string Fs.node) :
  (is_ok (Fs.readFile fs (Config.resolve "reliverse.ts")) = false ->
   Config.getFilesFromConfigOrDefault fs = Config.default_files) /\
  (forall pre names post,
     Fs.readFile fs (Config.resolve "reliverse.ts") =
     Ok (pre ++ "bumpFilter: " ++
         Config.formattedValue (Config.value_array names) ++ post) ->
     Js.includes pre "bumpFilter" = false ->
     Forall (fun name => Config.listable name = true) names ->
     Config.getFilesFromConfigOrDefault fs =
     match names with [] => Config.default_files | _ => names end).
Proof.
  unfold Config.getFilesFromConfigOrDefault, Config.getConfigFromDler.
  split.
  - destruct (Fs.readFile fs (Config.resolve "reliverse.ts"));
      [discriminate|].
    intros _.
    destruct (negb (Fs.pathExists fs (Config.resolve "reliverse.ts")));
      reflexivity.
  - intros pre names post Hread Hpre Hall.
    rewrite (ConfigRuns.readFile_exists _ _ _ Hread), Hread.
    cbn [negb Config.files Config.formattedValue].
    rewrite (ListRuns.listed_first_group pre _ post Hpre
               (ListFacts.list_no_bracket names Hall)).
    destruct names as [|n ns]; [reflexivity|].
    assert (Htruthy : Js.truthy
                        (Some (Js.join ", " (map Js.q (n :: ns)))) = true).
    { destruct ns; reflexivity. }
    rewrite Htruthy. cbn [default]. simpl default.
    exact (ListFacts.listed_written n ns Hall).
Qed.

Lemma listed_files_read_witness :
  Config.getFilesFromConfigOrDefault (H := Cases.config_host)
    Cases.configured = ["package.json"; "src/info.ts"].
Proof.
  exact (proj2 (@listed_files_read Cases.config_host Cases.configured)
           "export default { bumpDisable: false, "
           ["package.json"; "src/info.ts"] " };"
           eq_refl eq_refl ltac:(repeat constructor)).
Defined.

(** ** The CLI module: what a run leaves alone *)

Module CliFacts.
Import Js JsFacts Impl ImplFacts.
Local Open Scope impl_scope.

(** [bumpVersions] throws only before it has written. *)
Lemma bumpVersions_throws `{Host} (oldVersion newVersion : string)
    (bumpFilter : list string) (dryRun : bool) (w : World) (e : error) :
  fst (bumpVersions oldVersion newVersion bumpFilter dryRun w) = Throw e ->
  files (snd (bumpVersions oldVersion newVersion bumpFilter dryRun w)) =
  files w.
Proof.
  unfold bumpVersions, try_catch, bind.
  destruct (ignorePatterns_returns w) as (ignore & ->).
  destruct (glob (filePatterns bumpFilter) ignore (files w)) as [l|e'];
    [|reflexivity].
  destruct (bumpFiles_returns oldVersion newVersion dryRun l [] w)
    as (mf & w' & ->).
  destruct (summary_returns oldVersion newVersion dryRun mf w')
    as (w'' & ->).
  discriminate.
Qed.

(** The write of a file leaves the other paths alone. *)
Lemma writeFileSafe_other (filePath content reason g : string) (w : World) :
  g <> filePath ->
  files (snd (writeFileSafe filePath content reason w)) !! g = files w !! g.
Proof.
  intros Hg. unfold writeFileSafe, try_catch, fs_writeFile, bind, relinka,
    throw.
  destruct (Fs.writeFile (files w) filePath content) as [fs'|e] eqn:Hw;
    simpl; [|reflexivity].
  exact (ModFacts.writeFile_other _ _ _ _ _ Hw Hg).
Qed.

Lemma updateVersionInContent_other `{Host}
    (filePath content oldVersion newVersion g : string) (w : World) :
  g <> filePath ->
  files (snd (updateVersionInContent filePath content oldVersion newVersion
                w)) !! g = files w !! g.
Proof.
  intros Hg. unfold updateVersionInContent.
  match goal with |- context [let '(_, _) := ?p in _] =>
    destruct p as [updatedContent changed] end.
  destruct changed; [|reflexivity].
  unfold bind.
  pose proof (writeFileSafe_other filePath updatedContent "version update"
                g w Hg) as Hw.
  destruct (writeFileSafe filePath updatedContent "version update" w)
    as [[[]|e] w']; exact Hw.
Qed.

(** The texts that [updateVersionInContent] does not touch. *)
Lemma updateVersionInContent_skips `{Host}
    (filePath content oldVersion newVersion : string) (w : World) :
  (is_json_path filePath = false /\ endsWith filePath ".ts" = false) \/
  (is_json_path filePath = true /\
   includes content (q "version" ++ ": " ++ q oldVersion) = false) ->
  updateVersionInContent filePath content oldVersion newVersion w =
  (Ok false, w).
Proof.
  unfold updateVersionInContent. intros [[-> ->]|[-> Hinc]]; [reflexivity|].
  rewrite Hinc.
  destruct (find (fun p => String.eqb (id p) "json-version") VERSION_PATTERNS);
    reflexivity.
Qed.

(** The task of a file leaves a path alone when the path is another one,
    when no file is there, when its name has none of the extensions, or
    when it is a JSON file without the member at the old version. *)
Lemma bumpFile_leaves `{Host} (oldVersion newVersion : string)
    (dryRun : bool) (modifiedFiles : list string) (file g : string)
    (w : World) :
  g <> file \/ Fs.pathExists (files w) g = false \/
  (is_json_path g = false /\ endsWith g ".ts" = false) \/
  (is_json_path g = true /\
   forall content, Fs.readFile (files w) g = Ok content ->
     includes content (q "version" ++ ": " ++ q oldVersion) = false) ->
  files (snd (bumpFile oldVersion newVersion dryRun modifiedFiles file w))
    !! g = files w !! g.
Proof.
  intros Hcase. unfold bumpFile, try_catch, bind, pathExists.
  cbn [fst snd].
  destruct (Fs.pathExists (files w) file) eqn:Hex; cbn [negb];
    [|reflexivity].
  unfold readFileSafe, try_catch, fs_readFile, bind, relinka, throw, ret.
  destruct (Fs.readFile (files w) file) as [content|e] eqn:Hread;
    [|reflexivity].
  assert (Hup : files (snd (updateVersionInContent file content oldVersion
                              newVersion w)) !! g = files w !! g).
  { destruct Hcase as [Hg|[Hno|Hskip]].
    - now apply updateVersionInContent_other.
    - destruct (String.eqb g file) eqn:E.
      + apply String.eqb_eq in E. subst g. congruence.
      + apply String.eqb_neq in E. now apply updateVersionInContent_other.
    - destruct (String.eqb g file) eqn:E.
      + apply String.eqb_eq in E. subst g.
        rewrite updateVersionInContent_skips; [reflexivity|].
        destruct Hskip as [Hext|[Hj Hinc]]; [now left|].
        right. split; [exact Hj|]. now apply Hinc.
      + apply String.eqb_neq in E. now apply updateVersionInContent_other. }
  destruct (updateVersionInContent file content oldVersion newVersion w)
    as [[[]|e] w']; cbn [snd] in Hup |- *; try exact Hup.
  destruct dryRun; exact Hup.
Qed.

Lemma bumpFiles_leaves `{Host} (oldVersion newVersion : string)
    (dryRun : bool) (matchedFiles modifiedFiles : list string) (g : string)
    (w : World) :
  ~ In g matchedFiles \/ Fs.pathExists (files w) g = false \/
  (is_json_path g = false /\ endsWith g ".ts" = false) \/
  (is_json_path g = true /\
   forall content, Fs.readFile (files w) g = Ok content ->
     includes content (q "version" ++ ": " ++ q oldVersion) = false) ->
  files (snd (bumpFiles oldVersion newVersion dryRun modifiedFiles
                matchedFiles w)) !! g = files w !! g.
Proof.
  revert modifiedFiles w.
  induction matchedFiles as [|file rest IH]; intros mf w Hcase;
    [reflexivity|].
  cbn [bumpFiles]. unfold bind.
  assert (Hstep : files (snd (bumpFile oldVersion newVersion dryRun mf file
                                w)) !! g = files w !! g).
  { apply bumpFile_leaves. destruct Hcase as [Hin|Hrest]; [|now right].
    left. intros ->. apply Hin. now left. }
  destruct (bumpFile_returns oldVersion newVersion dryRun mf file w)
    as (mf' & w' & E).
  rewrite E in Hstep |- *. cbn [snd] in Hstep.
  rewrite IH; [exact Hstep|].
  unfold Fs.pathExists, Fs.readFile. rewrite Hstep.
  destruct Hcase as [Hin|Hrest]; [|right; exact Hrest].
  left. intros Hr. apply Hin. now right.
Qed.

End CliFacts.

(** X14. When bumpHandler of the CLI module throws, it has written
    nothing: the files are those it was started on. *)
Theorem cli_failure_writes_nothing `{HI : Impl.Host}
    (bumpMode : Impl.BumpMode) (bumpDisable : bool)
    (bumpFilter : list string) (dryRun : bool) (w : Impl.World)
    (e : error) :
  fst (Impl.bumpHandler bumpMode bumpDisable bumpFilter dryRun w) = Throw e ->
  Impl.files (snd (Impl.bumpHandler bumpMode bumpDisable bumpFilter dryRun w))
  = Impl.files w.
Proof.
  unfold Impl.bumpHandler. destruct bumpDisable; [discriminate|].
  unfold Impl.bind, Impl.pathExists, Impl.throw, Impl.relinka.
  destruct (Fs.pathExists (Impl.files w) (Impl.path_resolve "package.json"));
    cbn [negb]; [|reflexivity].
  destruct (Impl.readPackageJSON_version (Impl.files w)) as [version|e'];
    [|reflexivity].
  destruct (negb (Js.truthy version)); [reflexivity|].
  destruct (Semver.valid (default "" version)); [|reflexivity].
  destruct (Impl.autoIncrementVersion (default "" version) bumpMode)
    as [incremented|e']; [|reflexivity].
  unfold Impl.bump_if_changed.
  destruct (negb (String.eqb (default "" version) incremented));
    [|discriminate].
  intros Hthrow.
  exact (CliFacts.bumpVersions_throws _ _ _ _ _ e Hthrow).
Qed.

Lemma cli_failure_writes_nothing_witness :
  Impl.files
    (snd (Impl.bumpHandler (H := Scenario.impl_host) Impl.autoPatch false []
            false (Scenario.start ∅))) = ∅.
Proof.
  exact (@cli_failure_writes_nothing Scenario.impl_host Impl.autoPatch false
           [] false (Scenario.start ∅) (Error "package.json not found")
           eq_refl).
Defined.

(** X15. What bumpVersions of the CLI module leaves alone: a path that
    glob did not return, a path that holds no file (no file is created),
    a path whose name ends neither in .json, .jsonc or .json5 nor in .ts,
    and a JSON file whose text does not hold the version member at the
    old version with exactly one space after the colon. *)
Theorem cli_untouched_paths `{HI : Impl.Host} (oldVersion newVersion : string)
    (bumpFilter : list string) (dryRun : bool) (w : Impl.World)
    (path : string) :
  (forall ignore matchedFiles,
     Impl.glob (Impl.filePatterns bumpFilter) ignore (Impl.files w) =
     Ok matchedFiles -> ~ In path matchedFiles) \/
  Fs.pathExists (Impl.files w) path = false \/
  (Impl.is_json_path path = false /\ Js.endsWith path ".ts" = false) \/
  (Impl.is_json_path path = true /\
   forall content, Fs.readFile (Impl.files w) path = Ok content ->
     Js.includes content (Js.q "version" ++ ": " ++ Js.q oldVersion)
     = false) ->
  Impl.files (snd (Impl.bumpVersions oldVersion newVersion bumpFilter dryRun
                     w)) !! path = Impl.files w !! path.
Proof.
  intros Hcase. unfold Impl.bumpVersions, Impl.try_catch, Impl.bind.
  destruct (ImplFacts.ignorePatterns_returns w) as (ignore & ->).
  destruct (Impl.glob (Impl.filePatterns bumpFilter) ignore (Impl.files w))
    as [l|e'] eqn:Hglob; [|reflexivity].
  pose proof (CliFacts.bumpFiles_leaves oldVersion newVersion dryRun l []
                path w) as Hl.
  destruct (ImplFacts.bumpFiles_returns oldVersion newVersion dryRun l [] w)
    as (mf & w' & E).
  rewrite E in Hl |- *. cbn [snd] in Hl.
  destruct (ImplFacts.summary_returns oldVersion newVersion dryRun mf w')
    as (w'' & Es).
  assert (Hs : Impl.files w'' = Impl.files w').
  { revert Es. unfold Impl.summary.
    destruct (Nat.ltb 0 (List.length mf)); intros [= <-]; reflexivity. }
  rewrite Es. cbn [snd]. rewrite Hs. apply Hl.
  destruct Hcase as [Hg|Hrest]; [|now right].
  left. exact (Hg ignore l Hglob).
Qed.

Lemma cli_untouched_paths_witness :
  Impl.files
    (snd (Impl.bumpVersions (H := Scenario.impl_host) "1.2.3" "1.2.4"
            ["package.json"] false (Scenario.start Scenario.library_files)))
    !! "src/info.js" = Scenario.library_files !! "src/info.js".
Proof.
  apply (@cli_untouched_paths Scenario.impl_host "1.2.3" "1.2.4"
           ["package.json"] false (Scenario.start Scenario.library_files)
           "src/info.js").
  right. right. left. split; reflexivity.
Defined.

Module PatternFacts.
Import Js JsFacts StringFacts Impl ImplFacts.

(** The lines of a text that is made of lines. *)
Lemma split_lines (lines : list string) :
  lines <> [] ->
  Forall (fun line => has (Ascii.eqb (ascii_of_nat 10)) line = false) lines ->
  split (ascii_of_nat 10) (join (String (ascii_of_nat 10) "") lines) = lines.
Proof.
  induction lines as [|x [|y l] IH]; intros Hne Hall.
  - contradiction.
  - simpl. apply split_stop. exact (Forall_inv Hall).
  - change (join (String (ascii_of_nat 10) "") (x :: y :: l))
      with (x ++ String (ascii_of_nat 10)
                   (join (String (ascii_of_nat 10) "") (y :: l))).
    rewrite split_app by exact (Forall_inv Hall).
    f_equal. apply IH; [discriminate | exact (Forall_inv_tail Hall)].
Qed.

(** The trimmed lines of a text whose lines end with a carriage
    return. *)
Lemma split_lines_cr (lines : list string) :
  lines <> [] ->
  Forall (fun line => has (Ascii.eqb (ascii_of_nat 10)) line = false) lines ->
  map trim
    (split (ascii_of_nat 10)
       (join (String (ascii_of_nat 13) (String (ascii_of_nat 10) "")) lines))
  = map trim lines.
Proof.
  induction lines as [|x [|y l] IH]; intros Hne Hall.
  - contradiction.
  - simpl join. rewrite split_stop by exact (Forall_inv Hall). reflexivity.
  - change (join (String (ascii_of_nat 13) (String (ascii_of_nat 10) ""))
                 (x :: y :: l))
      with (x ++ String (ascii_of_nat 13)
                   (String (ascii_of_nat 10)
                      (join (String (ascii_of_nat 13)
                               (String (ascii_of_nat 10) "")) (y :: l)))).
    change (x ++ String (ascii_of_nat 13) (String (ascii_of_nat 10) ?r))
      with (x ++ String (ascii_of_nat 13) "" ++ String (ascii_of_nat 10) r).
    rewrite <- app_assoc.
    rewrite split_app.
    + cbn [map]. rewrite trim_cr. f_equal.
      apply IH; [discriminate | exact (Forall_inv_tail Hall)].
    + rewrite has_app, (Forall_inv Hall). reflexivity.
Qed.

Lemma trimmed_filters (l : list string) :
  Forall (fun f => trim f = f /\ f <> "") l ->
  map (fun f => glob_of_filter (trim f))
      (List.filter (fun f => negb (blank f)) l) =
  map glob_of_filter l.
Proof.
  induction 1 as [|f l [Ht Hf] _ IH]; [reflexivity|].
  simpl. unfold blank at 1. rewrite Ht.
  apply String.eqb_neq in Hf. rewrite Hf. simpl. now rewrite Ht, IH.
Qed.

(** The patterns of filters that come trimmed and not empty. *)
Lemma filePatterns_trimmed (l : list string) :
  l <> [] ->
  Forall (fun f => trim f = f /\ f <> "") l ->
  filePatterns l = map glob_of_filter l.
Proof.
  intros Hne Hall. unfold filePatterns.
  destruct l as [|f0 l0]; [contradiction|].
  change (Nat.ltb 0 (List.length (f0 :: l0))) with true. cbv iota.
  rewrite (add_filters (f0 :: l0) []).
  exact (trimmed_filters (f0 :: l0) Hall).
Qed.

End PatternFacts.

(** X16. The ignore patterns of a .gitignore do not depend on its line
    endings: a text whose lines end with CR LF gives the patterns of the
    text whose lines end with LF, one pattern for each line that, once
    trimmed, is neither empty nor a comment. *)
Theorem gitignore_line_endings (lines : list string) :
  Forall (fun line => Js.has (Ascii.eqb (ascii_of_nat 10)) line = false)
         lines ->
  let keep line :=
    negb (String.eqb line EmptyString) && negb (Js.startsWith line "#") in
  Impl.gitignore_patterns
    (Js.join (String (ascii_of_nat 10) "") lines) =
  map Impl.gitignore_pattern (List.filter keep (map Js.trim lines)) /\
  Impl.gitignore_patterns
    (Js.join (String (ascii_of_nat 13) (String (ascii_of_nat 10) "")) lines) =
  map Impl.gitignore_pattern (List.filter keep (map Js.trim lines)).
Proof.
  intros Hall keep. unfold Impl.gitignore_patterns.
  destruct lines as [|x l]; [split; reflexivity|].
  rewrite PatternFacts.split_lines by (try discriminate; exact Hall).
  rewrite PatternFacts.split_lines_cr by (try discriminate; exact Hall).
  split; reflexivity.
Qed.

Lemma gitignore_line_endings_witness :
  Impl.gitignore_patterns
    (Js.join (String (ascii_of_nat 13) (String (ascii_of_nat 10) ""))
       ["# build"; "/dist"; ""; "cache/"; "*.log "]) =
  ["dist"; "**/cache/**"; "**/*.log"].
Proof.
  rewrite (proj2 (gitignore_line_endings
                    ["# build"; "/dist"; ""; "cache/"; "*.log "]
                    ltac:(repeat constructor))).
  reflexivity.
Defined.

(** X17. The list of files that the command line hands to bumpHandler:
    every name is trimmed and not empty, so bumpVersions makes one glob
    pattern of each name as it is; and the list is empty, and the pattern
    of the manifest is used, exactly when every name that was given is
    blank. *)
Theorem cli_file_patterns (effective : list string) :
  let arr := Cli.filesToBumpArr effective in
  Forall (fun f => Js.trim f = f /\ f <> "") arr /\
  Impl.filePatterns arr =
    match arr with
    | [] => ["**/package.json"]
    | _ => map Impl.glob_of_filter arr
    end /\
  (arr = [] <-> Forall (fun f => Impl.blank f = true) effective).
Proof.
  intros arr.
  assert (Hall : Forall (fun f => Js.trim f = f /\ f <> "") arr).
  { subst arr. unfold Cli.filesToBumpArr. apply List.Forall_forall.
    intros f [Hin Hf]%filter_In. apply in_map_iff in Hin as (g & <- & _).
    split; [apply StringFacts.trim_idem|].
    intros E. rewrite E in Hf. discriminate. }
  split; [exact Hall|]. split.
  - destruct arr as [|f l] eqn:E; [reflexivity|]. rewrite <- E in *.
    apply PatternFacts.filePatterns_trimmed; [|exact Hall].
    rewrite E. discriminate.
  - subst arr. unfold Cli.filesToBumpArr, Impl.blank. clear Hall.
    induction effective as [|f l IH]; simpl.
    + split; [constructor | reflexivity].
    + destruct (String.eqb (Js.trim f) "") eqn:E; simpl.
      * rewrite IH. split.
        -- intros H. constructor; [exact E | exact H].
        -- intros H. exact (Forall_inv_tail H).
      * split; [discriminate|]. intros H. apply Forall_inv in H.
        congruence.
Qed.

(** X18. The increment of the bump modes fails for the current versions
    that are not valid, and for no other: calculateNewVersion in the
    modes patch, minor, major and auto, and autoIncrementVersion, return
    for every valid version, and throw their error of the invalid version
    otherwise. *)
Theorem increment_fails_when_invalid (current : string) :
  (forall bumpType customVersion bumpSet,
     bumpType <> Mod.manual ->
     if Mod.isValidSemver current
     then is_ok (Mod.calculateNewVersion current bumpType customVersion
                   bumpSet) = true
     else Mod.calculateNewVersion current bumpType customVersion bumpSet =
          Throw (Error ("failed to bump version " ++ current ++
                        " with type " ++ Mod.bumpType_name bumpType))) /\
  (forall bumpMode,
     if Mod.isValidSemver current
     then is_ok (Impl.autoIncrementVersion current bumpMode) = true
     else Impl.autoIncrementVersion current bumpMode =
          Throw (Error ("Can't auto-increment invalid version: " ++
                        current))).
Proof.
  unfold Mod.isValidSemver, Impl.autoIncrementVersion, Semver.valid,
    Semver.inc.
  split.
  - intros bumpType customVersion bumpSet Hm.
    destruct bumpType; try contradiction; simpl; unfold Semver.inc;
      destruct (Semver.parse current); reflexivity.
  - intros bumpMode. destruct (Semver.parse current); reflexivity.
Qed.

Lemma increment_fails_when_invalid_witness :
  Mod.calculateNewVersion "1.2" Mod.auto None None =
  Throw (Error "failed to bump version 1.2 with type auto").
Proof.
  exact (proj1 (increment_fails_when_invalid "1.2") Mod.auto None None
           ltac:(discriminate)).
Defined.

(** ** The globs of the library module *)

Module GlobFacts.
Import Js JsFacts Regex RegexFacts Mod Glob.

Lemma lit_shorter (x s r : string) :
  x <> "" -> lit x s = Some r -> (String.length r < String.length s)%nat.
Proof.
  intros Hx H. apply lit_inv in H as ->. rewrite app_length.
  destruct x; [contradiction|]. simpl. lia.
Qed.

(** Enough fuel is as good as more fuel. *)
Lemma replace_all_fuel_enough (x rep : string) (f1 f2 : nat) (s : string) :
  x <> "" ->
  (String.length s < f1)%nat -> (String.length s < f2)%nat ->
  replace_all_fuel f1 x rep s = replace_all_fuel f2 x rep s.
Proof.
  intros Hx. revert f2 s.
  induction f1 as [|f1 IH]; intros f2 s H1 H2; [lia|].
  destruct f2 as [|f2]; [lia|]. simpl.
  destruct (lit x s) as [r|] eqn:El.
  - destruct x; [contradiction|].
    pose proof (lit_shorter _ _ _ Hx El).
    f_equal. apply IH; lia.
  - destruct s as [|c r]; [reflexivity|]. simpl in *.
    f_equal. apply IH; lia.
Qed.

(** [replace_all], one step at a time. *)
Lemma replace_all_step (x rep s : string) :
  x <> "" ->
  replace_all x rep s =
  match lit x s with
  | Some r => rep ++ replace_all x rep r
  | None =>
      match s with
      | EmptyString => EmptyString
      | String c r => String c (replace_all x rep r)
      end
  end.
Proof.
  intros Hx. unfold replace_all at 1. cbn [replace_all_fuel].
  destruct (lit x s) as [r|] eqn:El.
  - destruct x; [contradiction|].
    pose proof (lit_shorter _ _ _ Hx El).
    f_equal. apply replace_all_fuel_enough; [exact Hx | lia | lia].
  - destruct s as [|c r]; [reflexivity|]. f_equal.
Qed.

Lemma replace_all_hit (x rep r : string) :
  x <> "" -> replace_all x rep (x ++ r) = rep ++ replace_all x rep r.
Proof. intros Hx. now rewrite replace_all_step, lit_app. Qed.

(** A text without the first character of the needle is copied. *)
Lemma replace_all_copy (x0 : ascii) (x rep w s : string) :
  has (Ascii.eqb x0) w = false ->
  replace_all (String x0 x) rep (w ++ s) =
  w ++ replace_all (String x0 x) rep s.
Proof.
  induction w as [|c w IH]; [reflexivity|]. simpl has.
  intros [Hc Hw]%orb_false_iff.
  change (String c w ++ s) with (String c (w ++ s)).
  rewrite replace_all_step by discriminate.
  cbn [lit]. rewrite Hc. change (String c w ++ ?t) with (String c (w ++ t)).
  f_equal. now apply IH.
Qed.

Lemma lit_startsWith (x s : string) :
  lit x s = None <-> startsWith s x = false.
Proof.
  revert s. induction x as [|a x IH]; intros s; simpl.
  - split; discriminate.
  - destruct s as [|b s]; [tauto|].
    destruct (Ascii.eqb a b); simpl; [apply IH | tauto].
Qed.

(** *** The replacements, token by token *)

Lemma replaced_copy (w s : string) :
  has (Ascii.eqb "*") w = false -> has (Ascii.eqb "D") w = false ->
  has (Ascii.eqb "?") w = false ->
  replaced (w ++ s) = w ++ replaced s.
Proof.
  intros H1 H2 H3. unfold replaced, starred.
  now rewrite !replace_all_copy.
Qed.

Lemma starred_cons (c : ascii) (s : string) :
  Ascii.eqb "*" c = false -> starred (String c s) = String c (starred s).
Proof.
  intros Hc. unfold starred.
  rewrite (replace_all_copy "*" "*" _ (String c "") s)
    by (cbn [has]; now rewrite Hc).
  rewrite (replace_all_copy "*" "" _ (String c "")) by (cbn [has]; now rewrite Hc).
  reflexivity.
Qed.

Lemma starred_stars (s : string) :
  starred ("**" ++ s) = "DOUBLESTAR" ++ starred s.
Proof.
  unfold starred. rewrite replace_all_hit by discriminate.
  now rewrite (replace_all_copy "*" "" _ "DOUBLESTAR").
Qed.

Lemma starred_star (s : string) :
  startsWith s "*" = false -> starred (String "*" s) = "[^/]*" ++ starred s.
Proof.
  intros Hs. unfold starred.
  rewrite (replace_all_step "**") by discriminate.
  assert (El : lit "**" (String "*" s) = None).
  { change (lit "**" (String "*" s)) with (lit "*" s).
    now apply lit_startsWith. }
  rewrite El.
  change (String "*" (replace_all "**" "DOUBLESTAR" s))
    with ("*" ++ replace_all "**" "DOUBLESTAR" s).
  now rewrite replace_all_hit by discriminate.
Qed.

Lemma replaced_stars (s : string) : replaced ("**" ++ s) = ".*" ++ replaced s.
Proof.
  unfold replaced. rewrite starred_stars.
  rewrite replace_all_hit by discriminate.
  now rewrite (replace_all_copy "?" "" _ ".*").
Qed.

Lemma replaced_star (s : string) :
  startsWith s "*" = false -> replaced (String "*" s) = "[^/]*" ++ replaced s.
Proof.
  intros Hs. unfold replaced. rewrite (starred_star s Hs).
  rewrite (replace_all_copy "D" "OUBLESTAR" _ "[^/]*") by reflexivity.
  now rewrite (replace_all_copy "?" "" _ "[^/]*").
Qed.

Lemma replaced_question (s : string) :
  replaced (String "?" s) = "[^/]" ++ replaced s.
Proof.
  unfold replaced. rewrite starred_cons by reflexivity.
  rewrite (replace_all_copy "D" "OUBLESTAR" _ "?" (starred s)) by reflexivity.
  change ("?" ++ ?t) with (String "?" t).
  change (String "?" ?t) with ("?" ++ t).
  now rewrite replace_all_hit by discriminate.
Qed.

Lemma replaced_D (s : string) :
  startsWith (starred s) "OUBLESTAR" = false ->
  replaced (String "D" s) = String "D" (replaced s).
Proof.
  intros Hs. unfold replaced. rewrite starred_cons by reflexivity.
  rewrite (replace_all_step "DOUBLESTAR") by discriminate.
  assert (El : lit "DOUBLESTAR" (String "D" (starred s)) = None).
  { change (lit "DOUBLESTAR" (String "D" (starred s)))
      with (lit "OUBLESTAR" (starred s)).
    now apply lit_startsWith. }
  rewrite El.
  change (String "D" (replace_all "DOUBLESTAR" ".*" (starred s)))
    with ("D" ++ replace_all "DOUBLESTAR" ".*" (starred s)).
  now rewrite (replace_all_copy "?" "" _ "D").
Qed.

Lemma escape_cons (c : ascii) (r : string) :
  escape_regex_chars (String c r) =
  if regex_char c then String "\" (String c (escape_regex_chars r))
  else String c (escape_regex_chars r).
Proof. reflexivity. Qed.

(** A character that is escaped is none of the given one, when the given
    one is not escaped. *)
Lemma regex_char_other (x c : ascii) :
  regex_char x = false -> regex_char c = true -> Ascii.eqb x c = false.
Proof.
  intros Hx Hc. destruct (Ascii.eqb x c) eqn:E; [|reflexivity].
  apply Ascii.eqb_eq in E. subst c. congruence.
Qed.

(** Letters at the head of a text whose stars were replaced were at the
    head of the text before it was escaped. *)
Lemma inert_prefix (w r : string) :
  all (fun c => negb (Ascii.eqb c "[") && negb (Ascii.eqb c "D") &&
                negb (Ascii.eqb c "\")) w = true ->
  startsWith (starred (escape_regex_chars r)) w = true ->
  startsWith r w = true.
Proof.
  revert r. induction w as [|x w IH]; intros r Hw; [reflexivity|].
  cbn [all] in Hw. apply andb_true_iff in Hw as [Hx Hw].
  apply andb_true_iff in Hx as [Hx H3]. apply andb_true_iff in Hx as [H1 H2].
  apply negb_true_iff in H1, H2, H3.
  destruct r as [|c r]; [discriminate|]. rewrite escape_cons.
  destruct (Ascii.eqb "*" c) eqn:Hstar.
  - apply Ascii.eqb_eq in Hstar. subst c.
    change (regex_char "*") with false. cbv iota.
    destruct (startsWith (escape_regex_chars r) "*") eqn:Hs.
    + apply startsWith_inv in Hs as [t ->].
      change (String "*" ("*" ++ t)) with ("**" ++ t).
      rewrite starred_stars. cbn [String.append startsWith].
      now rewrite H2.
    + rewrite (starred_star _ Hs). cbn [String.append startsWith].
      now rewrite H1.
  - destruct (regex_char c) eqn:Hr.
    + rewrite starred_cons by reflexivity. cbn [startsWith].
      now rewrite H3.
    + rewrite (starred_cons c _ Hstar). cbn [startsWith].
      intros [Hc Hrest]%andb_true_iff. rewrite Hc. cbn [andb].
      now apply IH.
Qed.

Lemma includes_cons (c : ascii) (r x : string) :
  includes (String c r) x = false ->
  startsWith (String c r) x = false /\ includes r x = false.
Proof. cbn [includes]. now intros ?%orb_false_iff. Qed.

(** The replacements of [globToRegex] translate a glob token by token,
    when the glob does not hold the word that stands for two stars. *)
Lemma escaped_translate (n : nat) (p : string) :
  (String.length p <= n)%nat ->
  includes p "DOUBLESTAR" = false -> escaped p = translate p.
Proof.
  revert p. induction n as [|n IH]; intros p Hn Hinc.
  - destruct p; [reflexivity | simpl in Hn; lia].
  - destruct p as [|c r]; [reflexivity|]. simpl in Hn.
    apply includes_cons in Hinc as [Hhead Hinc].
    unfold escaped. rewrite escape_cons. cbn [translate].
    destruct (Ascii.eqb c "*") eqn:Hstar.
    { apply Ascii.eqb_eq in Hstar. subst c.
      change (regex_char "*") with false. cbv iota.
      destruct r as [|c2 r2]; [reflexivity|].
      rewrite escape_cons.
      destruct (Ascii.eqb c2 "*") eqn:Hstar2.
      - apply Ascii.eqb_eq in Hstar2. subst c2.
        change (regex_char "*") with false. cbv iota.
        change (String "*" (String "*" ?t)) with ("**" ++ t).
        rewrite replaced_stars. f_equal.
        apply includes_cons in Hinc as [_ Hinc].
        apply (IH r2); [simpl in Hn; lia | exact Hinc].
      - rewrite <- escape_cons. rewrite replaced_star.
        + f_equal. apply (IH (String c2 r2)); [simpl in *; lia | exact Hinc].
        + rewrite escape_cons. rewrite Ascii.eqb_sym in Hstar2.
          destruct (regex_char c2); cbn [startsWith];
            [reflexivity | now rewrite Hstar2]. }
    destruct (Ascii.eqb c "?") eqn:Hq.
    { apply Ascii.eqb_eq in Hq. subst c.
      change (regex_char "?") with false. cbv iota.
      rewrite replaced_question. f_equal. apply (IH r); [lia | exact Hinc]. }
    rewrite Ascii.eqb_sym in Hstar, Hq.
    destruct (regex_char c) eqn:Hr.
    { change (String "\" (String c (escape_regex_chars r)))
        with (String "\" (String c "") ++ escape_regex_chars r).
      rewrite replaced_copy.
      - cbn [String.append]. do 2 f_equal. apply (IH r); [lia | exact Hinc].
      - cbn [has]. now rewrite Hstar.
      - cbn [has]. now rewrite (regex_char_other "D" c eq_refl Hr).
      - cbn [has]. now rewrite Hq. }
    destruct (Ascii.eqb "D" c) eqn:HD.
    { apply Ascii.eqb_eq in HD. subst c.
      rewrite replaced_D.
      - f_equal. apply (IH r); [lia | exact Hinc].
      - destruct (startsWith (starred (escape_regex_chars r)) "OUBLESTAR")
          eqn:Hs; [|reflexivity].
        apply inert_prefix in Hs; [|reflexivity].
        cbn [startsWith] in Hhead. change (Ascii.eqb "D" "D") with true in Hhead.
        cbn [andb] in Hhead. cbn [startsWith] in Hs. congruence. }
    change (String c (escape_regex_chars r))
      with (String c "" ++ escape_regex_chars r).
    rewrite replaced_copy.
    + cbn [String.append]. f_equal. apply (IH r); [lia | exact Hinc].
    + cbn [has]. now rewrite Hstar.
    + cbn [has]. now rewrite HD.
    + cbn [has]. now rewrite Hq.
Qed.

End GlobFacts.

(** X20. The regular expression that globToRegex makes of a glob, when
    the glob does not hold the word DOUBLESTAR: the translation of the
    glob token by token from the left, between the anchors of the start
    and of the end. Two stars become the pattern of any text, one star
    and a question mark the patterns of a text and of a character without
    slash, a character that is special in a regular expression is
    escaped, and every other character stands for itself. *)
Theorem globToRegex_tokens (pattern : string) :
  Js.includes pattern "DOUBLESTAR" = false ->
  Mod.globToRegex pattern = "^" ++ Glob.translate pattern ++ "$".
Proof.
  intros Hinc.
  rewrite <- (GlobFacts.escaped_translate (String.length pattern) pattern
                (le_n _) Hinc).
  reflexivity.
Qed.

Lemma globToRegex_tokens_witness :
  Mod.globToRegex "src/**/*.ts" = "^src/.*/[^/]*\.ts$".
Proof.
  exact (globToRegex_tokens "src/**/*.ts" eq_refl).
Defined.

(** X19. A non-interactive session on a project whose manifest holds a
    version that is not a valid semantic version writes nothing. In
    manual mode with a configuration that validateBumpConfig accepts it
    returns all the same; in the other modes it throws the error of the
    failed bump, wrapped in the error of the session. *)
Theorem session_with_invalid_current `{HM : Mod.Host}
    (fs : gmap string Fs.node) (config : Session.SessionConfig)
    (currentVersion : string) :
  Mod.getCurrentVersion fs = Ok currentVersion ->
  Mod.isValidSemver currentVersion = false ->
  Session.validateBumpConfig (Session.bumpType config)
    (Mod.customVersion (Session.options config)) = Ok tt ->
  let run := Session.handleNonInteractiveSession fs config in
  Mod.files_now (Mod.final run) = fs /\
  Mod.outcome run =
    match Session.bumpType config with
    | Mod.manual => Ok tt
    | bumpType =>
        Throw (Error ("Failed to bump version: Error: failed to bump version "
                      ++ currentVersion ++ " with type " ++
                      Mod.bumpType_name bumpType))
    end.
Proof.
  intros Hcur Hinv Hval run. subst run.
  unfold Session.handleNonInteractiveSession. rewrite Hval.
  cbv zeta.
  destruct (AnalysisFacts.invalid_current_run fs (Session.bumpType config)
              (Session.filesToBump config) (Session.options config) None
              currentVersion Hcur Hinv) as (Hf & _ & Ho).
  rewrite Ho.
  assert (Hcalc :
    Mod.calculateNewVersion currentVersion (Session.bumpType config)
      (Mod.customVersion (Session.options config)) None =
    match Session.bumpType config with
    | Mod.manual =>
        Ok (default "" (Mod.customVersion (Session.options config)))
    | bumpType =>
        Throw (Error ("failed to bump version " ++ currentVersion ++
                      " with type " ++ Mod.bumpType_name bumpType))
    end).
  { assert (Hinc : forall r, Semver.inc currentVersion r = None).
    { intros r. unfold Semver.inc. revert Hinv.
      unfold Mod.isValidSemver, Semver.valid.
      destruct (Semver.parse currentVersion); [discriminate | reflexivity]. }
    revert Hval. unfold Session.validateBumpConfig, Mod.calculateNewVersion.
    destruct (Session.bumpType config); try (now rewrite Hinc).
    destruct (Mod.customVersion (Session.options config)) as [[|c v]|];
      try discriminate.
    simpl. destruct (Mod.isValidSemver (String c v)); [reflexivity|].
    discriminate. }
  rewrite Hcalc.
  destruct (Session.bumpType config); cbn [Mod.final Mod.outcome];
    rewrite ?Ho, ?Hcalc; (split; [exact Hf | reflexivity]).
Qed.

Lemma session_with_invalid_current_witness :
  let run :=
    Session.handleNonInteractiveSession (H := Scenario.mod_host)
      Scenario.odd_files
      (Session.mkSessionConfig true true "package.json" ["package.json"]
         (Mod.mkBumpOptions false None) Mod.patch) in
  Mod.files_now (Mod.final run) = Scenario.odd_files /\
  Mod.outcome run =
  Throw (Error "Failed to bump version: Error: failed to bump version abc with type patch").
Proof.
  exact (@session_with_invalid_current Scenario.mod_host Scenario.odd_files
           (Session.mkSessionConfig true true "package.json" ["package.json"]
              (Mod.mkBumpOptions false None) Mod.patch)
           "abc" eq_refl eq_refl eq_refl).
Defined.
